(** * DRBD worker (ubuntu/drbd/drbd_worker.c): a shallow embedding

    The development follows the C file function by function.  Device state
    ([struct drbd_conf]) is a record; every function of the worker is a
    computation in a small state-and-trace monad: it reads and updates the
    device and logs, in program order, each call it makes into the parts of
    DRBD that live in other files (peer link, bitmap, resync LRU, block
    layer).  What those calls answer is an input of the model. *)

From Stdlib Require Import ZArith List Bool Lia String.
From stdpp Require Import base list.
Import ListNotations.

Local Open Scope Z_scope.

(** ** Kernel and DRBD configuration *)

(** Constants, bit numbers and the digest primitive come from headers that are
    not part of drbd_worker.c ([HZ] from the kernel configuration, the others
    from drbd_int.h and the crypto API).  They are parameters of the model. *)
Class KernelConfig : Type := {
  HZ : Z;
  BM_BLOCK_SIZE_B : Z;
  BM_EXT_SIZE_B : Z;
  DRBD_MAX_SEGMENT_SIZE : Z;
  STOP_SYNC_TIMER : Z;
  WRITE_BM_AFTER_RESYNC : Z;
  EE_CALL_AL_COMPLETE_IO : Z;
  EE_IS_BARRIER : Z;
  crypto_hash_digestsize : Z -> Z;
  crypto_hash_digest : Z -> list Z -> list Z
}.

(** The configuration of a 250 Hz kernel with DRBD's 4 KiB bitmap blocks,
    16 MiB resync extents and 32 KiB segments; the toy digest is the byte sum
    followed by the length. *)
#[export] Instance drbd_config : KernelConfig := {|
  HZ := 250;
  BM_BLOCK_SIZE_B := 12;
  BM_EXT_SIZE_B := 24;
  DRBD_MAX_SEGMENT_SIZE := 32768;
  STOP_SYNC_TIMER := 3;
  WRITE_BM_AFTER_RESYNC := 9;
  EE_CALL_AL_COMPLETE_IO := 1;
  EE_IS_BARRIER := 4;
  crypto_hash_digestsize := fun _ => 2;
  crypto_hash_digest := fun _ data =>
    [fold_right Z.add 0 data mod 256; Z.of_nat (length data) mod 256]
|}.

Section Constants.
Context `{KernelConfig}.

(** [#define SLEEP_TIME (HZ/10)] *)
Definition SLEEP_TIME : Z := Z.quot HZ 10.

Definition BM_BLOCK_SIZE : Z := Z.shiftl 1 BM_BLOCK_SIZE_B.
Definition BM_SECT_PER_BIT : Z := Z.shiftr BM_BLOCK_SIZE 9.
Definition BM_BIT_TO_SECT (x : Z) : Z := Z.shiftl x (BM_BLOCK_SIZE_B - 9).
Definition BM_SECT_TO_BIT (x : Z) : Z := Z.shiftr x (BM_BLOCK_SIZE_B - 9).
Definition BM_BLOCKS_PER_BM_EXT_MASK : Z :=
  Z.shiftl 1 (BM_EXT_SIZE_B - BM_BLOCK_SIZE_B) - 1.
End Constants.

(** ** Machine integers *)

(** [int] and [atomic_t] are 32 bits wide and wrap (the kernel is built with
    wrapping signed arithmetic); [unsigned long] and [sector_t] are 64 bits. *)
Definition wrap_int (x : Z) : Z := (x + 2147483648) mod 4294967296 - 2147483648.
Definition wrap_uint (x : Z) : Z := x mod 4294967296.
Definition wrap_ulong (x : Z) : Z := x mod 18446744073709551616.

Definition INT_MAX : Z := 2147483647.

(** ** Connection and disk states *)

(** Modelled from the spec: [enum drbd_conns] and [enum drbd_disk_state] are
    declared in linux/drbd.h, which is not among the sources.  The data model
    names the states; their order is the one the comparisons of the worker
    rely on (the failure states lie below [Connected], the resync states
    [SyncSource] .. [PausedSyncT] form one range above it). *)
Inductive drbd_conns : Type :=
  | StandAlone | Disconnecting | Unconnected | Timeout | BrokenPipe
  | NetworkFailure | ProtocolError | TearDown | WFConnection | WFReportParams
  | Connected | StartingSyncS | StartingSyncT | WFBitMapS | WFBitMapT
  | WFSyncUUID | SyncSource | SyncTarget | PausedSyncS | PausedSyncT
  | VerifyS | VerifyT.

Definition conn_val (c : drbd_conns) : Z :=
  match c with
  | StandAlone => 0 | Disconnecting => 1 | Unconnected => 2 | Timeout => 3
  | BrokenPipe => 4 | NetworkFailure => 5 | ProtocolError => 6 | TearDown => 7
  | WFConnection => 8 | WFReportParams => 9 | Connected => 10
  | StartingSyncS => 11 | StartingSyncT => 12 | WFBitMapS => 13
  | WFBitMapT => 14 | WFSyncUUID => 15 | SyncSource => 16 | SyncTarget => 17
  | PausedSyncS => 18 | PausedSyncT => 19 | VerifyS => 20 | VerifyT => 21
  end.

Inductive drbd_disk_state : Type :=
  | Diskless | Attaching | Failed | Negotiating | Inconsistent | Outdated
  | DUnknown | Consistent | UpToDate.

Definition disk_val (d : drbd_disk_state) : Z :=
  match d with
  | Diskless => 0 | Attaching => 1 | Failed => 2 | Negotiating => 3
  | Inconsistent => 4 | Outdated => 5 | DUnknown => 6 | Consistent => 7
  | UpToDate => 8
  end.

#[export] Instance drbd_conns_eq_dec : EqDecision drbd_conns.
Proof. solve_decision. Defined.

#[export] Instance drbd_disk_state_eq_dec : EqDecision drbd_disk_state.
Proof. solve_decision. Defined.

Definition conn_eqb (a b : drbd_conns) : bool := conn_val a =? conn_val b.
Definition conn_ltb (a b : drbd_conns) : bool := conn_val a <? conn_val b.
Definition conn_leb (a b : drbd_conns) : bool := conn_val a <=? conn_val b.
Definition disk_eqb (a b : drbd_disk_state) : bool := disk_val a =? disk_val b.
Definition disk_leb (a b : drbd_disk_state) : bool := disk_val a <=? disk_val b.

(** [union drbd_state_t]: the fields the worker reads or writes. *)
Record drbd_state_t : Type := mk_state {
  conn : drbd_conns;
  disk : drbd_disk_state;
  pdsk : drbd_disk_state;
  aftr_isp : bool;
  peer_isp : bool;
  user_isp : bool
}.

Definition set_conn (v : drbd_conns) (s : drbd_state_t) : drbd_state_t :=
  mk_state v (disk s) (pdsk s) (aftr_isp s) (peer_isp s) (user_isp s).
Definition set_disk (v : drbd_disk_state) (s : drbd_state_t) : drbd_state_t :=
  mk_state (conn s) v (pdsk s) (aftr_isp s) (peer_isp s) (user_isp s).
Definition set_pdsk (v : drbd_disk_state) (s : drbd_state_t) : drbd_state_t :=
  mk_state (conn s) (disk s) v (aftr_isp s) (peer_isp s) (user_isp s).
Definition set_aftr_isp (v : bool) (s : drbd_state_t) : drbd_state_t :=
  mk_state (conn s) (disk s) (pdsk s) v (peer_isp s) (user_isp s).

(** [struct syncer_conf]: [rate] in KiB/s, [after] the minor this device
    resyncs after, or -1. *)
Record syncer_conf : Type := mk_syncer_conf {
  rate : Z;
  after : Z
}.

(** ** Work items and epoch entries *)

(** The callbacks a [struct drbd_work] can carry ([w->cb]). *)
Inductive w_callback : Type :=
  | cb_w_resync_inactive | cb_w_make_resync_request | cb_w_make_ov_request
  | cb_w_resync_finished | cb_w_ov_finished | cb_w_e_reissue
  | cb_w_e_send_csum | cb_w_e_end_data_req | cb_w_e_end_rsdata_req
  | cb_w_e_end_csum_rs_req | cb_w_e_end_ov_req | cb_w_e_end_ov_reply
  | cb_e_end_block | cb_e_end_resync_block
  | cb_w_send_barrier | cb_w_send_write_hint | cb_w_send_dblock
  | cb_w_send_read_req | cb_w_io_error | cb_w_read_retry_remote
  | cb_w_prev_work_done.

(** [struct digest_info]: the digest the peer sent with a checksum request. *)
Record digest_info : Type := mk_digest_info {
  digest_size : Z;
  digest : list Z
}.

(** [e->block_id]: the syncer's own id, the vacant marker, the marker of a
    local read made for a checksum, a pointer to the peer's digest, or an id
    chosen by the peer. *)
Inductive block_id_t : Type :=
  | ID_SYNCER
  | ID_VACANT
  | ID_MAGIC_BEEF
  | ID_DIGEST (di : digest_info)
  | ID_PEER (id : Z).

Definition is_syncer_block_id (id : block_id_t) : bool :=
  match id with ID_SYNCER => true | _ => false end.

(** [struct Tl_epoch_entry].  [e_addr] stands for the address of the entry
    (its identity on the lists); the last three fields describe its
    [private_bio]: the data read, [BIO_UPTODATE], and whether a page of it is
    still referenced by an unfinished sendpage(). *)
Record Tl_epoch_entry : Type := mk_ee {
  e_addr : Z;
  e_cb : w_callback;
  e_sector : Z;
  e_size : Z;
  e_block_id : block_id_t;
  e_flags : Z;
  bio_data : list Z;
  bio_uptodate : bool;
  bio_has_active_page : bool
}.

Definition set_e_cb (v : w_callback) (e : Tl_epoch_entry) : Tl_epoch_entry :=
  mk_ee (e_addr e) v (e_sector e) (e_size e) (e_block_id e) (e_flags e)
    (bio_data e) (bio_uptodate e) (bio_has_active_page e).
Definition set_e_block_id (v : block_id_t) (e : Tl_epoch_entry) : Tl_epoch_entry :=
  mk_ee (e_addr e) (e_cb e) (e_sector e) (e_size e) v (e_flags e)
    (bio_data e) (bio_uptodate e) (bio_has_active_page e).

(** What sits on [mdev->data.work.q]: an epoch entry (through its embedded
    [w]), the device's own [resync_work], or a separately allocated item. *)
Inductive drbd_work : Type :=
  | Work_ee (e : Tl_epoch_entry)
  | Work_resync
  | Work_item (cb : w_callback).

(** ** The device *)

(** [struct drbd_conf]: the fields drbd_worker.c uses.  [work_q] is
    [data.work.q]; [md_uuid] is [bc->md.uuid]; [csums_tfm], [verify_tfm] and
    [p_uuid] are pointers that may be NULL. *)
Record drbd_conf : Type := mk_drbd_conf {
  state : drbd_state_t;
  sync_conf : syncer_conf;
  flags : Z;
  agreed_pro_version : Z;
  csums_tfm : option Z;
  verify_tfm : option Z;
  rs_pending_cnt : Z;
  unacked_cnt : Z;
  rs_total : Z;
  rs_failed : Z;
  rs_paused : Z;
  rs_start : Z;
  rs_same_csum : Z;
  bm_resync_fo : Z;
  ov_position : Z;
  ov_left : Z;
  read_cnt : Z;
  writ_cnt : Z;
  resync_work_cb : w_callback;
  read_ee : list Tl_epoch_entry;
  active_ee : list Tl_epoch_entry;
  sync_ee : list Tl_epoch_entry;
  done_ee : list Tl_epoch_entry;
  net_ee : list Tl_epoch_entry;
  md_uuid : list Z;
  p_uuid : option (list Z);
  work_q : list drbd_work
}.

Definition set_state (v : drbd_state_t) (m : drbd_conf) : drbd_conf :=
  mk_drbd_conf v (sync_conf m) (flags m) (agreed_pro_version m) (csums_tfm m)
    (verify_tfm m) (rs_pending_cnt m) (unacked_cnt m) (rs_total m)
    (rs_failed m) (rs_paused m) (rs_start m) (rs_same_csum m) (bm_resync_fo m)
    (ov_position m) (ov_left m) (read_cnt m) (writ_cnt m) (resync_work_cb m)
    (read_ee m) (active_ee m) (sync_ee m) (done_ee m) (net_ee m) (md_uuid m)
    (p_uuid m) (work_q m).

Definition set_sync_conf (v : syncer_conf) (m : drbd_conf) : drbd_conf :=
  mk_drbd_conf (state m) v (flags m) (agreed_pro_version m) (csums_tfm m)
    (verify_tfm m) (rs_pending_cnt m) (unacked_cnt m) (rs_total m)
    (rs_failed m) (rs_paused m) (rs_start m) (rs_same_csum m) (bm_resync_fo m)
    (ov_position m) (ov_left m) (read_cnt m) (writ_cnt m) (resync_work_cb m)
    (read_ee m) (active_ee m) (sync_ee m) (done_ee m) (net_ee m) (md_uuid m)
    (p_uuid m) (work_q m).

Definition set_flags (v : Z) (m : drbd_conf) : drbd_conf :=
  mk_drbd_conf (state m) (sync_conf m) v (agreed_pro_version m) (csums_tfm m)
    (verify_tfm m) (rs_pending_cnt m) (unacked_cnt m) (rs_total m)
    (rs_failed m) (rs_paused m) (rs_start m) (rs_same_csum m) (bm_resync_fo m)
    (ov_position m) (ov_left m) (read_cnt m) (writ_cnt m) (resync_work_cb m)
    (read_ee m) (active_ee m) (sync_ee m) (done_ee m) (net_ee m) (md_uuid m)
    (p_uuid m) (work_q m).

Definition set_agreed_pro_version (v : Z) (m : drbd_conf) : drbd_conf :=
  mk_drbd_conf (state m) (sync_conf m) (flags m) v (csums_tfm m)
    (verify_tfm m) (rs_pending_cnt m) (unacked_cnt m) (rs_total m)
    (rs_failed m) (rs_paused m) (rs_start m) (rs_same_csum m) (bm_resync_fo m)
    (ov_position m) (ov_left m) (read_cnt m) (writ_cnt m) (resync_work_cb m)
    (read_ee m) (active_ee m) (sync_ee m) (done_ee m) (net_ee m) (md_uuid m)
    (p_uuid m) (work_q m).

Definition set_csums_tfm (v : option Z) (m : drbd_conf) : drbd_conf :=
  mk_drbd_conf (state m) (sync_conf m) (flags m) (agreed_pro_version m) v
    (verify_tfm m) (rs_pending_cnt m) (unacked_cnt m) (rs_total m)
    (rs_failed m) (rs_paused m) (rs_start m) (rs_same_csum m) (bm_resync_fo m)
    (ov_position m) (ov_left m) (read_cnt m) (writ_cnt m) (resync_work_cb m)
    (read_ee m) (active_ee m) (sync_ee m) (done_ee m) (net_ee m) (md_uuid m)
    (p_uuid m) (work_q m).

Definition set_verify_tfm (v : option Z) (m : drbd_conf) : drbd_conf :=
  mk_drbd_conf (state m) (sync_conf m) (flags m) (agreed_pro_version m)
    (csums_tfm m) v (rs_pending_cnt m) (unacked_cnt m) (rs_total m)
    (rs_failed m) (rs_paused m) (rs_start m) (rs_same_csum m) (bm_resync_fo m)
    (ov_position m) (ov_left m) (read_cnt m) (writ_cnt m) (resync_work_cb m)
    (read_ee m) (active_ee m) (sync_ee m) (done_ee m) (net_ee m) (md_uuid m)
    (p_uuid m) (work_q m).

Definition set_rs_pending_cnt (v : Z) (m : drbd_conf) : drbd_conf :=
  mk_drbd_conf (state m) (sync_conf m) (flags m) (agreed_pro_version m)
    (csums_tfm m) (verify_tfm m) v (unacked_cnt m) (rs_total m) (rs_failed m)
    (rs_paused m) (rs_start m) (rs_same_csum m) (bm_resync_fo m)
    (ov_position m) (ov_left m) (read_cnt m) (writ_cnt m) (resync_work_cb m)
    (read_ee m) (active_ee m) (sync_ee m) (done_ee m) (net_ee m) (md_uuid m)
    (p_uuid m) (work_q m).

Definition set_unacked_cnt (v : Z) (m : drbd_conf) : drbd_conf :=
  mk_drbd_conf (state m) (sync_conf m) (flags m) (agreed_pro_version m)
    (csums_tfm m) (verify_tfm m) (rs_pending_cnt m) v (rs_total m)
    (rs_failed m) (rs_paused m) (rs_start m) (rs_same_csum m) (bm_resync_fo m)
    (ov_position m) (ov_left m) (read_cnt m) (writ_cnt m) (resync_work_cb m)
    (read_ee m) (active_ee m) (sync_ee m) (done_ee m) (net_ee m) (md_uuid m)
    (p_uuid m) (work_q m).

Definition set_rs_total (v : Z) (m : drbd_conf) : drbd_conf :=
  mk_drbd_conf (state m) (sync_conf m) (flags m) (agreed_pro_version m)
    (csums_tfm m) (verify_tfm m) (rs_pending_cnt m) (unacked_cnt m) v
    (rs_failed m) (rs_paused m) (rs_start m) (rs_same_csum m) (bm_resync_fo m)
    (ov_position m) (ov_left m) (read_cnt m) (writ_cnt m) (resync_work_cb m)
    (read_ee m) (active_ee m) (sync_ee m) (done_ee m) (net_ee m) (md_uuid m)
    (p_uuid m) (work_q m).

Definition set_rs_failed (v : Z) (m : drbd_conf) : drbd_conf :=
  mk_drbd_conf (state m) (sync_conf m) (flags m) (agreed_pro_version m)
    (csums_tfm m) (verify_tfm m) (rs_pending_cnt m) (unacked_cnt m)
    (rs_total m) v (rs_paused m) (rs_start m) (rs_same_csum m)
    (bm_resync_fo m) (ov_position m) (ov_left m) (read_cnt m) (writ_cnt m)
    (resync_work_cb m) (read_ee m) (active_ee m) (sync_ee m) (done_ee m)
    (net_ee m) (md_uuid m) (p_uuid m) (work_q m).

Definition set_rs_paused (v : Z) (m : drbd_conf) : drbd_conf :=
  mk_drbd_conf (state m) (sync_conf m) (flags m) (agreed_pro_version m)
    (csums_tfm m) (verify_tfm m) (rs_pending_cnt m) (unacked_cnt m)
    (rs_total m) (rs_failed m) v (rs_start m) (rs_same_csum m)
    (bm_resync_fo m) (ov_position m) (ov_left m) (read_cnt m) (writ_cnt m)
    (resync_work_cb m) (read_ee m) (active_ee m) (sync_ee m) (done_ee m)
    (net_ee m) (md_uuid m) (p_uuid m) (work_q m).

Definition set_rs_start (v : Z) (m : drbd_conf) : drbd_conf :=
  mk_drbd_conf (state m) (sync_conf m) (flags m) (agreed_pro_version m)
    (csums_tfm m) (verify_tfm m) (rs_pending_cnt m) (unacked_cnt m)
    (rs_total m) (rs_failed m) (rs_paused m) v (rs_same_csum m)
    (bm_resync_fo m) (ov_position m) (ov_left m) (read_cnt m) (writ_cnt m)
    (resync_work_cb m) (read_ee m) (active_ee m) (sync_ee m) (done_ee m)
    (net_ee m) (md_uuid m) (p_uuid m) (work_q m).

Definition set_rs_same_csum (v : Z) (m : drbd_conf) : drbd_conf :=
  mk_drbd_conf (state m) (sync_conf m) (flags m) (agreed_pro_version m)
    (csums_tfm m) (verify_tfm m) (rs_pending_cnt m) (unacked_cnt m)
    (rs_total m) (rs_failed m) (rs_paused m) (rs_start m) v (bm_resync_fo m)
    (ov_position m) (ov_left m) (read_cnt m) (writ_cnt m) (resync_work_cb m)
    (read_ee m) (active_ee m) (sync_ee m) (done_ee m) (net_ee m) (md_uuid m)
    (p_uuid m) (work_q m).

Definition set_bm_resync_fo (v : Z) (m : drbd_conf) : drbd_conf :=
  mk_drbd_conf (state m) (sync_conf m) (flags m) (agreed_pro_version m)
    (csums_tfm m) (verify_tfm m) (rs_pending_cnt m) (unacked_cnt m)
    (rs_total m) (rs_failed m) (rs_paused m) (rs_start m) (rs_same_csum m) v
    (ov_position m) (ov_left m) (read_cnt m) (writ_cnt m) (resync_work_cb m)
    (read_ee m) (active_ee m) (sync_ee m) (done_ee m) (net_ee m) (md_uuid m)
    (p_uuid m) (work_q m).

Definition set_ov_position (v : Z) (m : drbd_conf) : drbd_conf :=
  mk_drbd_conf (state m) (sync_conf m) (flags m) (agreed_pro_version m)
    (csums_tfm m) (verify_tfm m) (rs_pending_cnt m) (unacked_cnt m)
    (rs_total m) (rs_failed m) (rs_paused m) (rs_start m) (rs_same_csum m)
    (bm_resync_fo m) v (ov_left m) (read_cnt m) (writ_cnt m)
    (resync_work_cb m) (read_ee m) (active_ee m) (sync_ee m) (done_ee m)
    (net_ee m) (md_uuid m) (p_uuid m) (work_q m).

Definition set_ov_left (v : Z) (m : drbd_conf) : drbd_conf :=
  mk_drbd_conf (state m) (sync_conf m) (flags m) (agreed_pro_version m)
    (csums_tfm m) (verify_tfm m) (rs_pending_cnt m) (unacked_cnt m)
    (rs_total m) (rs_failed m) (rs_paused m) (rs_start m) (rs_same_csum m)
    (bm_resync_fo m) (ov_position m) v (read_cnt m) (writ_cnt m)
    (resync_work_cb m) (read_ee m) (active_ee m) (sync_ee m) (done_ee m)
    (net_ee m) (md_uuid m) (p_uuid m) (work_q m).

Definition set_read_cnt (v : Z) (m : drbd_conf) : drbd_conf :=
  mk_drbd_conf (state m) (sync_conf m) (flags m) (agreed_pro_version m)
    (csums_tfm m) (verify_tfm m) (rs_pending_cnt m) (unacked_cnt m)
    (rs_total m) (rs_failed m) (rs_paused m) (rs_start m) (rs_same_csum m)
    (bm_resync_fo m) (ov_position m) (ov_left m) v (writ_cnt m)
    (resync_work_cb m) (read_ee m) (active_ee m) (sync_ee m) (done_ee m)
    (net_ee m) (md_uuid m) (p_uuid m) (work_q m).

Definition set_writ_cnt (v : Z) (m : drbd_conf) : drbd_conf :=
  mk_drbd_conf (state m) (sync_conf m) (flags m) (agreed_pro_version m)
    (csums_tfm m) (verify_tfm m) (rs_pending_cnt m) (unacked_cnt m)
    (rs_total m) (rs_failed m) (rs_paused m) (rs_start m) (rs_same_csum m)
    (bm_resync_fo m) (ov_position m) (ov_left m) (read_cnt m) v
    (resync_work_cb m) (read_ee m) (active_ee m) (sync_ee m) (done_ee m)
    (net_ee m) (md_uuid m) (p_uuid m) (work_q m).

Definition set_resync_work_cb (v : w_callback) (m : drbd_conf) : drbd_conf :=
  mk_drbd_conf (state m) (sync_conf m) (flags m) (agreed_pro_version m)
    (csums_tfm m) (verify_tfm m) (rs_pending_cnt m) (unacked_cnt m)
    (rs_total m) (rs_failed m) (rs_paused m) (rs_start m) (rs_same_csum m)
    (bm_resync_fo m) (ov_position m) (ov_left m) (read_cnt m) (writ_cnt m) v
    (read_ee m) (active_ee m) (sync_ee m) (done_ee m) (net_ee m) (md_uuid m)
    (p_uuid m) (work_q m).

Definition set_read_ee (v : list Tl_epoch_entry) (m : drbd_conf) : drbd_conf :=
  mk_drbd_conf (state m) (sync_conf m) (flags m) (agreed_pro_version m)
    (csums_tfm m) (verify_tfm m) (rs_pending_cnt m) (unacked_cnt m)
    (rs_total m) (rs_failed m) (rs_paused m) (rs_start m) (rs_same_csum m)
    (bm_resync_fo m) (ov_position m) (ov_left m) (read_cnt m) (writ_cnt m)
    (resync_work_cb m) v (active_ee m) (sync_ee m) (done_ee m) (net_ee m)
    (md_uuid m) (p_uuid m) (work_q m).

Definition set_active_ee (v : list Tl_epoch_entry) (m : drbd_conf) : drbd_conf :=
  mk_drbd_conf (state m) (sync_conf m) (flags m) (agreed_pro_version m)
    (csums_tfm m) (verify_tfm m) (rs_pending_cnt m) (unacked_cnt m)
    (rs_total m) (rs_failed m) (rs_paused m) (rs_start m) (rs_same_csum m)
    (bm_resync_fo m) (ov_position m) (ov_left m) (read_cnt m) (writ_cnt m)
    (resync_work_cb m) (read_ee m) v (sync_ee m) (done_ee m) (net_ee m)
    (md_uuid m) (p_uuid m) (work_q m).

Definition set_sync_ee (v : list Tl_epoch_entry) (m : drbd_conf) : drbd_conf :=
  mk_drbd_conf (state m) (sync_conf m) (flags m) (agreed_pro_version m)
    (csums_tfm m) (verify_tfm m) (rs_pending_cnt m) (unacked_cnt m)
    (rs_total m) (rs_failed m) (rs_paused m) (rs_start m) (rs_same_csum m)
    (bm_resync_fo m) (ov_position m) (ov_left m) (read_cnt m) (writ_cnt m)
    (resync_work_cb m) (read_ee m) (active_ee m) v (done_ee m) (net_ee m)
    (md_uuid m) (p_uuid m) (work_q m).

Definition set_done_ee (v : list Tl_epoch_entry) (m : drbd_conf) : drbd_conf :=
  mk_drbd_conf (state m) (sync_conf m) (flags m) (agreed_pro_version m)
    (csums_tfm m) (verify_tfm m) (rs_pending_cnt m) (unacked_cnt m)
    (rs_total m) (rs_failed m) (rs_paused m) (rs_start m) (rs_same_csum m)
    (bm_resync_fo m) (ov_position m) (ov_left m) (read_cnt m) (writ_cnt m)
    (resync_work_cb m) (read_ee m) (active_ee m) (sync_ee m) v (net_ee m)
    (md_uuid m) (p_uuid m) (work_q m).

Definition set_net_ee (v : list Tl_epoch_entry) (m : drbd_conf) : drbd_conf :=
  mk_drbd_conf (state m) (sync_conf m) (flags m) (agreed_pro_version m)
    (csums_tfm m) (verify_tfm m) (rs_pending_cnt m) (unacked_cnt m)
    (rs_total m) (rs_failed m) (rs_paused m) (rs_start m) (rs_same_csum m)
    (bm_resync_fo m) (ov_position m) (ov_left m) (read_cnt m) (writ_cnt m)
    (resync_work_cb m) (read_ee m) (active_ee m) (sync_ee m) (done_ee m) v
    (md_uuid m) (p_uuid m) (work_q m).

Definition set_md_uuid (v : list Z) (m : drbd_conf) : drbd_conf :=
  mk_drbd_conf (state m) (sync_conf m) (flags m) (agreed_pro_version m)
    (csums_tfm m) (verify_tfm m) (rs_pending_cnt m) (unacked_cnt m)
    (rs_total m) (rs_failed m) (rs_paused m) (rs_start m) (rs_same_csum m)
    (bm_resync_fo m) (ov_position m) (ov_left m) (read_cnt m) (writ_cnt m)
    (resync_work_cb m) (read_ee m) (active_ee m) (sync_ee m) (done_ee m)
    (net_ee m) v (p_uuid m) (work_q m).

Definition set_p_uuid (v : option (list Z)) (m : drbd_conf) : drbd_conf :=
  mk_drbd_conf (state m) (sync_conf m) (flags m) (agreed_pro_version m)
    (csums_tfm m) (verify_tfm m) (rs_pending_cnt m) (unacked_cnt m)
    (rs_total m) (rs_failed m) (rs_paused m) (rs_start m) (rs_same_csum m)
    (bm_resync_fo m) (ov_position m) (ov_left m) (read_cnt m) (writ_cnt m)
    (resync_work_cb m) (read_ee m) (active_ee m) (sync_ee m) (done_ee m)
    (net_ee m) (md_uuid m) v (work_q m).

Definition set_work_q (v : list drbd_work) (m : drbd_conf) : drbd_conf :=
  mk_drbd_conf (state m) (sync_conf m) (flags m) (agreed_pro_version m)
    (csums_tfm m) (verify_tfm m) (rs_pending_cnt m) (unacked_cnt m)
    (rs_total m) (rs_failed m) (rs_paused m) (rs_start m) (rs_same_csum m)
    (bm_resync_fo m) (ov_position m) (ov_left m) (read_cnt m) (writ_cnt m)
    (resync_work_cb m) (read_ee m) (active_ee m) (sync_ee m) (done_ee m)
    (net_ee m) (md_uuid m) (p_uuid m) v.


(** ** Calls into the rest of DRBD *)

Inductive packet_cmd : Type :=
  | DataRequest | RSDataRequest | CsumRSRequest | OVRequest | OVReply
  | DataReply | RSDataReply | RSIsInSync | NegDReply | NegRSDReply | OVResult.

(** One constructor per function of another file that the worker calls for
    its effect; the trace of a run lists the calls in program order. *)
Inductive event : Type :=
  | Ev_call_cb (w : drbd_work) (cancel : bool)
  | Ev_force_state (c : drbd_conns)
  | Ev_set_state (ns : drbd_state_t)
  | Ev_mod_timer
  | Ev_inc_local
  | Ev_dec_local
  | Ev_inc_rs_pending
  | Ev_dec_rs_pending
  | Ev_dec_unacked
  | Ev_send_drequest (cmd : packet_cmd) (sector size : Z) (id : block_id_t) (ok : bool)
  | Ev_send_drequest_csum (sector size : Z) (dig : list Z) (cmd : packet_cmd) (ok : bool)
  | Ev_send_ov_request (sector size : Z) (ok : bool)
  | Ev_send_block (cmd : packet_cmd) (e : Tl_epoch_entry) (ok : bool)
  | Ev_send_ack (cmd : packet_cmd) (e : Tl_epoch_entry) (ok : bool)
  | Ev_generic_make_request (e : Tl_epoch_entry)
  | Ev_set_in_sync (sector size : Z)
  | Ev_rs_complete_io (sector : Z)
  | Ev_rs_failed_io (sector size : Z)
  | Ev_io_error
  | Ev_chk_io_error
  | Ev_free_ee (e : Tl_epoch_entry)
  | Ev_kfree_digest_info
  | Ev_bump_write_ordering_bdev_flush
  | Ev_wake_up_ee_wait
  | Ev_wake_asender
  | Ev_al_complete_io (sector : Z)
  | Ev_kick_lo
  | Ev_schedule_timeout
  | Ev_queue_bitmap_io
  | Ev_bm_recount_bits
  | Ev_khelper (cmd : string)
  | Ev_oops
  | Ev_INFO (msg : string) (args : list Z)
  | Ev_ERR (msg : string).

(** ** The worker monad *)

(** A computation reads and updates the device and appends to the trace. *)
Definition M (A : Type) : Type := drbd_conf -> A * drbd_conf * list event.

Definition ret {A} (a : A) : M A := fun m => (a, m, []).

Definition bind {A B} (c : M A) (k : A -> M B) : M B :=
  fun m =>
    let '(a, m1, t1) := c m in
    let '(b, m2, t2) := k a m1 in
    (b, m2, t1 ++ t2).

Definition get : M drbd_conf := fun m => (m, m, []).
Definition modify (f : drbd_conf -> drbd_conf) : M unit := fun m => (tt, f m, []).
Definition emit (e : event) : M unit := fun m => (tt, m, [e]).

Notation "x <- c1 ;; c2" := (bind c1 (fun x => c2))
  (at level 100, c1 at next level, right associativity).
Notation "c1 ;;; c2" := (bind c1 (fun _ => c2))
  (at level 100, right associativity).

Definition result_of {A} (r : A * drbd_conf * list event) : A := fst (fst r).
Definition dev_of {A} (r : A * drbd_conf * list event) : drbd_conf := snd (fst r).
Definition trace_of {A} (r : A * drbd_conf * list event) : list event := snd r.

(** [drbd_queue_work]: append to the FIFO of the worker. *)
Definition drbd_queue_work (w : drbd_work) : M unit :=
  modify (fun m => set_work_q (work_q m ++ [w]) m).

(** [inc_rs_pending] / [dec_rs_pending]: [atomic_inc] and [atomic_dec] on
    [mdev->rs_pending_cnt]. *)
Definition inc_rs_pending : M unit :=
  modify (fun m => set_rs_pending_cnt (wrap_int (rs_pending_cnt m + 1)) m) ;;;
  emit Ev_inc_rs_pending.

Definition dec_rs_pending : M unit :=
  modify (fun m => set_rs_pending_cnt (wrap_int (rs_pending_cnt m - 1)) m) ;;;
  emit Ev_dec_rs_pending.

Definition dec_unacked : M unit :=
  modify (fun m => set_unacked_cnt (wrap_int (unacked_cnt m - 1)) m) ;;;
  emit Ev_dec_unacked.

(** A device at rest, used to build concrete runs: connected, both disks up
    to date, nothing queued, 1000 KiB/s resync rate, no prerequisite. *)
Definition mdev_idle : drbd_conf :=
  {| state := mk_state Connected UpToDate UpToDate false false false;
     sync_conf := mk_syncer_conf 1000 (-1);
     flags := 0; agreed_pro_version := 88; csums_tfm := None;
     verify_tfm := None;
     rs_pending_cnt := 0; unacked_cnt := 0;
     rs_total := 0; rs_failed := 0; rs_paused := 0; rs_start := 0;
     rs_same_csum := 0; bm_resync_fo := 0; ov_position := 0; ov_left := 0;
     read_cnt := 0; writ_cnt := 0; resync_work_cb := cb_w_resync_inactive;
     read_ee := []; active_ee := []; sync_ee := []; done_ee := [];
     net_ee := []; md_uuid := [0; 0; 0; 0]; p_uuid := None; work_q := [] |}.

Definition with_conn (c : drbd_conns) (m : drbd_conf) : drbd_conf :=
  set_state (set_conn c (state m)) m.

(** Modelled from the spec: [drbd_force_state] is defined in drbd_main.c; a
    forced transition sets the connection state without validity checks. *)
Definition drbd_force_state (c : drbd_conns) : M unit :=
  modify (with_conn c) ;;; emit (Ev_force_state c).

(** * The worker loop ([drbd_worker]) *)

Section Worker.

(** What [w->cb(mdev, w, cancel)] does is the business of the callback; the
    loop only looks at the value it returns. *)
Variable run_cb : drbd_work -> bool -> M Z.

(** One turn of the [while (get_t_state(thi) == Running)] loop once the
    semaphore has been taken: unlink the head of [data.work.q], call it with
    [mdev->state.conn < Connected] as [cancel], and react to a failure. *)
Definition drbd_worker_dispatch : M unit :=
  m <- get ;;
  match work_q m with
  | [] => ret tt
  | w :: q =>
      modify (set_work_q q) ;;;
      let cancel := conn_ltb (conn (state m)) Connected in
      emit (Ev_call_cb w cancel) ;;;
      r <- run_cb w cancel ;;
      if r =? 0 then
        m1 <- get ;;
        if negb (conn_ltb (conn (state m1)) Connected)
        then drbd_force_state NetworkFailure
        else ret tt
      else ret tt
  end.

(** The cleanup after the loop: what is left on the queue is called with
    [cancel = 1] and the returned values are dropped.  A callback may queue
    further work, hence the fuel; the result tells whether the queue was
    emptied. *)
Fixpoint drbd_worker_drain (fuel : nat) : M bool :=
  match fuel with
  | O => m <- get ;; ret (match work_q m with [] => true | _ => false end)
  | S fuel' =>
      m <- get ;;
      match work_q m with
      | [] => ret true
      | w :: q =>
          modify (set_work_q q) ;;;
          emit (Ev_call_cb w true) ;;;
          _ <- run_cb w true ;;
          drbd_worker_drain fuel'
      end
  end.

End Worker.

(** A callback for concrete runs: it fails unless it is cancelled, and a
    [w_send_read_req] that fails has already torn the connection down. *)
Definition failing_cb (w : drbd_work) (cancel : bool) : M Z :=
  if cancel then ret 1
  else match w with
       | Work_item cb_w_send_read_req =>
           modify (with_conn BrokenPipe) ;;; ret 0
       | _ => ret 0
       end.

(** * I/O completion on the secondary ([drbd_endio_write_sec]) *)

Section Endio.
Context `{KernelConfig}.

Definition EIO : Z := 5.

(** [list_del(&e->w.list)]: unlink the entry from the list it is on. *)
Definition list_del_ee (e : Tl_epoch_entry) (l : list Tl_epoch_entry)
  : list Tl_epoch_entry :=
  List.filter (fun x => negb (e_addr x =? e_addr e)) l.

Definition list_del (e : Tl_epoch_entry) (m : drbd_conf) : drbd_conf :=
  set_read_ee (list_del_ee e (read_ee m))
    (set_active_ee (list_del_ee e (active_ee m))
       (set_sync_ee (list_del_ee e (sync_ee m))
          (set_done_ee (list_del_ee e (done_ee m))
             (set_net_ee (list_del_ee e (net_ee m)) m)))).

Definition list_empty {A} (l : list A) : bool :=
  match l with [] => true | _ => false end.

Definition when (b : bool) (c : M unit) : M unit := if b then c else ret tt.

(** [drbd_endio_write_sec(bio, error)], with [e = bio->bi_private]. *)
Definition drbd_endio_write_sec (e : Tl_epoch_entry) (error : Z) : M unit :=
  let uptodate := bio_uptodate e in
  let error := if (error =? 0) && negb uptodate then - EIO else error in
  if negb (error =? 0) && negb (Z.land (e_flags e) EE_IS_BARRIER =? 0) then
    emit Ev_bump_write_ordering_bdev_flush ;;;
    modify (list_del e) ;;;
    drbd_queue_work (Work_ee (set_e_cb cb_w_e_reissue e))
  else
    modify (fun m =>
      set_writ_cnt (wrap_uint (writ_cnt m + Z.shiftr (e_size e) 9)) m) ;;;
    let is_syncer_req := is_syncer_block_id (e_block_id e) in
    let e_sector := e_sector e in
    let do_al_complete_io := Z.land (e_flags e) EE_CALL_AL_COMPLETE_IO in
    modify (list_del e) ;;;
    modify (fun m => set_done_ee (done_ee m ++ [e]) m) ;;;
    m <- get ;;
    let do_wake :=
      if is_syncer_req then list_empty (sync_ee m)
      else list_empty (active_ee m) in
    when (negb (error =? 0)) (emit Ev_chk_io_error) ;;;
    when is_syncer_req (emit (Ev_rs_complete_io e_sector)) ;;;
    when do_wake (emit Ev_wake_up_ee_wait) ;;;
    when (negb (do_al_complete_io =? 0)) (emit (Ev_al_complete_io e_sector)) ;;;
    emit Ev_wake_asender ;;;
    emit Ev_dec_local.

Definition on_list (e : Tl_epoch_entry) (l : list Tl_epoch_entry) : bool :=
  existsb (fun x => e_addr x =? e_addr e) l.



End Endio.

(** A peer write of 4 KiB at sector 8 and a resync write at sector 64. *)
Definition ee_peer_write : Tl_epoch_entry :=
  mk_ee 1 cb_e_end_block 8 4096 (ID_PEER 77) 1 [] true false.


(** * Replies to the peer and the checksum path *)

Section Replies.
Context `{KernelConfig}.

(** What the surroundings answer during one callback: whether the
    [kmalloc] of the digest buffer succeeds, whether the packet goes out on
    the peer link, and whether [inc_local_if_state(mdev, Failed)] gets the
    local disk. *)
Record reply_env : Type := mk_reply_env {
  kmalloc_ok : bool;
  send_ok : bool;
  inc_local_failed_ok : bool
}.

(** [drbd_csum]: the digest of the data of the bio under [tfm]. *)
Definition drbd_csum (tfm : Z) (e : Tl_epoch_entry) : list Z :=
  crypto_hash_digest tfm (bio_data e).

Fixpoint list_Z_eqb (a b : list Z) : bool :=
  match a, b with
  | [], [] => true
  | x :: a', y :: b' => (x =? y) && list_Z_eqb a' b'
  | _, _ => false
  end.

(** [!memcmp(a, b, n)] on buffers given as byte lists. *)
Definition memcmp_eq (a b : list Z) (n : Z) : bool :=
  list_Z_eqb (firstn (Z.to_nat n) a) (firstn (Z.to_nat n) b).

(** [e->block_id] read back as the pointer to the [struct digest_info]. *)
Definition digest_info_of (id : block_id_t) : digest_info :=
  match id with
  | ID_DIGEST di => di
  | _ => mk_digest_info 0 []
  end.

Definition drbd_send_block (cmd : packet_cmd) (e : Tl_epoch_entry) (ok : bool)
  : M Z :=
  emit (Ev_send_block cmd e ok) ;;; ret (Z.b2z ok).

Definition drbd_send_ack (cmd : packet_cmd) (e : Tl_epoch_entry) (ok : bool)
  : M Z :=
  emit (Ev_send_ack cmd e ok) ;;; ret (Z.b2z ok).

Definition drbd_send_drequest_csum (sector size : Z) (dig : list Z)
    (cmd : packet_cmd) (ok : bool) : M Z :=
  emit (Ev_send_drequest_csum sector size dig cmd ok) ;;; ret (Z.b2z ok).

(** The common tail of the reply callbacks: keep the entry on [net_ee] while
    sendpage() still holds a page of it, free it otherwise. *)
Definition keep_or_free (e : Tl_epoch_entry) : M unit :=
  if bio_has_active_page e
  then modify (fun m => set_net_ee (net_ee m ++ [e]) m)
  else emit (Ev_free_ee e).

Definition cancelled (e : Tl_epoch_entry) : M Z :=
  emit (Ev_free_ee e) ;;; dec_unacked ;;; ret 1.

(** [w_e_send_csum]: the resync target has read a block it holds out of
    sync and asks the source to compare digests.  After a good read
    [crypto_hash_digestsize] dereferences [csums_tfm] without a test: with a
    NULL transform the kernel oopses there and the call does not return.
    The model logs the oops and ends the call on the spot, with [None] for
    the value that is never returned; nothing is freed or sent. *)
Definition w_e_send_csum (env : reply_env) (e : Tl_epoch_entry) (cancel : bool)
  : M (option Z) :=
  if cancel then emit (Ev_free_ee e) ;;; ret (Some 1)
  else
    r <- (if bio_uptodate e then
            m <- get ;;
            match csums_tfm m with
            | None => emit Ev_oops ;;; ret None
            | Some tfm =>
                if kmalloc_ok env then
                  inc_rs_pending ;;;
                  ok <- drbd_send_drequest_csum (e_sector e) (e_size e)
                          (drbd_csum tfm e) CsumRSRequest (send_ok env) ;;
                  ret (Some ok)
                else
                  emit (Ev_ERR "kmalloc() of digest failed.") ;;;
                  ret (Some 0)
            end
          else emit Ev_io_error ;;; ret (Some 1)) ;;
    match r with
    | None => ret None
    | Some ok =>
        emit (Ev_free_ee e) ;;;
        when (ok =? 0) (emit (Ev_ERR "drbd_send_drequest(..., csum) failed")) ;;;
        ret (Some ok)
    end.

(** [w_e_end_rsdata_req]: answer an [RSDataRequest] with the block. *)
Definition w_e_end_rsdata_req (env : reply_env) (e : Tl_epoch_entry)
    (cancel : bool) : M Z :=
  if cancel then cancelled e
  else
    when (inc_local_failed_ok env)
      (emit (Ev_rs_complete_io (e_sector e)) ;;; emit Ev_dec_local) ;;;
    ok <- (if bio_uptodate e then
             m <- get ;;
             if disk_leb Inconsistent (pdsk (state m)) then
               inc_rs_pending ;;;
               drbd_send_block RSDataReply e (send_ok env)
             else ret 1
           else
             ok <- drbd_send_ack NegRSDReply e (send_ok env) ;;
             emit Ev_io_error ;;;
             emit (Ev_rs_failed_io (e_sector e) (e_size e)) ;;;
             ret ok) ;;
    dec_unacked ;;;
    keep_or_free e ;;;
    when (ok =? 0) (emit (Ev_ERR "drbd_send_block() failed")) ;;;
    ret ok.

(** [w_e_end_csum_rs_req]: answer a checksum request.  The digest of the
    local block is compared with the one the peer sent. *)
Definition w_e_end_csum_rs_req (env : reply_env) (e : Tl_epoch_entry)
    (cancel : bool) : M Z :=
  if cancel then cancelled e
  else
    emit (Ev_rs_complete_io (e_sector e)) ;;;
    let di := digest_info_of (e_block_id e) in
    r <- (if bio_uptodate e then
            m <- get ;;
            let computed :=
              match csums_tfm m with
              | Some tfm =>
                  if kmalloc_ok env
                  then Some (drbd_csum tfm e, crypto_hash_digestsize tfm)
                  else None
              | None => None
              end in
            let eq :=
              match computed with
              | Some (dig, size) => memcmp_eq dig (digest di) size
              | None => false
              end in
            if eq then
              emit (Ev_set_in_sync (e_sector e) (e_size e)) ;;;
              modify (fun m => set_rs_same_csum (wrap_ulong (rs_same_csum m + 1)) m) ;;;
              ok <- drbd_send_ack RSIsInSync e (send_ok env) ;;
              ret (ok, e)
            else
              inc_rs_pending ;;;
              let e' := set_e_block_id ID_SYNCER e in
              ok <- drbd_send_block RSDataReply e' (send_ok env) ;;
              ret (ok, e')
          else
            ok <- drbd_send_ack NegRSDReply e (send_ok env) ;;
            emit Ev_io_error ;;;
            ret (ok, e)) ;;
    let '(ok, e) := r in
    dec_unacked ;;;
    emit Ev_kfree_digest_info ;;;
    keep_or_free e ;;;
    when (ok =? 0) (emit (Ev_ERR "drbd_send_block/ack() failed")) ;;;
    ret ok.

(** [w_e_end_ov_req]: the verify target sends the digest of its block.
    As in [w_e_send_csum], a NULL [verify_tfm] is dereferenced after a good
    read: the call ends in the oops, before [dec_unacked] and before the
    entry is freed. *)
Definition w_e_end_ov_req (env : reply_env) (e : Tl_epoch_entry) (cancel : bool)
  : M (option Z) :=
  if cancel then r <- cancelled e ;; ret (Some r)
  else
    r <- (if bio_uptodate e then
            m <- get ;;
            match verify_tfm m with
            | None => emit Ev_oops ;;; ret None
            | Some tfm =>
                if kmalloc_ok env then
                  ok <- drbd_send_drequest_csum (e_sector e) (e_size e)
                          (drbd_csum tfm e) OVReply (send_ok env) ;;
                  when (negb (ok =? 0)) inc_rs_pending ;;;
                  ret (Some ok)
                else ret (Some 1)
            end
          else ret (Some 1)) ;;
    match r with
    | None => ret None
    | Some ok =>
        dec_unacked ;;;
        emit (Ev_free_ee e) ;;;
        ret (Some ok)
    end.

(** The packets of a trace that carry a data block. *)
Definition is_send_block (ev : event) : bool :=
  match ev with Ev_send_block _ _ _ => true | _ => false end.

Definition sent_blocks (t : list event) : list event :=
  List.filter is_send_block t.

Definition is_send_ack (ev : event) : bool :=
  match ev with Ev_send_ack _ _ _ => true | _ => false end.

Definition sent_acks (t : list event) : list event :=
  List.filter is_send_ack t.

End Replies.

(** A device that resyncs with checksums (digest of two bytes) and an entry
    holding a checksum request of the peer for eight bytes at sector 8. *)
Definition mdev_csum_source : drbd_conf :=
  set_csums_tfm (Some 1) (with_conn SyncSource mdev_idle).

Definition block_data : list Z := [1; 2; 3; 4; 5; 6; 7; 8].

Definition ee_csum_req (peer_digest : list Z) : Tl_epoch_entry :=
  mk_ee 9 cb_w_e_end_csum_rs_req 8 4096
    (ID_DIGEST (mk_digest_info 2 peer_digest)) 0 block_data true false.

(** * The end of a resync or verify run ([drbd_resync_finished]) *)

(** The generation identifiers are kept by drbd_main.c.  The indices of the
    UUID array and the three setters are parameters: a setter is given by
    what it does to [bc->md.uuid]. *)
Class MetaData : Type := {
  Current : Z;
  Bitmap : Z;
  History_start : Z;
  History_end : Z;
  _drbd_uuid_set : Z -> Z -> list Z -> list Z;
  drbd_uuid_set : Z -> Z -> list Z -> list Z;
  drbd_uuid_set_bm : Z -> list Z -> list Z
}.

Definition array_get (l : list Z) (i : Z) : Z := nth (Z.to_nat i) l 0.
Definition array_set (i v : Z) (l : list Z) : list Z := <[Z.to_nat i := v]> l.

(** Setters that store the value, with the array laid out as in DRBD
    ([Current], [Bitmap], two history slots); setting the bitmap UUID to
    zero moves the old one into the history. *)
#[export] Instance plain_meta_data : MetaData := {|
  Current := 0;
  Bitmap := 1;
  History_start := 2;
  History_end := 3;
  _drbd_uuid_set := array_set;
  drbd_uuid_set := array_set;
  drbd_uuid_set_bm := fun val u =>
    if (array_get u 1 =? 0) && (val =? 0) then u
    else if val =? 0
         then array_set 1 0 (array_set 2 (array_get u 1) (array_set 3 (array_get u 2) u))
         else array_set 1 val u
|}.

Section Finish.
Context `{KernelConfig} `{MetaData}.

(** What the surroundings answer during one call: whether
    [drbd_rs_del_all] found the resync LRU still in use, whether the
    [kmalloc] of the retry work item succeeds, the clock, whether
    [inc_local] gets the local disk, and the weight of the bitmap. *)
Record finish_env : Type := mk_finish_env {
  rs_del_all_busy : bool;
  kmalloc_w_ok : bool;
  jiffies : Z;
  inc_local_ok : bool;
  bm_total_weight : Z
}.

Definition Bit2KB (bits : Z) : Z := Z.shiftl bits (BM_BLOCK_SIZE_B - 10).

Definition test_bit (nr : Z) (addr : Z) : bool := Z.testbit addr nr.

(** Modelled from the spec: [_drbd_set_state] is defined in drbd_main.c; the
    completion step "transitions connection_state back to Connected", that
    is, the new state is installed. *)
Definition _drbd_set_state (ns : drbd_state_t) : M unit :=
  modify (set_state ns) ;;; emit (Ev_set_state ns).

(** [for (i = lo; i <= hi; i++) _drbd_uuid_set(mdev, i, src[i]);] with [n]
    the number of turns left. *)
Fixpoint uuid_set_from (n : nat) (i : Z) (src u : list Z) : list Z :=
  match n with
  | O => u
  | S n' => uuid_set_from n' (i + 1) src (_drbd_uuid_set i (array_get src i) u)
  end.

(** [for (i = lo; i <= hi; i++) dst[i] = src[i];] *)
Fixpoint array_copy (n : nat) (i : Z) (src dst : list Z) : list Z :=
  match n with
  | O => dst
  | S n' => array_copy n' (i + 1) src (array_set i (array_get src i) dst)
  end.

Definition turns (lo hi : Z) : nat := Z.to_nat (hi - lo + 1).

(** The slots [lo], [lo + 1], ..., [hi] of the UUID array, in the order in
    which [for (i = lo; i <= hi; i++)] comes to them. *)
Definition uuid_slots (lo hi : Z) : list Z :=
  map (fun k => lo + Z.of_nat k) (seq 0 (turns lo hi)).

(** What a resync target does to its UUIDs after a clean run, call by
    call: [_drbd_uuid_set(mdev, i, p_uuid[i])] for the slots from [Bitmap]
    to [History_end], then [drbd_uuid_set(mdev, Bitmap, uuid[Current])],
    then [_drbd_uuid_set(mdev, Current, p_uuid[Current])]. *)
Definition adopt_peer_uuids (p u : list Z) : list Z :=
  let u1 :=
    fold_left (fun u i => _drbd_uuid_set i (array_get p i) u)
      (uuid_slots Bitmap History_end) u in
  let u2 := drbd_uuid_set Bitmap (array_get u1 Current) u1 in
  _drbd_uuid_set Current (array_get p Current) u2.

Definition is_verify (c : drbd_conns) : bool :=
  conn_eqb c VerifyS || conn_eqb c VerifyT.

Definition is_sync_target (c : drbd_conns) : bool :=
  conn_eqb c SyncTarget || conn_eqb c PausedSyncT.

(** The part of [drbd_resync_finished] under [req_lock], entered with the
    old state [os] above [Connected]; it yields the helper to call. *)
Definition finish_locked (env : finish_env) (os : drbd_state_t)
    (dt dbdt : Z) : M (option string) :=
  m <- get ;;
  let ns := set_conn Connected os in
  emit (Ev_INFO "done (total sec; paused sec; K/sec)"
          [Z.b2z (is_verify (conn os)); wrap_ulong (dt + rs_paused m);
           rs_paused m; dbdt]) ;;;
  let n_oos := bm_total_weight env in
  khelper_cmd <-
    (if is_verify (conn os) then
       if negb (n_oos =? 0) then
         emit (Ev_INFO "Online verify found blocks out of sync!" [n_oos]) ;;;
         ret (Some "out-of-sync"%string)
       else ret None
     else
       let cmd := if is_sync_target (conn os)
                  then Some "after-resync-target"%string else None in
       when (match csums_tfm m with Some _ => negb (rs_total m =? 0)
                                  | None => false end)
         (let s := rs_same_csum m in
          let t := rs_total m in
          let ratio := if t =? 0 then 0
                       else if t <? 100000 then wrap_ulong (s * 100) / t
                       else s / (t / 100) in
          emit (Ev_INFO "% had equal check sums"
                  [wrap_int ratio; Bit2KB (rs_same_csum m);
                   Bit2KB (wrap_ulong (rs_total m - rs_same_csum m));
                   Bit2KB (rs_total m)])) ;;;
       ret cmd) ;;
  ns <-
    (if negb (rs_failed m =? 0) then
       emit (Ev_INFO "failed blocks" [rs_failed m]) ;;;
       if is_sync_target (conn os)
       then ret (set_pdsk UpToDate (set_disk Inconsistent ns))
       else ret (set_pdsk Inconsistent (set_disk UpToDate ns))
     else
       let ns := set_pdsk UpToDate (set_disk UpToDate ns) in
       when (is_sync_target (conn os))
         (match p_uuid m with
          | Some p =>
              modify (fun m =>
                let u := uuid_set_from (turns Bitmap History_end) Bitmap p
                           (md_uuid m) in
                let u := drbd_uuid_set Bitmap (array_get u Current) u in
                set_md_uuid (_drbd_uuid_set Current (array_get p Current) u) m)
          | None => emit (Ev_ERR "mdev->p_uuid is NULL! BUG")
          end) ;;;
       modify (fun m => set_md_uuid (drbd_uuid_set_bm 0 (md_uuid m)) m) ;;;
       modify (fun m =>
         match p_uuid m with
         | Some p =>
             set_p_uuid
               (Some (array_copy (turns Current History_end) Current
                        (md_uuid m) p)) m
         | None => m
         end) ;;;
       ret ns) ;;
  _drbd_set_state ns ;;;
  ret khelper_cmd.

(** [drbd_resync_finished]. *)
Definition drbd_resync_finished (env : finish_env) : M Z :=
  deferred <-
    (if rs_del_all_busy env then
       emit Ev_kick_lo ;;;
       emit Ev_schedule_timeout ;;;
       if kmalloc_w_ok env then
         drbd_queue_work (Work_item cb_w_resync_finished) ;;; ret true
       else
         emit (Ev_ERR "Warn failed to drbd_rs_del_all() and to kmalloc(w).") ;;;
         ret false
     else ret false) ;;
  if deferred then ret 1
  else
    m <- get ;;
    let dt := wrap_ulong (jiffies env - rs_start m - rs_paused m) / HZ in
    let dt := if dt <=? 0 then 1 else dt in
    let db := rs_total m in
    let dbdt := Bit2KB (db / dt) in
    modify (fun m => set_rs_paused (rs_paused m / HZ) m) ;;;
    khelper_cmd <-
      (if inc_local_ok env then
         emit Ev_inc_local ;;;
         m <- get ;;
         let os := state m in
         cmd <- (if conn_leb (conn os) Connected then ret None
                 else finish_locked env os dt dbdt) ;;
         emit Ev_dec_local ;;;
         ret cmd
       else ret None) ;;
    modify (fun m => set_rs_total 0 (set_rs_failed 0 (set_rs_paused 0 m))) ;;;
    m <- get ;;
    when (test_bit WRITE_BM_AFTER_RESYNC (flags m))
      (modify (fun m => set_flags (Z.clearbit (flags m) WRITE_BM_AFTER_RESYNC) m) ;;;
       emit (Ev_INFO "Writing the whole bitmap, due to failed kmalloc" []) ;;;
       emit Ev_queue_bitmap_io) ;;;
    emit Ev_bm_recount_bits ;;;
    match khelper_cmd with
    | Some cmd => emit (Ev_khelper cmd)
    | None => ret tt
    end ;;;
    ret 1.

(** [w_resync_finished] and [w_ov_finished] free the work item and call
    [drbd_resync_finished] whether cancelled or not. *)
Definition w_resync_finished (env : finish_env) (cancel : bool) : M Z :=
  drbd_resync_finished env ;;; ret 1.

Definition is_set_state (ev : event) : bool :=
  match ev with Ev_set_state _ => true | _ => false end.

Definition is_khelper (ev : event) : bool :=
  match ev with Ev_khelper _ => true | _ => false end.

(** How many times a trace installs a new state. *)
Definition state_changes (t : list event) : nat :=
  length (List.filter is_set_state t).

(** The call returned early and queued itself for another try. *)
Definition finish_deferred (env : finish_env) : bool :=
  rs_del_all_busy env && kmalloc_w_ok env.

(** The idempotence of the completion step as the specification words it:
    of two calls in a row, the second finds the connection state at or below
    [Connected] and changes nothing. *)
Definition second_call_is_noop : Prop :=
  forall (env1 env2 : finish_env) (m : drbd_conf),
    let m1 := dev_of (drbd_resync_finished env1 m) in
    conn_leb (conn (state m1)) Connected = true /\
    dev_of (drbd_resync_finished env2 m1) = m1.

End Finish.

(** A resync target whose run is over: 40 blocks, none failed, the peer's
    UUIDs known. *)
Definition mdev_target_done : drbd_conf :=
  set_rs_total 40
    (set_p_uuid (Some [8; 6; 4; 2])
       (set_md_uuid [4; 0; 2; 0]
          (set_state (mk_state SyncTarget Inconsistent UpToDate false false false)
             mdev_idle))).

Definition env_quiet : finish_env := mk_finish_env false true 1000 true 0.
Definition env_no_disk : finish_env := mk_finish_env false true 1000 false 0.
Definition env_lru_busy : finish_env := mk_finish_env true true 1000 true 0.

(** * The resync and verify scan ([w_make_resync_request],
      [w_make_ov_request]) *)

Section Scan.
Context `{KernelConfig}.

(** What the surroundings answer during one tick.  The bitmap, the resync
    LRU and the peer link live in other files: [bm_find_next fo] is
    [drbd_bm_find_next(mdev, fo)] with [None] for [-1UL], [bm_test_bit] is
    the tri-state [drbd_bm_test_bit], [try_rs_begin_io sector] tells whether
    [drbd_try_rs_begin_io] refused the extent, and [send_request_ok sector]
    whether the request for that sector went out.  The last three fields
    are the answers [read_for_csum] gets for the read at a sector:
    [inc_local], [FAULT_ACTIVE], and the address of the entry
    [drbd_alloc_ee] returns, if any. *)
Record scan_env : Type := mk_scan_env {
  capacity : Z;
  max_segment_size : Z;
  scan_inc_local_ok : bool;
  bm_bits : Z;
  bm_find_next : Z -> option Z;
  bm_test_bit : Z -> Z;
  try_rs_begin_io : Z -> bool;
  send_request_ok : Z -> bool;
  csum_inc_local_ok : Z -> bool;
  csum_fault_active : Z -> bool;
  csum_alloc_ee : Z -> option Z
}.

Definition drbd_send_drequest (cmd : packet_cmd) (sector size : Z)
    (id : block_id_t) (ok : bool) : M Z :=
  emit (Ev_send_drequest cmd sector size id ok) ;;; ret (Z.b2z ok).

Definition drbd_send_ov_request (sector size : Z) (ok : bool) : M Z :=
  emit (Ev_send_ov_request sector size ok) ;;; ret (Z.b2z ok).

(** [read_for_csum]: start the local read whose digest will be sent.
    Returns 0 without a local disk, 2 when no entry could be had, 1 when
    the read is on its way. *)
Definition read_for_csum (env : scan_env) (sector size : Z) : M Z :=
  if negb (csum_inc_local_ok env sector) then ret 0
  else
    emit Ev_inc_local ;;;
    if csum_fault_active env sector then ret 2
    else
      match csum_alloc_ee env sector with
      | None => emit Ev_dec_local ;;; ret 2
      | Some addr =>
          let e := mk_ee addr cb_w_e_send_csum sector size ID_MAGIC_BEEF 0
                     [] false false in
          modify (fun m => set_read_ee (e :: read_ee m) m) ;;;
          modify (fun m =>
            set_read_cnt (wrap_uint (read_cnt m + Z.shiftr size 9)) m) ;;;
          emit (Ev_generic_make_request e) ;;;
          ret 1
      end.

(** [number = SLEEP_TIME*mdev->sync_conf.rate / ((BM_BLOCK_SIZE/1024)*HZ)]:
    the requests one tick may have in flight. *)
Definition tick_number (m : drbd_conf) : Z :=
  Z.quot (wrap_int (SLEEP_TIME * rate (sync_conf m)))
         (wrap_int (Z.quot BM_BLOCK_SIZE 1024 * HZ)).

(** [number -= atomic_read(&mdev->rs_pending_cnt)]: what is left of it. *)
Definition tick_budget (m : drbd_conf) : Z :=
  wrap_int (tick_number m - rs_pending_cnt m).

(** [if (sector + (size>>9) > capacity) size = (capacity-sector)<<9;] in
    [sector_t] arithmetic, the result stored in an [int]. *)
Definition clamp_size (capacity sector size : Z) : Z :=
  if wrap_ulong (sector + Z.shiftr size 9) >? capacity
  then wrap_int (wrap_ulong (Z.shiftl (wrap_ulong (capacity - sector)) 9))
  else size.

(** The [for (;;)] that merges adjacent dirty bits into one request; it
    yields the last bit, the size and the loop counter [i] of the caller.
    Each turn adds a block to [size], so the loop ends when [size] reaches
    [max_segment_size]; [None] stands for a loop that has not ended within
    the fuel. *)
Fixpoint merge_adjacent (fuel : nat) (env : scan_env) (sector : Z)
    (bit size align i : Z) : option (Z * Z * Z) :=
  match fuel with
  | O => None
  | S fuel' =>
      if size + BM_BLOCK_SIZE >? max_segment_size env then Some (bit, size, i)
      else if negb (Z.land sector (Z.shiftl 1 (align + 3) - 1) =? 0)
      then Some (bit, size, i)
      else if Z.land (bit + 1) BM_BLOCKS_PER_BM_EXT_MASK =? 0
      then Some (bit, size, i)
      else if negb (bm_test_bit env (bit + 1) =? 1) then Some (bit, size, i)
      else
        let bit := bit + 1 in
        let size := size + BM_BLOCK_SIZE in
        let align :=
          if Z.shiftl BM_BLOCK_SIZE align <=? size then align + 1 else align in
        merge_adjacent fuel' env sector bit size align (i + 1)
  end.

(** Turns that are enough for [merge_adjacent]. *)
Definition merge_fuel (env : scan_env) : nat :=
  S (Z.to_nat (max_segment_size env)).

(** The merge as compiled in: [#if DRBD_MAX_SEGMENT_SIZE > BM_BLOCK_SIZE]. *)
Definition merged (env : scan_env) (sector bit i : Z) : option (Z * Z * Z) :=
  if DRBD_MAX_SEGMENT_SIZE >? BM_BLOCK_SIZE
  then merge_adjacent (merge_fuel env) env sector bit BM_BLOCK_SIZE 1 i
  else Some (bit, BM_BLOCK_SIZE, i).

(** How a tick leaves its loop: by a [return], by [goto requeue], or by
    running the loop to its end. *)
Inductive loop_exit : Type :=
  | Exit_return (r : Z)
  | Exit_requeue
  | Exit_done.

(** What one pass through the loop body leads to: out of the loop, or on to
    the loop test with the counter at [i]; [Turn_stuck] when the merge has
    not ended within its fuel. *)
Inductive turn : Type :=
  | Turn_exit (x : loop_exit)
  | Turn_next (i : Z)
  | Turn_stuck.

Definition set_inactive : M unit :=
  modify (set_resync_work_cb cb_w_resync_inactive).

(** The body of the [for (i = 0; i < number; i++)] loop of
    [w_make_resync_request], entered at [next_sector:] with the counter at
    [i].  [goto next_sector] re-enters the body with the same [i]; the loop
    test, which held for that [i], holds again. *)
Definition resync_turn (env : scan_env) (i : Z) : M turn :=
  m <- get ;;
  match bm_find_next env (bm_resync_fo m) with
  | None =>
      modify (set_bm_resync_fo (bm_bits env)) ;;;
      set_inactive ;;;
      emit Ev_dec_local ;;;
      ret (Turn_exit (Exit_return 1))
  | Some bit =>
      let sector := BM_BIT_TO_SECT bit in
      if try_rs_begin_io env sector then
        modify (set_bm_resync_fo bit) ;;; ret (Turn_exit Exit_requeue)
      else
        modify (set_bm_resync_fo (bit + 1)) ;;;
        if bm_test_bit env bit =? 0 then
          emit (Ev_rs_complete_io sector) ;;;
          ret (Turn_next i)
        else
          match merged env sector bit i with
          | None => ret Turn_stuck
          | Some (bit, size, i) =>
              when (size >? BM_BLOCK_SIZE)
                (modify (set_bm_resync_fo (bit + 1))) ;;;
              let size := clamp_size (capacity env) sector size in
              m <- get ;;
              if (89 <=? agreed_pro_version m)
                 && (match csums_tfm m with Some _ => true | None => false end)
              then
                r <- read_for_csum env sector size ;;
                if r =? 0 then
                  emit Ev_dec_local ;;; ret (Turn_exit (Exit_return 0))
                else if r =? 2 then
                  emit (Ev_rs_complete_io sector) ;;;
                  modify (set_bm_resync_fo (BM_SECT_TO_BIT sector)) ;;;
                  ret (Turn_exit Exit_requeue)
                else ret (Turn_next (i + 1))
              else
                inc_rs_pending ;;;
                ok <- drbd_send_drequest RSDataRequest sector size
                        ID_SYNCER (send_request_ok env sector) ;;
                if ok =? 0 then
                  emit (Ev_ERR "drbd_send_drequest() failed, aborting...") ;;;
                  dec_rs_pending ;;;
                  emit Ev_dec_local ;;;
                  ret (Turn_exit (Exit_return 0))
                else ret (Turn_next (i + 1))
          end
  end.

(** The loop, from the loop test on; [None] when it has not ended within
    the fuel. *)
Fixpoint resync_loop (fuel : nat) (env : scan_env) (number i : Z)
  : M (option loop_exit) :=
  match fuel with
  | O => ret None
  | S fuel' =>
      if negb (i <? number) then ret (Some Exit_done)
      else
        r <- resync_turn env i ;;
        match r with
        | Turn_exit x => ret (Some x)
        | Turn_next i' => resync_loop fuel' env number i'
        | Turn_stuck => ret None
        end
  end.

(** [requeue:] of [w_make_resync_request]. *)
Definition resync_requeue : M (option Z) :=
  emit Ev_mod_timer ;;; emit Ev_dec_local ;;; ret (Some 1).

(** [w_make_resync_request]; [None] when the loop has not ended within the
    fuel. *)
Definition w_make_resync_request (fuel : nat) (env : scan_env) (cancel : bool)
  : M (option Z) :=
  if cancel then ret (Some 1)
  else
    m <- get ;;
    if conn_ltb (conn (state m)) Connected then
      emit (Ev_ERR "Confused in w_make_resync_request()! cstate < Connected") ;;;
      ret (Some 0)
    else
      when (negb (conn_eqb (conn (state m)) SyncTarget))
        (emit (Ev_ERR "in w_make_resync_request")) ;;;
      if negb (scan_inc_local_ok env) then
        emit (Ev_ERR "Disk broke down during resync!") ;;;
        set_inactive ;;;
        ret (Some 1)
      else
        emit Ev_inc_local ;;;
        let number := tick_number m in
        if rs_pending_cnt m >? number then resync_requeue
        else
          let number := tick_budget m in
          x <- resync_loop fuel env number 0 ;;
          match x with
          | None => ret None
          | Some (Exit_return r) => ret (Some r)
          | Some Exit_requeue => resync_requeue
          | Some Exit_done =>
              m <- get ;;
              if bm_bits env <=? bm_resync_fo m then
                set_inactive ;;; emit Ev_dec_local ;;; ret (Some 1)
              else resync_requeue
          end.

(** Fuel that is enough for the loop of [w_make_resync_request]: every turn
    either uses up one unit of the budget or moves the cursor forward. *)
Definition resync_fuel (env : scan_env) (m : drbd_conf) : nat :=
  S (Z.to_nat (tick_budget m) + Z.to_nat (bm_bits env - bm_resync_fo m)).

(** The body of the [for (i = 0; i < number; i++)] loop of
    [w_make_ov_request] at [sector]; with the outcome it yields the sector
    reached. *)
Definition ov_turn (env : scan_env) (sector : Z) : M (option loop_exit * Z) :=
  if try_rs_begin_io env sector then
    modify (set_ov_position sector) ;;; ret (Some Exit_requeue, sector)
  else
    let size := clamp_size (capacity env) sector BM_BLOCK_SIZE in
    inc_rs_pending ;;;
    ok <- drbd_send_ov_request sector size (send_request_ok env sector) ;;
    if ok =? 0 then
      dec_rs_pending ;;; ret (Some (Exit_return 0), sector)
    else
      let sector := wrap_ulong (sector + BM_SECT_PER_BIT) in
      if capacity env <=? sector then
        set_inactive ;;; ret (Some (Exit_return 1), sector)
      else ret (None, sector).

(** The loop with [n] turns to go. *)
Fixpoint ov_loop (n : nat) (env : scan_env) (sector : Z) : M (loop_exit * Z) :=
  match n with
  | O => ret (Exit_done, sector)
  | S n' =>
      r <- ov_turn env sector ;;
      match r with
      | (Some x, sector) => ret (x, sector)
      | (None, sector) => ov_loop n' env sector
      end
  end.

(** [w_make_ov_request]. *)
Definition w_make_ov_request (env : scan_env) (cancel : bool) : M Z :=
  if cancel then ret 1
  else
    m <- get ;;
    if conn_ltb (conn (state m)) Connected then
      emit (Ev_ERR "Confused in w_make_ov_request()! cstate < Connected") ;;;
      ret 0
    else
      let number := tick_number m in
      if rs_pending_cnt m >? number then emit Ev_mod_timer ;;; ret 1
      else
        let number := tick_budget m in
        x <- ov_loop (Z.to_nat number) env (ov_position m) ;;
        match x with
        | (Exit_return r, _) => ret r
        | (Exit_requeue, _) => emit Ev_mod_timer ;;; ret 1
        | (Exit_done, sector) =>
            modify (set_ov_position sector) ;;;
            emit Ev_mod_timer ;;;
            ret 1
        end.

(** ** Reading a trace *)

(** The requests a trace issues, as (start sector, size in bytes): resync
    requests and verify requests put on the link, and local reads started
    for a checksum request. *)
Definition request_of (ev : event) : option (Z * Z) :=
  match ev with
  | Ev_send_drequest _ sector size _ _ => Some (sector, size)
  | Ev_send_ov_request sector size _ => Some (sector, size)
  | Ev_generic_make_request e => Some (e_sector e, e_size e)
  | _ => None
  end.

Fixpoint requests (t : list event) : list (Z * Z) :=
  match t with
  | [] => []
  | ev :: t' =>
      match request_of ev with
      | Some r => r :: requests t'
      | None => requests t'
      end
  end.

(** Requests and replies that count as pending once sent, with the
    answer of the link. *)
Definition pending_send (ev : event) : option bool :=
  match ev with
  | Ev_send_drequest RSDataRequest _ _ _ ok => Some ok
  | Ev_send_ov_request _ _ ok => Some ok
  | Ev_send_drequest_csum _ _ _ _ ok => Some ok
  | Ev_send_block RSDataReply _ ok => Some ok
  | _ => None
  end.

Definition count (p : event -> bool) (t : list event) : Z :=
  Z.of_nat (length (List.filter p t)).

Definition sends_ok (t : list event) : Z :=
  count (fun ev => match pending_send ev with Some true => true | _ => false end) t.

Definition sends_failed (t : list event) : Z :=
  count (fun ev => match pending_send ev with Some false => true | _ => false end) t.

Definition incs (t : list event) : Z :=
  count (fun ev => match ev with Ev_inc_rs_pending => true | _ => false end) t.

Definition decs (t : list event) : Z :=
  count (fun ev => match ev with Ev_dec_rs_pending => true | _ => false end) t.

Definition mod_timers (t : list event) : Z :=
  count (fun ev => match ev with Ev_mod_timer => true | _ => false end) t.

(** The counter of pending resync acknowledgments kept in step with the
    link: over the run [out] started from [m] it has grown by the number of
    requests and replies that went out; it was raised once for each one
    tried and lowered once for each one that failed. *)
Definition pending_balanced {A} (m : drbd_conf)
    (out : A * drbd_conf * list event) : Prop :=
  let t := trace_of out in
  rs_pending_cnt (dev_of out) = rs_pending_cnt m + sends_ok t /\
  incs t = sends_ok t + sends_failed t /\
  decs t = sends_failed t.

(** The counter raised once for each request or reply tried and never
    lowered, whether it went out or not. *)
Definition pending_uncompensated {A} (m : drbd_conf)
    (out : A * drbd_conf * list event) : Prop :=
  let t := trace_of out in
  rs_pending_cnt (dev_of out) = rs_pending_cnt m + incs t /\
  incs t = sends_ok t + sends_failed t /\
  decs t = 0.

(** The counter raised once for each request that has gone out, after the
    fact, and never lowered. *)
Definition pending_after_send {A} (m : drbd_conf)
    (out : A * drbd_conf * list event) : Prop :=
  let t := trace_of out in
  rs_pending_cnt (dev_of out) = rs_pending_cnt m + sends_ok t /\
  incs t = sends_ok t /\
  decs t = 0.



(** [drbd_bm_find_next] answers with a bit at or after the one asked for
    and inside the bitmap. *)
Definition find_next_sound (env : scan_env) : Prop :=
  forall fo bit,
    bm_find_next env fo = Some bit -> fo <= bit /\ 0 <= bit < bm_bits env.


End Scan.

(** A bitmap given as the list of its bits, for concrete runs. *)
Fixpoint find_from (l : list bool) (pos : Z) : option Z :=
  match l with
  | [] => None
  | b :: l' => if b then Some pos else find_from l' (pos + 1)
  end.

Definition list_find_next (bits : list bool) (fo : Z) : option Z :=
  if fo <? 0 then None else find_from (skipn (Z.to_nat fo) bits) fo.

Definition list_test_bit (bits : list bool) (bit : Z) : Z :=
  if (bit <? 0) || (Z.of_nat (length bits) <=? bit) then -1
  else Z.b2z (nth (Z.to_nat bit) bits false).

(** A device of 75 sectors (nine full 4 KiB blocks and one of three
    sectors) with the bits 2, 3 and 9 out of sync; the link works except
    for requests at the sectors listed in [bad]. *)
Definition env_small (bad : list Z) : scan_env :=
  let bits := [false; false; true; true; false; false; false; false; false; true] in
  {| capacity := 75;
     max_segment_size := 4096;
     scan_inc_local_ok := true;
     bm_bits := 10;
     bm_find_next := list_find_next bits;
     bm_test_bit := list_test_bit bits;
     try_rs_begin_io := fun _ => false;
     send_request_ok := fun s => negb (existsb (Z.eqb s) bad);
     csum_inc_local_ok := fun _ => true;
     csum_fault_active := fun _ => false;
     csum_alloc_ee := fun s => Some (1000 + s) |}.

Definition mdev_sync_target : drbd_conf :=
  set_resync_work_cb cb_w_make_resync_request
    (set_state (mk_state SyncTarget Inconsistent UpToDate false false false)
       mdev_idle).

(** The same with all 25 requests of a tick in flight and the cursor at the
    end of the bitmap. *)
Definition mdev_sync_target_waiting : drbd_conf :=
  set_rs_pending_cnt 25 (set_bm_resync_fo 10 mdev_sync_target).

(** A resync target that uses checksums, the entry of a finished local
    read for a checksum request, and a link that is down. *)
Definition mdev_csum_target : drbd_conf :=
  set_csums_tfm (Some 1) (set_agreed_pro_version 89 mdev_sync_target).

Definition ee_csum_read : Tl_epoch_entry :=
  mk_ee 1016 cb_w_e_send_csum 16 4096 ID_MAGIC_BEEF 0 block_data true false.

Definition env_link_down : reply_env := mk_reply_env true false true.

Definition mdev_verify : drbd_conf :=
  set_ov_position 64 (with_conn VerifyS mdev_idle).


(** * Resync order between devices ([_drbd_may_sync_now],
      [_drbd_pause_after], [_drbd_resume_next], [drbd_alter_sa]) *)

Section SyncAfter.

(** [minor_table]: the devices by minor number, [None] for a minor that is
    not in use; [minor_count] is the length of the table. *)
Definition dev_at (devs : list (option drbd_conf)) (i : nat)
  : option drbd_conf :=
  match devs !! i with
  | Some (Some mdev) => Some mdev
  | _ => None
  end.

(** [minor_to_mdev] (drbd_int.h): the device of a minor, NULL when the
    minor is out of range or not in use. *)
Definition minor_to_mdev (devs : list (option drbd_conf)) (minor : Z)
  : option drbd_conf :=
  if (0 <=? minor) && (minor <? Z.of_nat (length devs))
  then dev_at devs (Z.to_nat minor)
  else None.

(** [conn >= SyncSource && conn <= PausedSyncT]. *)
Definition in_sync_range (c : drbd_conns) : bool :=
  (conn_val SyncSource <=? conn_val c) && (conn_val c <=? conn_val PausedSyncT).

(** The test [_drbd_may_sync_now] makes on each device it comes to: a
    device that resyncs, or is paused for any reason, holds back those that
    resync after it. *)
Definition holds_back (odev : drbd_conf) : bool :=
  in_sync_range (conn (state odev))
  || aftr_isp (state odev) || peer_isp (state odev) || user_isp (state odev).

(** [_drbd_may_sync_now]: follow [sync_conf.after] from device to device.
    The [while (1)] ends at a device without prerequisite, at a minor that
    is not in use, or at a device that holds back; [None] stands for a walk
    that has not ended within the fuel. *)
Fixpoint _drbd_may_sync_now (fuel : nat) (devs : list (option drbd_conf))
    (odev : drbd_conf) : option bool :=
  match fuel with
  | O => None
  | S fuel' =>
      if after (sync_conf odev) =? -1 then Some true
      else
        match minor_to_mdev devs (after (sync_conf odev)) with
        | None => Some true
        | Some odev' =>
            if holds_back odev' then Some false
            else _drbd_may_sync_now fuel' devs odev'
        end
  end.

Definition with_aftr_isp (v : bool) (odev : drbd_conf) : drbd_conf :=
  set_state (set_aftr_isp v (state odev)) odev.

(** Modelled from the spec: [__drbd_set_state] is defined in drbd_main.c.
    Called with [_NS(odev, aftr_isp, v)] and [ChgStateHard] it sets the
    dependency pause flag of the device; the answer differs from
    [SS_NothingToDo] exactly when the flag changes ("until no device's pause
    flag changes in a full pass"). *)
Definition __drbd_set_state_aftr_isp (v : bool) (odev : drbd_conf)
  : drbd_conf * bool :=
  (with_aftr_isp v odev, negb (eqb (aftr_isp (state odev)) v)).

(** [odev->state.conn == StandAlone && odev->state.disk == Diskless]: a
    device that is not configured is passed over. *)
Definition unconfigured (odev : drbd_conf) : bool :=
  conn_eqb (conn (state odev)) StandAlone && disk_eqb (disk (state odev)) Diskless.

(** The body of the [for] loop of [_drbd_pause_after] at minor [i]; the
    state is the table and [rv]. *)
Definition pause_visit (fuel : nat) (i : nat)
    (st : list (option drbd_conf) * bool)
  : option (list (option drbd_conf) * bool) :=
  let '(devs, rv) := st in
  match minor_to_mdev devs (Z.of_nat i) with
  | None => Some st
  | Some odev =>
      if unconfigured odev then Some st
      else
        match _drbd_may_sync_now fuel devs odev with
        | None => None
        | Some true => Some st
        | Some false =>
            let '(odev', changed) := __drbd_set_state_aftr_isp true odev in
            Some (<[i := Some odev']> devs, rv || changed)
        end
  end.

(** The body of the [for] loop of [_drbd_resume_next] at minor [i]. *)
Definition resume_visit (fuel : nat) (i : nat)
    (st : list (option drbd_conf) * bool)
  : option (list (option drbd_conf) * bool) :=
  let '(devs, rv) := st in
  match minor_to_mdev devs (Z.of_nat i) with
  | None => Some st
  | Some odev =>
      if unconfigured odev then Some st
      else if aftr_isp (state odev) then
        match _drbd_may_sync_now fuel devs odev with
        | None => None
        | Some false => Some st
        | Some true =>
            let '(odev', changed) := __drbd_set_state_aftr_isp false odev in
            Some (<[i := Some odev']> devs, rv || changed)
        end
      else Some st
  end.

(** [for (i = 0; i < minor_count; i++)] over the minors listed. *)
Fixpoint for_minors {S : Type} (visit : nat -> S -> option S)
    (minors : list nat) (st : S) : option S :=
  match minors with
  | [] => Some st
  | i :: rest =>
      match visit i st with
      | Some st' => for_minors visit rest st'
      | None => None
      end
  end.

Definition _drbd_pause_after (fuel : nat) (devs : list (option drbd_conf))
  : option (list (option drbd_conf) * bool) :=
  for_minors (pause_visit fuel) (seq 0 (length devs)) (devs, false).

Definition _drbd_resume_next (fuel : nat) (devs : list (option drbd_conf))
  : option (list (option drbd_conf) * bool) :=
  for_minors (resume_visit fuel) (seq 0 (length devs)) (devs, false).

(** The [do { ... } while (changes)] of [drbd_alter_sa], with [turns] the
    number of turns allowed; [None] when a walk or the loop has not ended. *)
Fixpoint alter_sa_loop (turns fuel : nat) (devs : list (option drbd_conf))
  : option (list (option drbd_conf)) :=
  match turns with
  | O => None
  | S turns' =>
      match _drbd_pause_after fuel devs with
      | None => None
      | Some (devs1, changes1) =>
          match _drbd_resume_next fuel devs1 with
          | None => None
          | Some (devs2, changes2) =>
              if changes1 || changes2
              then alter_sa_loop turns' fuel devs2
              else Some devs2
          end
      end
  end.

Definition set_after (na : Z) (mdev : drbd_conf) : drbd_conf :=
  set_sync_conf (mk_syncer_conf (rate (sync_conf mdev)) na) mdev.

(** [drbd_alter_sa(mdev, na)] for the device of minor [minor]. *)
Definition drbd_alter_sa (turns fuel : nat) (devs : list (option drbd_conf))
    (minor : nat) (na : Z) : option (list (option drbd_conf)) :=
  alter_sa_loop turns fuel (alter (fmap (set_after na)) minor devs).

(** ** Chains of prerequisites *)

(** The device [odev] resyncs after, if it names one that is in use. *)
Definition prerequisite (devs : list (option drbd_conf)) (odev : drbd_conf)
  : option drbd_conf :=
  if after (sync_conf odev) =? -1 then None
  else minor_to_mdev devs (after (sync_conf odev)).

(** [p] is on the chain of [odev]: its prerequisite, the prerequisite of
    that one, and so on. *)
Inductive on_chain (devs : list (option drbd_conf))
  : drbd_conf -> drbd_conf -> Prop :=
  | chain_first odev p :
      prerequisite devs odev = Some p -> on_chain devs odev p
  | chain_next odev p q :
      prerequisite devs odev = Some p -> on_chain devs p q ->
      on_chain devs odev q.

(** The chain of [odev] ends within [n] steps. *)
Fixpoint chain_ends (n : nat) (devs : list (option drbd_conf))
    (odev : drbd_conf) : bool :=
  match n with
  | O => false
  | S n' =>
      match prerequisite devs odev with
      | None => true
      | Some p => chain_ends n' devs p
      end
  end.

(** No cycle of prerequisites: every chain ends, that is, within as many
    steps as there are minors. *)
Definition acyclic (devs : list (option drbd_conf)) : bool :=
  forallb (fun o => match o with
                    | Some odev => chain_ends (length devs) devs odev
                    | None => true
                    end) devs.

(** The eligibility rule as the specification words it: only the
    prerequisite itself is looked at. *)
Definition may_sync_now_as_specified (devs : list (option drbd_conf))
    (odev : drbd_conf) : bool :=
  match prerequisite devs odev with
  | None => true
  | Some p => negb (holds_back p)
  end.

(** The dependency pause flag of a device agrees with its eligibility: it
    is set exactly when the device may not sync now. *)
Definition flag_agrees (fuel : nat) (devs : list (option drbd_conf))
    (odev : drbd_conf) : Prop :=
  _drbd_may_sync_now fuel devs odev = Some (negb (aftr_isp (state odev))).

(** The outcome of the recomputation as the specification words it: the
    flag of every device agrees. *)
Definition all_flags_agree (fuel : nat) (devs : list (option drbd_conf))
  : Prop :=
  forall i odev, dev_at devs i = Some odev -> flag_agrees fuel devs odev.

End SyncAfter.

(** Three devices in a row: minor 0 resyncs after minor 1, minor 1 after
    minor 2, and minor 2 is a resync source at work. *)
Definition dev_after (na : Z) (c : drbd_conns) : drbd_conf :=
  set_after na (with_conn c mdev_idle).

Definition devs_chain : list (option drbd_conf) :=
  [Some (dev_after 1 Connected); Some (dev_after 2 Connected);
   Some (dev_after (-1) SyncSource)].

(** A resync source at minor 0 and a minor 1 that is not configured. *)
Definition dev_unconfigured : drbd_conf :=
  set_state (mk_state StandAlone Diskless DUnknown false false false) mdev_idle.

Definition devs_unconfigured : list (option drbd_conf) :=
  [Some (dev_after (-1) SyncSource); Some dev_unconfigured].

(** Minor 0 a resync target at work, minor 1 waiting after it with a stale
    pause flag on minor 2, which resyncs after nothing. *)
Definition devs_stale : list (option drbd_conf) :=
  [Some (dev_after (-1) SyncTarget);
   Some (dev_after 0 Connected);
   Some (with_aftr_isp true (dev_after (-1) Connected));
   None;
   Some (dev_after 2 Connected)].

(** ** Notions used in the proof that the recomputation ends *)

Section SyncAfterNotions.

(** A device with its dependency pause flag masked: what the recomputation
    never changes. *)
Definition frame (odev : drbd_conf) : drbd_conf := with_aftr_isp false odev.

(** Two tables that differ at most in dependency pause flags. *)
Definition frame_opt (o : option drbd_conf) : option drbd_conf :=
  match o with
  | Some odev => Some (frame odev)
  | None => None
  end.

Definition same_frame (devs devs' : list (option drbd_conf)) : Prop :=
  frame_opt <$> devs = frame_opt <$> devs'.

(** Two such tables that agree on every device whose chain ends within [n]
    steps. *)
Definition low_eq (n : nat) (devs devs' : list (option drbd_conf)) : Prop :=
  same_frame devs devs' /\
  forall i odev, dev_at devs i = Some odev -> chain_ends n devs odev = true ->
    dev_at devs' i = Some odev.

(** The flags of the configured devices whose chain ends within [n] steps
    agree with their eligibility. *)
Definition stable (fuel n : nat) (devs : list (option drbd_conf)) : Prop :=
  forall i odev, dev_at devs i = Some odev -> unconfigured odev = false ->
    chain_ends n devs odev = true -> flag_agrees fuel devs odev.

(** The configured device at minor [i], when its chain ends within [n]
    steps and it may not sync now, is paused. *)
Definition paused_if_held (fuel n : nat) (devs : list (option drbd_conf))
    (i : nat) : Prop :=
  forall odev, dev_at devs i = Some odev -> unconfigured odev = false ->
    chain_ends n devs odev = true ->
    _drbd_may_sync_now fuel devs odev = Some false ->
    aftr_isp (state odev) = true.

(** The flag of the configured device at minor [i] agrees, when its chain
    ends within [n] steps. *)
Definition settled (fuel n : nat) (devs : list (option drbd_conf)) (i : nat)
  : Prop :=
  forall odev, dev_at devs i = Some odev -> unconfigured odev = false ->
    chain_ends n devs odev = true -> flag_agrees fuel devs odev.

(** What both visits have in common: a visit that returns either leaves
    the table alone, or it finds a configured device at its minor whose flag
    disagrees with its eligibility, makes the flag agree and reports a
    change. *)
Definition tame (fuel : nat)
    (visit : nat -> list (option drbd_conf) * bool ->
             option (list (option drbd_conf) * bool)) : Prop :=
  forall i devs rv devs' rv',
    visit i (devs, rv) = Some (devs', rv') ->
    (devs' = devs /\ rv' = rv) \/
    (exists x b, dev_at devs i = Some x /\ unconfigured x = false /\
       _drbd_may_sync_now fuel devs x = Some b /\
       aftr_isp (state x) = b /\
       devs' = <[i := Some (with_aftr_isp (negb b) x)]> devs /\ rv' = true).

End SyncAfterNotions.

(** * The rest of the worker *)

Section MoreCompletion.
Context `{KernelConfig}.

(** Modelled from the spec: [drbd_chk_io_error] is defined in drbd_int.h.
    A local I/O failure "triggers a local error-handling policy": the
    policy is called on when [error] is set, and not for a read that went
    well. *)
Definition drbd_chk_io_error (error : Z) : M unit :=
  when (negb (error =? 0)) (emit Ev_chk_io_error).

(** [drbd_endio_read_sec(bio, error)], with [e = bio->bi_private]: a read
    made for the peer has come back. *)
Definition drbd_endio_read_sec (e : Tl_epoch_entry) (error : Z) : M unit :=
  let uptodate := bio_uptodate e in
  let error := if (error =? 0) && negb uptodate then - EIO else error in
  modify (fun m =>
    set_read_cnt (wrap_uint (read_cnt m + Z.shiftr (e_size e) 9)) m) ;;;
  modify (list_del e) ;;;
  m <- get ;;
  when (list_empty (read_ee m)) (emit Ev_wake_up_ee_wait) ;;;
  drbd_chk_io_error error ;;;
  drbd_queue_work (Work_ee e) ;;;
  emit Ev_dec_local.

(** Modelled from the spec: [enum drbd_req_event] is declared in
    drbd_req.h.  These are the lifecycle events the worker feeds into the
    event log of a request, under the names the worker uses. *)
Inductive drbd_req_event : Type :=
  | completed_ok
  | write_completed_with_error
  | read_completed_with_error
  | send_canceled
  | send_failed
  | handed_over_to_network.

(** [drbd_endio_pri(bio, error)]: what it hands to [_req_mod] (the event
    and the error) for a bio of the given direction. *)
Definition drbd_endio_pri (is_write uptodate : bool) (error : Z)
  : drbd_req_event * Z :=
  let error := if (error =? 0) && negb uptodate then - EIO else error in
  let what :=
    if negb (error =? 0) then
      if is_write then write_completed_with_error
      else read_completed_with_error
    else completed_ok in
  (what, error).

(** [w_e_end_data_req]: answer a [DataRequest] with the block. *)
Definition w_e_end_data_req (env : reply_env) (e : Tl_epoch_entry)
    (cancel : bool) : M Z :=
  if cancel then cancelled e
  else
    ok <- (if bio_uptodate e then drbd_send_block DataReply e (send_ok env)
           else
             ok <- drbd_send_ack NegDReply e (send_ok env) ;;
             emit Ev_io_error ;;;
             ret ok) ;;
    dec_unacked ;;;
    keep_or_free e ;;;
    when (ok =? 0) (emit (Ev_ERR "drbd_send_block() failed")) ;;;
    ret ok.

(** [struct drbd_request], as far as the worker reads it: the address of
    the request (it travels as the block id of the read request) and the
    range it covers. *)
Record drbd_request : Type := mk_request {
  req_addr : Z;
  req_sector : Z;
  req_size : Z
}.

(** [w_send_read_req]: ask the peer for the data of a read.  With the value
    returned comes the event handed to [req_mod]. *)
Definition w_send_read_req (link_ok : bool) (req : drbd_request)
    (cancel : bool) : M (Z * drbd_req_event) :=
  if cancel then ret (1, send_canceled)
  else
    ok <- drbd_send_drequest DataRequest (req_sector req) (req_size req)
            (ID_PEER (req_addr req)) link_ok ;;
    when (ok =? 0)
      (m <- get ;;
       when (negb (conn_ltb (conn (state m)) Connected))
         (drbd_force_state NetworkFailure)) ;;;
    ret (ok, if negb (ok =? 0) then handed_over_to_network else send_failed).

(** [w_read_retry_remote]: a local read has failed; fetch the data from the
    peer if there is one that has it.  The alert is logged as an error
    line. *)
Definition w_read_retry_remote (link_ok : bool) (req : drbd_request)
    (cancel : bool) : M (Z * drbd_req_event) :=
  emit Ev_io_error ;;;
  m <- get ;;
  if cancel
     || conn_ltb (conn (state m)) Connected
     || disk_leb (pdsk (state m)) Inconsistent
  then
    emit (Ev_ERR "WE ARE LOST. Local IO failure, no peer.") ;;;
    ret (1, send_canceled)
  else w_send_read_req link_ok req false.

Definition is_resync_work (w : drbd_work) : bool :=
  match w with Work_resync => true | _ => false end.

(** [resync_timer_fn]: the resync timer has fired.  [resync_work] is on a
    list exactly when it sits on the queue of the worker. *)
Definition resync_timer_fn : M unit :=
  m <- get ;;
  queue <-
    (if negb (test_bit STOP_SYNC_TIMER (flags m)) then
       modify (set_resync_work_cb
                 (if conn_eqb (conn (state m)) VerifyS
                  then cb_w_make_ov_request
                  else cb_w_make_resync_request)) ;;;
       ret true
     else
       modify (fun m => set_flags (Z.clearbit (flags m) STOP_SYNC_TIMER) m) ;;;
       set_inactive ;;;
       ret false) ;;
  m <- get ;;
  if negb (existsb is_resync_work (work_q m)) && queue
  then drbd_queue_work Work_resync
  else ret tt.

(** How often [resync_work] sits on the queue of the worker. *)
Definition queued_ticks (m : drbd_conf) : nat :=
  length (List.filter is_resync_work (work_q m)).

(** [drbd_ov_oos_found]: online verify has found a block out of sync.  The
    two fields [ov_last_oos_start] and [ov_last_oos_size] (in sectors) are
    passed in and out; with them comes the range handed to
    [drbd_set_out_of_sync]. *)
Record ov_oos : Type := mk_ov_oos {
  ov_last_oos_start : Z;
  ov_last_oos_size : Z
}.

Definition drbd_ov_oos_found (last : ov_oos) (sector size : Z)
  : M (ov_oos * (Z * Z)) :=
  let last' :=
    if wrap_ulong (ov_last_oos_start last + ov_last_oos_size last) =? sector
    then mk_ov_oos (ov_last_oos_start last)
           (wrap_ulong (ov_last_oos_size last + Z.shiftr size 9))
    else mk_ov_oos sector (wrap_ulong (Z.shiftr size 9)) in
  modify (fun m => set_flags (Z.setbit (flags m) WRITE_BM_AFTER_RESYNC) m) ;;;
  ret (last', (sector, size)).

(** Reports of a run of blocks, one after the other. *)
Fixpoint ov_oos_found_all (last : ov_oos) (blocks : list (Z * Z))
  : M ov_oos :=
  match blocks with
  | [] => ret last
  | (sector, size) :: rest =>
      r <- drbd_ov_oos_found last sector size ;;
      ov_oos_found_all (fst r) rest
  end.

(** Blocks that follow each other without a gap, the first at [sector]. *)
Fixpoint contiguous (sector : Z) (blocks : list (Z * Z)) : Prop :=
  match blocks with
  | [] => True
  | (s, size) :: rest =>
      s = sector /\ 0 <= size /\ contiguous (s + Z.shiftr size 9) rest
  end.

(** The sectors a list of blocks covers. *)
Fixpoint sectors_of (blocks : list (Z * Z)) : Z :=
  match blocks with
  | [] => 0
  | (_, size) :: rest => Z.shiftr size 9 + sectors_of rest
  end.

(** ** Reading a trace, continued *)

Definition call_of (ev : event) : option (drbd_work * bool) :=
  match ev with
  | Ev_call_cb w cancel => Some (w, cancel)
  | _ => None
  end.

(** The callbacks a trace calls, with the cancel flag of each call. *)
Fixpoint calls (t : list event) : list (drbd_work * bool) :=
  match t with
  | [] => []
  | ev :: t' =>
      match call_of ev with
      | Some c => c :: calls t'
      | None => calls t'
      end
  end.

(** The answers of the link to the requests a trace sends, in order. *)
Fixpoint send_results (t : list event) : list bool :=
  match t with
  | [] => []
  | ev :: t' =>
      match pending_send ev with
      | Some ok => ok :: send_results t'
      | None => send_results t'
      end
  end.

(** Answers that end with the first failure. *)
Fixpoint stops_at_failure (l : list bool) : bool :=
  match l with
  | [] => true
  | true :: l' => stops_at_failure l'
  | false :: l' => list_empty l'
  end.

(** [drbd_bm_test_bit] answers 1 only for a bit inside the bitmap. *)
Definition test_bit_sound (env : scan_env) : Prop :=
  forall bit, bm_test_bit env bit = 1 -> 0 <= bit < bm_bits env.

(** Whether the resync runs with checksums: the peer speaks protocol 89 or
    later and a transform for the checksums is set. *)
Definition csum_mode (m : drbd_conf) : bool :=
  (89 <=? agreed_pro_version m)
  && (match csums_tfm m with Some _ => true | None => false end).

Definition is_local_read (ev : event) : bool :=
  match ev with Ev_generic_make_request _ => true | _ => false end.

(** Anything put on the link. *)
Definition is_network_send (ev : event) : bool :=
  match ev with
  | Ev_send_drequest _ _ _ _ _ | Ev_send_drequest_csum _ _ _ _ _
  | Ev_send_ov_request _ _ _ | Ev_send_block _ _ _ | Ev_send_ack _ _ _ => true
  | _ => false
  end.

Definition is_free_ee (ev : event) : bool :=
  match ev with Ev_free_ee _ => true | _ => false end.

Definition is_dec_unacked (ev : event) : bool :=
  match ev with Ev_dec_unacked => true | _ => false end.

Definition is_set_in_sync (ev : event) : bool :=
  match ev with Ev_set_in_sync _ _ => true | _ => false end.

Definition is_queue_bitmap_io (ev : event) : bool :=
  match ev with Ev_queue_bitmap_io => true | _ => false end.

(** What a reply callback owes for the entry it is called with: the entry
    is freed or kept on [net_ee], one or the other; the request is taken
    off [unacked_cnt] once; and a cancelled call returns [one] (the value 1
    of the callback), sends nothing and leaves [net_ee] alone. *)
Definition reply_contract {A} (one : A) (cancel : bool) (m : drbd_conf)
    (out : A * drbd_conf * list event) : Prop :=
  count is_free_ee (trace_of out) + Z.of_nat (length (net_ee (dev_of out)))
    = Z.of_nat (length (net_ee m)) + 1 /\
  count is_dec_unacked (trace_of out) = 1 /\
  unacked_cnt (dev_of out) = wrap_int (unacked_cnt m - 1) /\
  (cancel = true ->
     result_of out = one /\
     List.filter is_network_send (trace_of out) = [] /\
     net_ee (dev_of out) = net_ee m).

(** The verify reply runs into the NULL transform: it is not cancelled, the
    read was good and [verify_tfm] is not set. *)
Definition ov_req_oopses (e : Tl_epoch_entry) (cancel : bool)
    (m : drbd_conf) : bool :=
  negb cancel && bio_uptodate e
  && (match verify_tfm m with Some _ => false | None => true end).

(** Whether the receiver of a checksum request computes a digest that
    equals the one the peer sent. *)
Definition digests_agree (env : reply_env) (e : Tl_epoch_entry)
    (m : drbd_conf) : bool :=
  match csums_tfm m with
  | Some tfm =>
      kmalloc_ok env &&
      memcmp_eq (drbd_csum tfm e) (digest (digest_info_of (e_block_id e)))
        (crypto_hash_digestsize tfm)
  | None => false
  end.

(** The sectors a run of [n] verify requests starts at, from [sector] on. *)
Fixpoint ov_sectors (n : nat) (sector : Z) : list Z :=
  match n with
  | O => []
  | S n' => sector :: ov_sectors n' (sector + BM_SECT_PER_BIT)
  end.

(** The helper [drbd_resync_finished] calls, from the state it finds. *)
Definition helper_called `{MetaData} (env : finish_env) (m : drbd_conf)
  : option string :=
  if finish_deferred env || negb (inc_local_ok env)
     || conn_leb (conn (state m)) Connected
  then None
  else if is_verify (conn (state m)) then
    if negb (bm_total_weight env =? 0) then Some "out-of-sync"%string
    else None
  else if is_sync_target (conn (state m))
  then Some "after-resync-target"%string
  else None.

Definition is_bm_recount (ev : event) : bool :=
  match ev with Ev_bm_recount_bits => true | _ => false end.

(** Every device from [odev] on along the chain has a prerequisite that
    does not hold back: the walk of [_drbd_may_sync_now] goes round. *)
Definition goes_round (devs : list (option drbd_conf)) (odev : drbd_conf)
  : Prop :=
  forall x, x = odev \/ on_chain devs odev x ->
    exists p, prerequisite devs x = Some p /\ holds_back p = false.

End MoreCompletion.

(** A read for the peer that the disk fails without an error code. *)
Definition ee_silent_read : Tl_epoch_entry :=
  mk_ee 21 cb_w_e_end_data_req 40 4096 (ID_PEER 79) 0 [] false false.

(** A device whose resync timer has been told to stop. *)
Definition mdev_timer_stopped : drbd_conf :=
  set_flags (Z.setbit 0 STOP_SYNC_TIMER) (with_conn SyncTarget mdev_idle).

(** A verify source at the end of its run, and surroundings whose bitmap
    has three bits set. *)
Definition mdev_verify_done : drbd_conf :=
  set_rs_total 40 (with_conn VerifyS mdev_idle).

Definition env_three_oos : finish_env := mk_finish_env false true 1000 true 3.


(** The small device with its resync extents all busy. *)
Definition env_busy : scan_env :=
  let env := env_small [] in
  mk_scan_env (capacity env) (max_segment_size env) (scan_inc_local_ok env)
    (bm_bits env) (bm_find_next env) (bm_test_bit env) (fun _ => true)
    (send_request_ok env) (csum_inc_local_ok env) (csum_fault_active env)
    (csum_alloc_ee env).

(** Two devices that resync after each other. *)
Definition devs_cycle : list (option drbd_conf) :=
  [Some (dev_after 1 Connected); Some (dev_after 0 Connected)].

(** The three devices in a row once the resync order has been worked out:
    minors 0 and 1 wait. *)
Definition devs_chain_settled : list (option drbd_conf) :=
  [Some (with_aftr_isp true (dev_after 1 Connected));
   Some (with_aftr_isp true (dev_after 2 Connected));
   Some (dev_after (-1) SyncSource)].

(** A worker queue with three items and a callback that succeeds. *)
Definition mdev_queued : drbd_conf :=
  set_work_q [Work_resync; Work_ee ee_peer_write; Work_item cb_w_prev_work_done]
    mdev_idle.

Definition quiet_cb (w : drbd_work) (cancel : bool) : M Z :=
  emit Ev_wake_asender ;;; ret 1.


(** * Properties *)

(** ** Machine integers and enumerations *)

Lemma wrap_int_small x : - 2147483648 <= x <= INT_MAX -> wrap_int x = x.
Proof.
  intros Hx. unfold wrap_int, INT_MAX in *.
  rewrite Z.mod_small by lia. lia.
Qed.

Lemma wrap_ulong_small x : 0 <= x < 18446744073709551616 -> wrap_ulong x = x.
Proof. intros Hx. unfold wrap_ulong. now rewrite Z.mod_small. Qed.

Lemma wrap_uint_small x : 0 <= x < 4294967296 -> wrap_uint x = x.
Proof. intros Hx. unfold wrap_uint. now rewrite Z.mod_small. Qed.

Lemma conn_val_inj a b : conn_val a = conn_val b -> a = b.
Proof. destruct a, b; simpl; intros E; try reflexivity; discriminate E. Qed.

Lemma conn_eqb_eq a b : conn_eqb a b = true <-> a = b.
Proof.
  unfold conn_eqb. rewrite Z.eqb_eq. split.
  - apply conn_val_inj.
  - now intros ->.
Qed.

Lemma disk_eqb_eq a b : disk_eqb a b = true <-> a = b.
Proof.
  unfold disk_eqb. rewrite Z.eqb_eq. split.
  - destruct a, b; simpl; intros E; try reflexivity; discriminate E.
  - now intros ->.
Qed.

(** ** The worker loop *)

Module WorkerLoop.
Section Dispatch.

Variable run_cb : drbd_work -> bool -> M Z.

Lemma dispatch_unfold m w q :
  work_q m = w :: q ->
  drbd_worker_dispatch run_cb m =
    let cancel := conn_ltb (conn (state m)) Connected in
    let '(r, m1, t1) := run_cb w cancel (set_work_q q m) in
    if r =? 0 then
      if negb (conn_ltb (conn (state m1)) Connected)
      then (tt, with_conn NetworkFailure m1,
            Ev_call_cb w cancel :: t1 ++ [Ev_force_state NetworkFailure])
      else (tt, m1, Ev_call_cb w cancel :: t1)
    else (tt, m1, Ev_call_cb w cancel :: t1).
Proof.
  intros Hq. unfold drbd_worker_dispatch, bind, get, modify, emit, ret.
  rewrite Hq. simpl.
  destruct (run_cb w _ _) as [[r m1] t1]. simpl.
  destruct (r =? 0); simpl.
  - destruct (conn_ltb (conn (state m1)) Connected); simpl.
    + now rewrite app_nil_r.
    + reflexivity.
  - now rewrite app_nil_r.
Qed.

(** C4.  One dispatch of the worker loop pops the head [w] of the queue and
    calls [w->cb] with a cancel flag that is true exactly when the connection
    state is below [Connected] at that moment.  When the callback returns
    failure (0) and the state it leaves is at least [Connected], the worker
    forces the state to [NetworkFailure]; when the state is already below
    [Connected], or the callback succeeded, the worker changes nothing
    after the callback. *)
Theorem C4_dispatch_cancel_and_failure m w q :
  work_q m = w :: q ->
  let cancel := conn_ltb (conn (state m)) Connected in
  let called := run_cb w cancel (set_work_q q m) in
  let r := result_of called in
  let m1 := dev_of called in
  let out := drbd_worker_dispatch run_cb m in
  (cancel = true <-> conn_val (conn (state m)) < conn_val Connected) /\
  hd_error (trace_of out) = Some (Ev_call_cb w cancel) /\
  (r = 0 -> conn_val Connected <= conn_val (conn (state m1)) ->
     dev_of out = with_conn NetworkFailure m1 /\
     conn (state (dev_of out)) = NetworkFailure /\
     trace_of out =
       Ev_call_cb w cancel :: trace_of called ++ [Ev_force_state NetworkFailure]) /\
  (r = 0 -> conn_val (conn (state m1)) < conn_val Connected ->
     dev_of out = m1 /\ trace_of out = Ev_call_cb w cancel :: trace_of called) /\
  (r <> 0 ->
     dev_of out = m1 /\ trace_of out = Ev_call_cb w cancel :: trace_of called).
Proof.
  intros Hq cancel called r m1 out.
  assert (Hout : out =
    if r =? 0 then
      if negb (conn_ltb (conn (state m1)) Connected)
      then (tt, with_conn NetworkFailure m1,
            Ev_call_cb w cancel :: trace_of called ++ [Ev_force_state NetworkFailure])
      else (tt, m1, Ev_call_cb w cancel :: trace_of called)
    else (tt, m1, Ev_call_cb w cancel :: trace_of called)).
  { unfold out. rewrite (dispatch_unfold m w q Hq).
    unfold r, m1, called, cancel, result_of, dev_of, trace_of.
    destruct (run_cb w _ _) as [[r0 m0] t0]. reflexivity. }
  split; [|split; [|split; [|split]]].
  - unfold cancel, conn_ltb. apply Z.ltb_lt.
  - rewrite Hout. destruct (r =? 0); [destruct (negb _)|]; reflexivity.
  - intros Hr Hc. rewrite Hout.
    apply Z.eqb_eq in Hr. rewrite Hr.
    assert (Hlt : conn_ltb (conn (state m1)) Connected = false)
      by (unfold conn_ltb; apply Z.ltb_ge; exact Hc).
    rewrite Hlt. simpl. repeat split; reflexivity.
  - intros Hr Hc. rewrite Hout.
    apply Z.eqb_eq in Hr. rewrite Hr.
    assert (Hlt : conn_ltb (conn (state m1)) Connected = true)
      by (unfold conn_ltb; apply Z.ltb_lt; exact Hc).
    rewrite Hlt. simpl. split; reflexivity.
  - intros Hr. rewrite Hout.
    apply Z.eqb_neq in Hr. rewrite Hr. split; reflexivity.
Qed.

End Dispatch.

(** A failing callback on a connected device: the state is forced. *)
Lemma C4_dispatch_witness :
  let m := set_work_q [Work_resync] (with_conn SyncTarget mdev_idle) in
  work_q m = [Work_resync] /\
  conn (state (dev_of (drbd_worker_dispatch failing_cb m))) = NetworkFailure /\
  hd_error (trace_of (drbd_worker_dispatch failing_cb m))
    = Some (Ev_call_cb Work_resync false).
Proof.
  intros m.
  pose proof (C4_dispatch_cancel_and_failure failing_cb m Work_resync []
                eq_refl) as (_ & Hhd & Hforce & _).
  split; [reflexivity|]. split.
  - apply Hforce; [reflexivity | vm_compute; discriminate].
  - exact Hhd.
Defined.

End WorkerLoop.

(** ** Completion of a write on the secondary *)

Module EndioWrite.
Section Facts.
Context `{KernelConfig}.


Lemma list_del_other e x l :
  e_addr x <> e_addr e -> In x l -> In x (list_del_ee e l).
Proof.
  intros Hne Hin. unfold list_del_ee. apply filter_In. split; [exact Hin|].
  apply negb_true_iff, Z.eqb_neq, Hne.
Qed.



End Facts.


End EndioWrite.

(** ** The checksum path *)

Module Checksum.
Section Facts.
Context `{KernelConfig}.

Lemma list_Z_eqb_eq a b : list_Z_eqb a b = true <-> a = b.
Proof.
  revert b. induction a as [|x a IH]; intros [|y b]; simpl;
    try (split; [discriminate | intros E; discriminate E]);
    try (split; reflexivity).
  rewrite andb_true_iff, Z.eqb_eq, IH. split.
  - intros [-> ->]. reflexivity.
  - intros E. injection E as -> ->. split; reflexivity.
Qed.

Lemma memcmp_eq_same a n : memcmp_eq a a n = true.
Proof. unfold memcmp_eq. now apply list_Z_eqb_eq. Qed.

Lemma memcmp_eq_full a b n :
  length a = Z.to_nat n -> length b = Z.to_nat n ->
  memcmp_eq a b n = true -> a = b.
Proof.
  intros Ha Hb. unfold memcmp_eq. rewrite <- Ha at 1. rewrite <- Hb.
  rewrite !firstn_all. apply list_Z_eqb_eq.
Qed.

Ltac run_reply :=
  unfold w_e_end_csum_rs_req, w_e_end_rsdata_req, w_e_send_csum,
    w_e_end_ov_req, cancelled, keep_or_free, drbd_send_block, drbd_send_ack,
    drbd_send_drequest_csum, inc_rs_pending, dec_rs_pending, dec_unacked,
    when, bind, get, modify, emit, ret, dev_of, trace_of, result_of,
    sent_blocks, sent_acks; simpl.

Ltac split_ifs :=
  repeat (match goal with
          | |- context [if ?b then _ else _] => destruct b eqn:?
          end; simpl).

(** C1.  The receiver of a checksum request that computes the digest of its
    own block (the read was good, [csums_tfm] is set, the digest buffer was
    allocated).  If the digest equals the peer's, the sector range is set in
    sync, [rs_same_csum] goes up by one, the only packet sent is the
    [RSIsInSync] acknowledgment and no data block is sent; [rs_pending_cnt]
    is untouched.  If the digests differ (both being of the negotiated
    size), the block is sent as [RSDataReply], no acknowledgment is sent and
    nothing is set in sync. *)
Theorem C1_csum_match_or_transfer env e m tfm di :
  bio_uptodate e = true ->
  csums_tfm m = Some tfm ->
  kmalloc_ok env = true ->
  e_block_id e = ID_DIGEST di ->
  let out := w_e_end_csum_rs_req env e false m in
  (drbd_csum tfm e = digest di ->
     In (Ev_set_in_sync (e_sector e) (e_size e)) (trace_of out) /\
     rs_same_csum (dev_of out) = wrap_ulong (rs_same_csum m + 1) /\
     (0 <= rs_same_csum m < 18446744073709551615 ->
        rs_same_csum (dev_of out) = rs_same_csum m + 1) /\
     sent_acks (trace_of out) = [Ev_send_ack RSIsInSync e (send_ok env)] /\
     sent_blocks (trace_of out) = [] /\
     rs_pending_cnt (dev_of out) = rs_pending_cnt m) /\
  (drbd_csum tfm e <> digest di ->
   length (drbd_csum tfm e) = Z.to_nat (crypto_hash_digestsize tfm) ->
   length (digest di) = Z.to_nat (crypto_hash_digestsize tfm) ->
     sent_blocks (trace_of out) =
       [Ev_send_block RSDataReply (set_e_block_id ID_SYNCER e) (send_ok env)] /\
     sent_acks (trace_of out) = [] /\
     ~ In (Ev_set_in_sync (e_sector e) (e_size e)) (trace_of out) /\
     rs_same_csum (dev_of out) = rs_same_csum m).
Proof.
  intros Hup Htfm Hk Hid out. subst out. split.
  - intros Heq. run_reply. rewrite Hup, Htfm, Hk, Hid. simpl.
    rewrite Heq, memcmp_eq_same. simpl.
    destruct (bio_has_active_page e); simpl;
      destruct (send_ok env); simpl;
      (repeat split; try reflexivity; try (right; left; reflexivity);
       try (intros Hr; apply wrap_ulong_small; lia)).
  - intros Hne Hl1 Hl2. run_reply. rewrite Hup, Htfm, Hk, Hid. simpl.
    destruct (memcmp_eq (drbd_csum tfm e) (digest di) _) eqn:Hcmp.
    { exfalso. apply Hne. eapply memcmp_eq_full; eassumption. }
    simpl.
    destruct (bio_has_active_page e); simpl;
      destruct (send_ok env); simpl;
      (repeat split; try reflexivity; intros Hin; simpl in Hin;
       intuition discriminate).
Qed.

End Facts.

(** The peer's digest of the eight bytes is [36; 8]: the block is set in
    sync and acknowledged.  With another digest the block itself goes out. *)
Lemma C1_csum_witness :
  let env := mk_reply_env true true true in
  sent_acks (trace_of (w_e_end_csum_rs_req env (ee_csum_req [36; 8]) false
                         mdev_csum_source))
    = [Ev_send_ack RSIsInSync (ee_csum_req [36; 8]) true] /\
  sent_blocks (trace_of (w_e_end_csum_rs_req env (ee_csum_req [0; 8]) false
                           mdev_csum_source))
    = [Ev_send_block RSDataReply
         (set_e_block_id ID_SYNCER (ee_csum_req [0; 8])) true].
Proof.
  intros env. split.
  - pose proof (C1_csum_match_or_transfer env (ee_csum_req [36; 8])
                  mdev_csum_source 1 (mk_digest_info 2 [36; 8])
                  eq_refl eq_refl eq_refl eq_refl) as [Hsame _].
    apply Hsame. reflexivity.
  - pose proof (C1_csum_match_or_transfer env (ee_csum_req [0; 8])
                  mdev_csum_source 1 (mk_digest_info 2 [0; 8])
                  eq_refl eq_refl eq_refl eq_refl) as [_ Hdiff].
    apply Hdiff; [discriminate | reflexivity | reflexivity].
Defined.

End Checksum.

(** ** The end of a run *)

Module ResyncFinished.
Section Facts.
Context `{KernelConfig} `{MetaData}.

Ltac run_finish :=
  unfold drbd_resync_finished, finish_locked, _drbd_set_state,
    drbd_queue_work, when, bind, get, modify, emit, ret,
    dev_of, trace_of, result_of; simpl.

Ltac split_ifs :=
  repeat (match goal with
          | |- context [if ?b then _ else _] => destruct b eqn:?
          | |- context [match ?o with Some _ => _ | None => _ end] =>
              destruct o eqn:?
          end; simpl).

Lemma array_set_length i v l : length (array_set i v l) = length l.
Proof. unfold array_set. apply length_insert. Qed.

Lemma array_get_set_eq i v l :
  0 <= i -> (Z.to_nat i < length l)%nat -> array_get (array_set i v l) i = v.
Proof.
  intros Hi Hlen. unfold array_get, array_set.
  apply nth_lookup_Some with (d := 0).
  now apply list_lookup_insert_eq.
Qed.

Lemma array_get_set_ne i j v l :
  0 <= i -> 0 <= j -> i <> j -> array_get (array_set i v l) j = array_get l j.
Proof.
  intros Hi Hj Hne. unfold array_get, array_set.
  rewrite !nth_lookup. rewrite list_lookup_insert_ne; [reflexivity|lia].
Qed.

Lemma array_copy_length n lo src dst :
  length (array_copy n lo src dst) = length dst.
Proof.
  revert lo dst. induction n as [|n IH]; intros lo dst; simpl; [reflexivity|].
  rewrite IH. apply array_set_length.
Qed.

Lemma array_copy_below n lo src dst i :
  0 <= i < lo -> array_get (array_copy n lo src dst) i = array_get dst i.
Proof.
  revert lo dst. induction n as [|n IH]; intros lo dst Hi; simpl; [reflexivity|].
  rewrite IH by lia. apply array_get_set_ne; lia.
Qed.

Lemma array_copy_get n lo src dst i :
  0 <= lo -> lo <= i < lo + Z.of_nat n -> (Z.to_nat i < length dst)%nat ->
  array_get (array_copy n lo src dst) i = array_get src i.
Proof.
  revert lo dst. induction n as [|n IH]; intros lo dst Hlo Hi Hlen; simpl.
  - lia.
  - destruct (Z.eq_dec i lo) as [->|Hne].
    + rewrite array_copy_below by lia. now apply array_get_set_eq.
    + apply IH; [lia | lia | now rewrite array_set_length].
Qed.

Lemma uuid_set_from_slots n : forall lo src u,
  uuid_set_from n lo src u =
    fold_left (fun u i => _drbd_uuid_set i (array_get src i) u)
      (map (fun k => lo + Z.of_nat k) (seq 0 n)) u.
Proof.
  induction n as [|n IH]; intros lo src u; [reflexivity|].
  cbn [uuid_set_from seq map fold_left]. rewrite IH.
  rewrite <- seq_shift, map_map. rewrite Z.add_0_r.
  f_equal. apply map_ext. intros k. lia.
Qed.

Lemma slots_hold_peer_values p u i :
  (forall j v l, _drbd_uuid_set j v l = array_set j v l) ->
  0 <= Bitmap <= i -> i <= History_end -> (Z.to_nat i < length u)%nat ->
  array_get
    (fold_left (fun u i => _drbd_uuid_set i (array_get p i) u)
       (uuid_slots Bitmap History_end) u) i = array_get p i.
Proof.
  intros Hraw Hlo Hhi Hlen. unfold uuid_slots.
  rewrite <- uuid_set_from_slots.
  assert (Hcopy : forall n lo v, uuid_set_from n lo p v = array_copy n lo p v).
  { induction n as [|n IH]; intros lo v; simpl; [reflexivity|].
    now rewrite Hraw, IH. }
  rewrite Hcopy. apply array_copy_get; [lia| |exact Hlen].
  unfold turns. lia.
Qed.

(** C7 (as amended).  A completion that is not deferred, gets the local
    disk and finds the connection state above [Connected] ends in
    [Connected].  With no failed block both disk states become [UpToDate]
    and the UUIDs are brought in line: a resync target that knows the
    peer's UUIDs takes them over call by call ([adopt_peer_uuids]), every
    side then clears the bitmap UUID with [drbd_uuid_set_bm(mdev, 0)], and
    what is known of the peer's UUIDs is made equal to the local set.
    With failed blocks the side that synced as target is marked
    [Inconsistent] and the other [UpToDate]: the local disk on a
    [SyncTarget] / [PausedSyncT], the peer's disk otherwise; the UUIDs are
    left alone.  When the raw setter stores the value in its slot, the
    slots from [Bitmap] to [History_end] hold the peer's values after the
    first loop.  This holds for every state above [Connected], a resync
    run in particular. *)
Theorem C7_disk_states_after_run env m :
  finish_deferred env = false ->
  inc_local_ok env = true ->
  conn_val Connected < conn_val (conn (state m)) ->
  let m' := dev_of (drbd_resync_finished env m) in
  conn (state m') = Connected /\
  (rs_failed m = 0 ->
     disk (state m') = UpToDate /\ pdsk (state m') = UpToDate /\
     md_uuid m' =
       drbd_uuid_set_bm 0
         (if is_sync_target (conn (state m)) then
            match p_uuid m with
            | Some p => adopt_peer_uuids p (md_uuid m)
            | None => md_uuid m
            end
          else md_uuid m) /\
     (forall p, p_uuid m = Some p ->
        exists p', p_uuid m' = Some p' /\ length p' = length p /\
          forall i, 0 <= Current <= i -> i <= History_end ->
            (Z.to_nat i < length p)%nat ->
            array_get p' i = array_get (md_uuid m') i)) /\
  (rs_failed m <> 0 ->
     (is_sync_target (conn (state m)) = true ->
        disk (state m') = Inconsistent /\ pdsk (state m') = UpToDate) /\
     (is_sync_target (conn (state m)) = false ->
        disk (state m') = UpToDate /\ pdsk (state m') = Inconsistent) /\
     md_uuid m' = md_uuid m /\ p_uuid m' = p_uuid m) /\
  (forall p u i,
     (forall j v l, _drbd_uuid_set j v l = array_set j v l) ->
     0 <= Bitmap <= i -> i <= History_end -> (Z.to_nat i < length u)%nat ->
     array_get
       (fold_left (fun u i => _drbd_uuid_set i (array_get p i) u)
          (uuid_slots Bitmap History_end) u) i = array_get p i).
Proof.
  intros Hdef Hloc Hconn m'. subst m'.
  assert (Hle : conn_leb (conn (state m)) Connected = false)
    by (unfold conn_leb; apply Z.leb_gt; exact Hconn).
  unfold finish_deferred in Hdef.
  split; [|split; [|split]].
  - run_finish.
    destruct (rs_del_all_busy env), (kmalloc_w_ok env); try discriminate;
      simpl; rewrite ?Hloc; simpl; rewrite ?Hle; simpl; split_ifs; reflexivity.
  - intros Hfail.
    assert (Hf : (rs_failed m =? 0) = true) by now apply Z.eqb_eq.
    split; [|split; [|split]].
    + run_finish.
      destruct (rs_del_all_busy env), (kmalloc_w_ok env); try discriminate;
        simpl; rewrite ?Hloc; simpl; rewrite ?Hle; simpl; rewrite ?Hf; simpl;
        split_ifs; reflexivity.
    + run_finish.
      destruct (rs_del_all_busy env), (kmalloc_w_ok env); try discriminate;
        simpl; rewrite ?Hloc; simpl; rewrite ?Hle; simpl; rewrite ?Hf; simpl;
        split_ifs; reflexivity.
    + run_finish.
      destruct (rs_del_all_busy env), (kmalloc_w_ok env); try discriminate;
        simpl; rewrite ?Hloc; simpl; rewrite ?Hle; simpl; rewrite ?Hf; simpl;
        (destruct (is_sync_target (conn (state m))); simpl;
         [destruct (p_uuid m) as [p|] eqn:Hp; simpl|];
         split_ifs; simpl; rewrite ?Hp; simpl;
         unfold adopt_peer_uuids, uuid_slots; cbv zeta;
         rewrite ?uuid_set_from_slots; try reflexivity; try congruence).
    + intros p Hp.
      exists (array_copy (turns Current History_end) Current
                (md_uuid (dev_of (drbd_resync_finished env m))) p).
      split; [|split].
      * run_finish.
        destruct (rs_del_all_busy env), (kmalloc_w_ok env); try discriminate;
          simpl; rewrite ?Hloc; simpl; rewrite ?Hle; simpl; rewrite ?Hf; simpl;
          rewrite ?Hp; simpl;
          split_ifs; simpl; rewrite ?Hp; simpl; try reflexivity;
          try congruence.
      * apply array_copy_length.
      * intros i Hi Hhi Hlen. apply array_copy_get; [lia| |exact Hlen].
        unfold turns. lia.
  - intros Hfail.
    assert (Hf : (rs_failed m =? 0) = false) by now apply Z.eqb_neq.
    run_finish.
    destruct (rs_del_all_busy env), (kmalloc_w_ok env); try discriminate;
      simpl; rewrite ?Hloc; simpl; rewrite ?Hle; simpl; rewrite ?Hf; simpl;
      split_ifs; (repeat split; intros; try discriminate; reflexivity).
  - intros p u i. apply slots_hold_peer_values.
Qed.

(** What one call installs: a state is set exactly when the call is not
    deferred, gets the local disk and finds the state above [Connected]. *)
Lemma state_changes_one_call env m :
  state_changes (trace_of (drbd_resync_finished env m)) =
    if negb (finish_deferred env) && inc_local_ok env
       && negb (conn_leb (conn (state m)) Connected)
    then 1%nat else 0%nat.
Proof.
  unfold finish_deferred, state_changes. run_finish.
  destruct (rs_del_all_busy env), (kmalloc_w_ok env), (inc_local_ok env);
    simpl; try reflexivity;
    destruct (conn_leb (conn (state m)) Connected) eqn:Hle; simpl;
    split_ifs; reflexivity.
Qed.

Lemma conn_after_call env m :
  finish_deferred env = false -> inc_local_ok env = true ->
  conn_leb (conn (state (dev_of (drbd_resync_finished env m)))) Connected
    = true.
Proof.
  unfold finish_deferred. intros Hdef Hloc. run_finish.
  destruct (rs_del_all_busy env), (kmalloc_w_ok env); try discriminate;
    simpl; rewrite Hloc; simpl;
    destruct (conn_leb (conn (state m)) Connected) eqn:Hle; simpl;
    split_ifs; simpl; try exact Hle; reflexivity.
Qed.

Lemma counters_after_call env m :
  finish_deferred env = false ->
  let m1 := dev_of (drbd_resync_finished env m) in
  rs_total m1 = 0 /\ rs_failed m1 = 0 /\ rs_paused m1 = 0 /\
  test_bit WRITE_BM_AFTER_RESYNC (flags m1) = false.
Proof.
  unfold finish_deferred. intros Hdef. run_finish.
  destruct (rs_del_all_busy env), (kmalloc_w_ok env); try discriminate;
    simpl;
    destruct (inc_local_ok env); simpl;
    try (destruct (conn_leb (conn (state m)) Connected) eqn:Hle; simpl);
    split_ifs; simpl; unfold test_bit in *;
    repeat split; try reflexivity; try assumption; apply Z.clearbit_eq.
Qed.

(** A call on a device that is at or below [Connected], with the run
    counters at zero and no bitmap write owed, changes nothing but the work
    queue, and only when it defers itself. *)
Lemma call_on_finished_device env m :
  conn_leb (conn (state m)) Connected = true ->
  rs_total m = 0 -> rs_failed m = 0 -> rs_paused m = 0 ->
  test_bit WRITE_BM_AFTER_RESYNC (flags m) = false ->
  let out := drbd_resync_finished env m in
  dev_of out =
    (if finish_deferred env
     then set_work_q (work_q m ++ [Work_item cb_w_resync_finished]) m
     else m) /\
  List.filter is_khelper (trace_of out) = [].
Proof.
  intros Hle Ht Hf Hp Hbit.
  unfold finish_deferred. run_finish.
  destruct m; simpl in *; subst.
  destruct (rs_del_all_busy env), (kmalloc_w_ok env); simpl;
    try (split; reflexivity);
    destruct (inc_local_ok env); simpl; rewrite ?Hle; simpl;
    rewrite ?Hbit; simpl; rewrite Zdiv_0_l; split; reflexivity.
Qed.

(** C6 (as amended).  Two calls in a row install a new state at most once.
    When the first call reaches the guard (it is not deferred and gets the
    local disk), it leaves the connection state at or below [Connected] and
    the run counters at zero, and the second call then changes nothing: it
    installs no state and calls no helper; the device is as the first call
    left it, except that a second call which finds the resync LRU busy
    queues itself once more. *)
Theorem C6_finish_twice env1 env2 m :
  let r1 := drbd_resync_finished env1 m in
  let m1 := dev_of r1 in
  let r2 := drbd_resync_finished env2 m1 in
  (state_changes (trace_of r1) + state_changes (trace_of r2) <= 1)%nat /\
  (finish_deferred env1 = false -> inc_local_ok env1 = true ->
     conn_val (conn (state m1)) <= conn_val Connected /\
     rs_total m1 = 0 /\ rs_failed m1 = 0 /\ rs_paused m1 = 0 /\
     dev_of r2 =
       (if finish_deferred env2
        then set_work_q (work_q m1 ++ [Work_item cb_w_resync_finished]) m1
        else m1) /\
     state_changes (trace_of r2) = 0%nat /\
     List.filter is_khelper (trace_of r2) = []).
Proof.
  intros r1 m1 r2. split.
  - unfold r2, r1. rewrite !state_changes_one_call.
    destruct (negb (finish_deferred env1) && inc_local_ok env1) eqn:Hreach.
    + apply andb_true_iff in Hreach as [Hdef Hloc].
      apply negb_true_iff in Hdef.
      fold r1. fold m1.
      pose proof (conn_after_call env1 m Hdef Hloc) as Hc. fold r1 m1 in Hc.
      rewrite Hc. simpl. rewrite !andb_false_r.
      repeat match goal with
             | |- context [if ?b then 1%nat else 0%nat] => destruct b
             end; simpl; lia.
    + simpl.
      repeat match goal with
             | |- context [if ?b then 1%nat else 0%nat] => destruct b
             end; simpl; lia.
  - intros Hdef Hloc.
    pose proof (conn_after_call env1 m Hdef Hloc) as Hc.
    pose proof (counters_after_call env1 m Hdef) as (Ht & Hf & Hp & Hbit).
    fold r1 m1 in Hc, Ht, Hf, Hp, Hbit.
    pose proof (call_on_finished_device env2 m1 Hc Ht Hf Hp Hbit)
      as [Hdev Hk].
    fold r2 in Hdev, Hk.
    split; [unfold conn_leb in Hc; now apply Z.leb_le in Hc|].
    repeat split; try assumption.
    unfold r2. rewrite state_changes_one_call, Hc.
    now rewrite andb_false_r.
Qed.

End Facts.

(** A clean run on the target: both disks end up to date, the target has
    taken over the peer's UUIDs, and the peer's UUIDs are known to equal
    ours. *)
Lemma C7_disk_states_witness :
  let m' := dev_of (drbd_resync_finished env_quiet mdev_target_done) in
  conn (state m') = Connected /\
  disk (state m') = UpToDate /\ pdsk (state m') = UpToDate /\
  md_uuid m' = [8; 0; 4; 4] /\
  p_uuid m' = Some (md_uuid m').
Proof.
  intros m'.
  pose proof (C7_disk_states_after_run env_quiet mdev_target_done
                eq_refl eq_refl eq_refl) as (Hc & Hclean & _).
  destruct (Hclean eq_refl) as (Hd & Hp & Hu & _).
  split; [exact Hc|]. split; [exact Hd|]. split; [exact Hp|].
  split; [|reflexivity].
  subst m'. rewrite Hu. vm_compute. reflexivity.
Defined.

(** The specification's wording fails for a call that does not come to the
    locked part.  With the resync LRU busy the call queues itself and
    returns; without the local disk it skips to the end.  Either way a
    clean resync run above [Connected] is left with the connection state,
    the disk states and the UUIDs it had. *)
Lemma C7_call_that_promotes_nothing :
  let deferred := dev_of (drbd_resync_finished env_lru_busy mdev_target_done) in
  let no_disk := dev_of (drbd_resync_finished env_no_disk mdev_target_done) in
  conn_val Connected < conn_val (conn (state mdev_target_done)) /\
  is_verify (conn (state mdev_target_done)) = false /\
  rs_failed mdev_target_done = 0 /\
  state deferred = state mdev_target_done /\
  disk (state deferred) = Inconsistent /\
  md_uuid deferred = md_uuid mdev_target_done /\
  p_uuid deferred = p_uuid mdev_target_done /\
  state no_disk = state mdev_target_done /\
  disk (state no_disk) = Inconsistent /\
  md_uuid no_disk = md_uuid mdev_target_done.
Proof. vm_compute. repeat split; reflexivity. Qed.

(** The specification's wording fails when the first call is deferred: the
    resync LRU is busy, the call queues itself and returns, and it is the
    second call that finds the state above [Connected] and finalizes. *)
Lemma C6_second_call_finalizes :
  let m1 := dev_of (drbd_resync_finished env_lru_busy mdev_target_done) in
  conn (state m1) = SyncTarget /\
  conn (state (dev_of (drbd_resync_finished env_quiet m1))) = Connected /\
  ~ second_call_is_noop.
Proof.
  intros m1. split; [reflexivity|]. split; [reflexivity|].
  intros Hnoop.
  destruct (Hnoop env_lru_busy env_quiet mdev_target_done) as [Hle _].
  vm_compute in Hle. discriminate Hle.
Qed.

(** Two calls with the LRU free: the first finalizes, the second is void. *)
Lemma C6_finish_twice_witness :
  finish_deferred env_quiet = false /\
  inc_local_ok env_quiet = true /\
  dev_of (drbd_resync_finished env_quiet
            (dev_of (drbd_resync_finished env_quiet mdev_target_done)))
    = dev_of (drbd_resync_finished env_quiet mdev_target_done).
Proof.
  split; [reflexivity|]. split; [reflexivity|].
  destruct (C6_finish_twice env_quiet env_quiet mdev_target_done)
    as (_ & Hsecond).
  destruct (Hsecond eq_refl eq_refl) as (_ & _ & _ & _ & Hdev & _).
  rewrite Hdev. vm_compute. reflexivity.
Defined.

End ResyncFinished.

(** ** The scan ticks *)

Module ScanTick.
Section Facts.
Context `{KernelConfig}.

(** *** Traces *)

Lemma requests_app t1 t2 : requests (t1 ++ t2) = requests t1 ++ requests t2.
Proof.
  induction t1 as [|ev t1 IH]; simpl; [reflexivity|].
  destruct (request_of ev); simpl; now rewrite IH.
Qed.

Lemma count_app p t1 t2 : count p (t1 ++ t2) = count p t1 + count p t2.
Proof.
  unfold count. rewrite List.filter_app, length_app. lia.
Qed.

Lemma count_nonneg p t : 0 <= count p t.
Proof. unfold count. lia. Qed.

Lemma count_nil p : count p [] = 0.
Proof. reflexivity. Qed.

Lemma count_cons p ev t : count p (ev :: t) = Z.b2z (p ev) + count p t.
Proof. unfold count. simpl. destruct (p ev); simpl; lia. Qed.

Ltac tally :=
  unfold sends_ok, sends_failed, incs, decs, mod_timers in *;
  repeat (rewrite count_cons || rewrite count_app || rewrite count_nil);
  cbn beta iota delta [pending_send Z.b2z].

Lemma incs_app t1 t2 : incs (t1 ++ t2) = incs t1 + incs t2.
Proof. apply count_app. Qed.

Lemma decs_app t1 t2 : decs (t1 ++ t2) = decs t1 + decs t2.
Proof. apply count_app. Qed.

Lemma sends_ok_app t1 t2 : sends_ok (t1 ++ t2) = sends_ok t1 + sends_ok t2.
Proof. apply count_app. Qed.

Lemma sends_failed_app t1 t2 :
  sends_failed (t1 ++ t2) = sends_failed t1 + sends_failed t2.
Proof. apply count_app. Qed.

Lemma mod_timers_app t1 t2 :
  mod_timers (t1 ++ t2) = mod_timers t1 + mod_timers t2.
Proof. apply count_app. Qed.

Ltac run_scan :=
  unfold resync_turn, ov_turn, read_for_csum, resync_requeue, set_inactive,
    drbd_send_drequest, drbd_send_ov_request, inc_rs_pending, dec_rs_pending,
    when, bind, get, modify, emit, ret, dev_of, trace_of, result_of; simpl.

Ltac split_ifs :=
  repeat (match goal with
          | |- context [if ?b then _ else _] => destruct b eqn:?
          | |- context [match ?o with Some _ => _ | None => _ end] =>
              destruct o as [[[? ?] ?]|] eqn:? || destruct o eqn:?
          end; simpl).


(** *** The merge of adjacent bits *)

Lemma BM_BLOCK_SIZE_nonneg : 0 <= BM_BLOCK_SIZE.
Proof. unfold BM_BLOCK_SIZE. apply Z.shiftl_nonneg. lia. Qed.

Lemma BM_BLOCK_SIZE_pos : 0 <= BM_BLOCK_SIZE_B -> 0 < BM_BLOCK_SIZE.
Proof.
  intros HB. unfold BM_BLOCK_SIZE. rewrite Z.shiftl_1_l.
  apply Z.pow_pos_nonneg; lia.
Qed.

Lemma merge_adjacent_grows fuel env sector bit size align i bit' size' i' :
  0 <= BM_BLOCK_SIZE ->
  merge_adjacent fuel env sector bit size align i = Some (bit', size', i') ->
  bit <= bit' /\ i <= i' /\ size <= size' /\
  size' <= Z.max size (max_segment_size env).
Proof.
  intros HB. revert bit size align i.
  induction fuel as [|fuel IH]; intros bit size align i; simpl; [discriminate|].
  destruct (size + BM_BLOCK_SIZE >? max_segment_size env) eqn:Hmax.
  { intros E; injection E as <- <- <-. lia. }
  destruct (negb _).
  { intros E; injection E as <- <- <-. lia. }
  destruct (Z.land (bit + 1) _ =? 0).
  { intros E; injection E as <- <- <-. lia. }
  destruct (negb _).
  { intros E; injection E as <- <- <-. lia. }
  intros E. apply IH in E. rewrite Z.gtb_ltb in Hmax. apply Z.ltb_ge in Hmax. lia.
Qed.

Lemma merge_adjacent_total fuel env sector bit size align i :
  0 < BM_BLOCK_SIZE ->
  (Z.to_nat (max_segment_size env - size) < fuel)%nat ->
  merge_adjacent fuel env sector bit size align i <> None.
Proof.
  intros HB. revert bit size align i.
  induction fuel as [|fuel IH]; intros bit size align i Hfuel; simpl; [lia|].
  destruct (size + BM_BLOCK_SIZE >? max_segment_size env) eqn:Hmax;
    [discriminate|].
  destruct (negb _); [discriminate|].
  destruct (Z.land (bit + 1) _ =? 0); [discriminate|].
  destruct (negb _); [discriminate|].
  apply IH. rewrite Z.gtb_ltb in Hmax. apply Z.ltb_ge in Hmax. lia.
Qed.

Lemma merged_grows env sector bit i bit' size' i' :
  0 <= BM_BLOCK_SIZE ->
  merged env sector bit i = Some (bit', size', i') ->
  bit <= bit' /\ i <= i' /\ BM_BLOCK_SIZE <= size' /\
  size' <= Z.max BM_BLOCK_SIZE (max_segment_size env).
Proof.
  intros HB. unfold merged. destruct (_ >? _).
  - apply merge_adjacent_grows. exact HB.
  - intros E; injection E as <- <- <-. lia.
Qed.

Lemma merged_total env sector bit i :
  0 <= BM_BLOCK_SIZE_B -> merged env sector bit i <> None.
Proof.
  intros HB. pose proof (BM_BLOCK_SIZE_pos HB) as Hpos.
  unfold merged. destruct (_ >? _); [|discriminate].
  apply merge_adjacent_total; [exact Hpos|]. unfold merge_fuel. lia.
Qed.

Ltac use_merged :=
  match goal with
  | Hm : merged _ _ _ _ = Some _ |- _ =>
      apply merged_grows in Hm; [|apply BM_BLOCK_SIZE_nonneg]
  end.

(** *** One turn of the resync loop *)

(** A turn issues at most one request, and one that does moves the loop
    counter on by at least one. *)
Lemma resync_turn_requests env i m :
  let out := resync_turn env i m in
  (length (requests (trace_of out)) <= 1)%nat /\
  forall i', result_of out = Turn_next i' ->
    i + Z.of_nat (length (requests (trace_of out))) <= i'.
Proof.
  run_scan. split_ifs;
    (split; [lia | intros i' E; try discriminate E;
                   injection E as <-; try use_merged; lia]).
Qed.

(** *** The resync loop and the budget *)

Lemma resync_loop_requests fuel env number i m :
  Z.of_nat (length (requests (trace_of (resync_loop fuel env number i m))))
    <= Z.max 0 (number - i).
Proof.
  revert i m. induction fuel as [|fuel IH]; intros i m; simpl.
  - unfold ret, trace_of. simpl. lia.
  - destruct (i <? number) eqn:Hi; simpl.
    2: { unfold ret, trace_of. simpl. lia. }
    apply Z.ltb_lt in Hi.
    pose proof (resync_turn_requests env i m) as [Hone Hnext].
    unfold bind. unfold trace_of, result_of in *.
    destruct (resync_turn env i m) as [[r m1] t1]. simpl in *.
    destruct r as [x|i'|]; simpl.
    + rewrite app_nil_r. lia.
    + specialize (Hnext i' eq_refl). specialize (IH i' m1).
      unfold trace_of in IH.
      destruct (resync_loop fuel env number i' m1) as [[r2 m2] t2].
      simpl in *. rewrite requests_app, length_app. lia.
    + rewrite app_nil_r. lia.
Qed.

Lemma ov_turn_requests env sector m :
  (length (requests (trace_of (ov_turn env sector m))) <= 1)%nat.
Proof. run_scan. split_ifs; lia. Qed.

Lemma ov_loop_requests n env sector m :
  (length (requests (trace_of (ov_loop n env sector m))) <= n)%nat.
Proof.
  revert sector m. induction n as [|n IH]; intros sector m; simpl.
  - unfold ret, trace_of. simpl. lia.
  - pose proof (ov_turn_requests env sector m) as Hone.
    unfold bind. unfold trace_of in *.
    destruct (ov_turn env sector m) as [[[x sector'] m1] t1]. simpl in *.
    destruct x as [x|]; simpl.
    + rewrite app_nil_r. lia.
    + specialize (IH sector' m1).
      destruct (ov_loop n env sector' m1) as [[r2 m2] t2]. simpl in *.
      rewrite requests_app, length_app. lia.
Qed.

(** The requests of a whole tick stay within the budget. *)
Lemma resync_tick_requests fuel env cancel m :
  Z.of_nat (length (requests
    (trace_of (w_make_resync_request fuel env cancel m))))
    <= Z.max 0 (tick_budget m).
Proof.
  unfold w_make_resync_request.
  destruct cancel; [unfold ret, trace_of; simpl; lia|].
  run_scan.
  destruct (conn_ltb _ _); simpl; [lia|].
  destruct (scan_inc_local_ok env); simpl.
  2: { destruct (negb (conn_eqb _ _)); simpl; lia. }
  destruct (rs_pending_cnt m >? tick_number m) eqn:Hp; simpl.
  { destruct (negb (conn_eqb _ _)); simpl; lia. }
  pose proof (resync_loop_requests fuel env (tick_budget m) 0 m) as Hloop.
  unfold trace_of in Hloop.
  destruct (negb (conn_eqb _ _)); simpl;
    destruct (resync_loop fuel env (tick_budget m) 0 m) as [[x m1] t1];
    simpl in *;
    (destruct x as [[r| |]|]; simpl;
     [| |destruct (bm_bits env <=? bm_resync_fo m1); simpl|];
     rewrite ?requests_app, ?length_app; simpl; lia).
Qed.

Lemma ov_tick_requests env cancel m :
  Z.of_nat (length (requests (trace_of (w_make_ov_request env cancel m))))
    <= Z.max 0 (tick_budget m).
Proof.
  unfold w_make_ov_request.
  destruct cancel; [unfold ret, trace_of; simpl; lia|].
  run_scan.
  destruct (conn_ltb _ _); simpl; [lia|].
  destruct (rs_pending_cnt m >? tick_number m) eqn:Hp; simpl; [lia|].
  pose proof (ov_loop_requests (Z.to_nat (tick_budget m)) env (ov_position m) m)
    as Hloop.
  unfold trace_of in Hloop.
  destruct (ov_loop _ env (ov_position m) m) as [[[x sector] m1] t1].
  simpl in *.
  destruct x as [r| |]; simpl; rewrite ?requests_app, ?length_app; simpl; lia.
Qed.

Lemma set_ov_position_same m : set_ov_position (ov_position m) m = m.
Proof. now destruct m. Qed.

Lemma tick_budget_plain m :
  0 <= rs_pending_cnt m <= tick_number m -> tick_number m <= INT_MAX ->
  tick_budget m = tick_number m - rs_pending_cnt m.
Proof.
  intros Hp Hn. unfold tick_budget. apply wrap_int_small.
  unfold INT_MAX in *. lia.
Qed.

(** *** The loop ends *)

Lemma resync_turn_progress env i m :
  find_next_sound env -> 0 <= BM_BLOCK_SIZE_B ->
  let out := resync_turn env i m in
  result_of out <> Turn_stuck /\
  forall i', result_of out = Turn_next i' ->
    (i' = i /\ bm_resync_fo m < bm_resync_fo (dev_of out) <= bm_bits env) \/
    (i < i' /\ bm_resync_fo m <= bm_resync_fo (dev_of out)).
Proof.
  intros Hfind HB. run_scan.
  destruct (bm_find_next env (bm_resync_fo m)) as [bit|] eqn:Hnext; simpl.
  2: { split; [discriminate|]. intros i' E. discriminate E. }
  destruct (Hfind _ _ Hnext) as [Hfo Hbit].
  destruct (try_rs_begin_io env _); simpl.
  { split; [discriminate|]. intros i' E. discriminate E. }
  destruct (bm_test_bit env bit =? 0); simpl.
  { split; [discriminate|]. intros i' E. injection E as <-. left. lia. }
  pose proof (merged_total env (BM_BIT_TO_SECT bit) bit i HB) as Htot.
  destruct (merged env (BM_BIT_TO_SECT bit) bit i) as [[[bit' size'] i1]|] eqn:Hm;
    [|contradiction].
  apply merged_grows in Hm; [|apply BM_BLOCK_SIZE_nonneg].
  simpl. split_ifs;
    (split; [discriminate|]; intros i' E; try discriminate E;
     injection E as <-; right; lia).
Qed.

Lemma resync_loop_returns fuel env number i m :
  find_next_sound env -> 0 <= BM_BLOCK_SIZE_B ->
  (Z.to_nat (number - i) + Z.to_nat (bm_bits env - bm_resync_fo m) < fuel)%nat ->
  result_of (resync_loop fuel env number i m) <> None.
Proof.
  intros Hfind HB. revert i m.
  induction fuel as [|fuel IH]; intros i m Hfuel; simpl; [lia|].
  destruct (i <? number) eqn:Hi; simpl; [|discriminate].
  apply Z.ltb_lt in Hi.
  pose proof (resync_turn_progress env i m Hfind HB) as [Hstuck Hnext].
  unfold bind. unfold result_of, dev_of in *.
  destruct (resync_turn env i m) as [[r m1] t1]. simpl in *.
  destruct r as [x|i'|]; simpl; [discriminate| |contradiction].
  specialize (IH i' m1).
  destruct (resync_loop fuel env number i' m1) as [[r2 m2] t2]. simpl in *.
  apply IH. destruct (Hnext i' eq_refl) as [[-> Hfo]|[Hi' Hfo]]; lia.
Qed.

Lemma resync_tick_returns fuel env cancel m :
  find_next_sound env -> 0 <= BM_BLOCK_SIZE_B ->
  (resync_fuel env m <= fuel)%nat ->
  result_of (w_make_resync_request fuel env cancel m) <> None.
Proof.
  intros Hfind HB Hfuel. unfold w_make_resync_request.
  destruct cancel; [discriminate|].
  run_scan.
  destruct (conn_ltb _ _); simpl; [discriminate|].
  destruct (scan_inc_local_ok env); simpl.
  2: { destruct (negb (conn_eqb _ _)); simpl; discriminate. }
  destruct (rs_pending_cnt m >? tick_number m); simpl.
  { destruct (negb (conn_eqb _ _)); simpl; discriminate. }
  pose proof (resync_loop_returns fuel env (tick_budget m) 0 m Hfind HB)
    as Hloop.
  unfold resync_fuel in Hfuel. rewrite Z.sub_0_r in Hloop.
  specialize (Hloop ltac:(lia)). unfold result_of in Hloop.
  destruct (negb (conn_eqb _ _)); simpl;
    destruct (resync_loop fuel env (tick_budget m) 0 m) as [[x m1] t1];
    simpl in *;
    (destruct x as [[r| |]|]; simpl;
     [| |destruct (bm_bits env <=? bm_resync_fo m1); simpl|];
     try discriminate; contradiction).
Qed.

(** *** The pending counter *)

Ltac counts := unfold sends_ok, sends_failed, incs, decs, count in *; simpl in *.
Ltac no_events :=
  unfold ret, dev_of, trace_of, sends_ok, sends_failed, incs, decs, count;
  simpl; repeat split; lia.

Lemma resync_turn_pending env i m :
  - 2147483648 <= rs_pending_cnt m < INT_MAX ->
  let out := resync_turn env i m in
  let t := trace_of out in
  rs_pending_cnt (dev_of out) = rs_pending_cnt m + sends_ok t /\
  incs t = sends_ok t + sends_failed t /\
  decs t = sends_failed t /\
  sends_ok t + sends_failed t <= 1 /\
  forall i', result_of out = Turn_next i' -> i + sends_ok t <= i'.
Proof.
  intros Hcnt. unfold INT_MAX in Hcnt. run_scan.
  destruct (bm_find_next env (bm_resync_fo m)) as [bit|] eqn:Hnext; simpl.
  2: { counts. repeat split; try lia. intros i' E. discriminate E. }
  destruct (send_request_ok env (BM_BIT_TO_SECT bit)) eqn:Hsend;
    split_ifs;
    rewrite ?(wrap_int_small (rs_pending_cnt m + 1)) by (unfold INT_MAX; lia);
    rewrite ?(wrap_int_small (rs_pending_cnt m + 1 - 1))
      by (unfold INT_MAX; lia);
    try discriminate;
    counts;
    (split; [lia|]; split; [lia|]; split; [lia|]; split; [lia|];
     intros i' E; try discriminate E; injection E as <-;
     try use_merged; lia).
Qed.

Lemma resync_loop_pending fuel env number i m :
  - 2147483648 <= rs_pending_cnt m ->
  rs_pending_cnt m + Z.max 0 (number - i) <= INT_MAX ->
  let out := resync_loop fuel env number i m in
  let t := trace_of out in
  rs_pending_cnt (dev_of out) = rs_pending_cnt m + sends_ok t /\
  incs t = sends_ok t + sends_failed t /\
  decs t = sends_failed t.
Proof.
  revert i m. induction fuel as [|fuel IH]; intros i m Hlo Hhi; simpl.
  - no_events.
  - destruct (i <? number) eqn:Hi; simpl.
    2: { no_events. }
    apply Z.ltb_lt in Hi.
    pose proof (resync_turn_pending env i m ltac:(lia))
      as (Hcnt & Hinc & Hdec & Hone & Hnext).
    unfold bind. unfold trace_of, dev_of, result_of in *.
    destruct (resync_turn env i m) as [[r m1] t1]. simpl in *.
    pose proof (count_nonneg
      (fun ev => match pending_send ev with Some true => true | _ => false end)
      t1) as Hok0.
    pose proof (count_nonneg
      (fun ev => match pending_send ev with Some false => true | _ => false end)
      t1) as Hfail0.
    fold (sends_ok t1) in Hok0. fold (sends_failed t1) in Hfail0.
    destruct r as [x|i'|]; simpl.
    + rewrite app_nil_r. repeat split; assumption.
    + specialize (Hnext i' eq_refl).
      specialize (IH i' m1 ltac:(lia) ltac:(lia)).
      destruct (resync_loop fuel env number i' m1) as [[r2 m2] t2].
      simpl in *. destruct IH as (IHcnt & IHinc & IHdec).
      rewrite sends_ok_app, sends_failed_app, incs_app, decs_app.
      repeat split; lia.
    + rewrite app_nil_r. repeat split; assumption.
Qed.

Lemma ov_turn_pending env sector m :
  - 2147483648 <= rs_pending_cnt m < INT_MAX ->
  let out := ov_turn env sector m in
  let t := trace_of out in
  rs_pending_cnt (dev_of out) = rs_pending_cnt m + sends_ok t /\
  incs t = sends_ok t + sends_failed t /\
  decs t = sends_failed t /\
  sends_ok t + sends_failed t <= 1.
Proof.
  intros Hcnt. unfold INT_MAX in Hcnt. run_scan.
  destruct (send_request_ok env sector) eqn:Hsend;
    split_ifs;
    rewrite ?(wrap_int_small (rs_pending_cnt m + 1)) by (unfold INT_MAX; lia);
    rewrite ?(wrap_int_small (rs_pending_cnt m + 1 - 1))
      by (unfold INT_MAX; lia);
    try discriminate;
    counts; repeat split; lia.
Qed.

Lemma ov_loop_pending n env sector m :
  - 2147483648 <= rs_pending_cnt m ->
  rs_pending_cnt m + Z.of_nat n <= INT_MAX ->
  let out := ov_loop n env sector m in
  let t := trace_of out in
  rs_pending_cnt (dev_of out) = rs_pending_cnt m + sends_ok t /\
  incs t = sends_ok t + sends_failed t /\
  decs t = sends_failed t.
Proof.
  revert sector m. induction n as [|n IH]; intros sector m Hlo Hhi; simpl.
  - no_events.
  - rewrite Nat2Z.inj_succ in Hhi.
    pose proof (ov_turn_pending env sector m ltac:(lia))
      as (Hcnt & Hinc & Hdec & Hone).
    unfold bind. unfold trace_of, dev_of, result_of in *.
    destruct (ov_turn env sector m) as [[[x sector'] m1] t1]. simpl in *.
    pose proof (count_nonneg
      (fun ev => match pending_send ev with Some true => true | _ => false end)
      t1) as Hok0.
    pose proof (count_nonneg
      (fun ev => match pending_send ev with Some false => true | _ => false end)
      t1) as Hfail0.
    fold (sends_ok t1) in Hok0. fold (sends_failed t1) in Hfail0.
    destruct x as [x|]; simpl.
    + rewrite app_nil_r. repeat split; assumption.
    + specialize (IH sector' m1 ltac:(lia) ltac:(lia)).
      destruct (ov_loop n env sector' m1) as [[r2 m2] t2].
      simpl in *. destruct IH as (IHcnt & IHinc & IHdec).
      rewrite sends_ok_app, sends_failed_app, incs_app, decs_app.
      repeat split; lia.
Qed.

(** In both ticks the counter goes up once before each request and comes
    down once after a request that failed: at the end it has grown by the
    number of requests sent. *)
Lemma resync_tick_pending fuel env cancel m :
  0 <= rs_pending_cnt m -> tick_number m <= INT_MAX ->
  pending_balanced m (w_make_resync_request fuel env cancel m).
Proof.
  intros Hp Hn. unfold pending_balanced, w_make_resync_request.
  destruct cancel; [no_events|].
  run_scan.
  destruct (conn_ltb _ _); simpl; [no_events|].
  destruct (scan_inc_local_ok env); simpl.
  2: { destruct (negb (conn_eqb _ _)); simpl; no_events. }
  destruct (rs_pending_cnt m >? tick_number m) eqn:Hgt; simpl.
  { destruct (negb (conn_eqb _ _)); simpl; no_events. }
  rewrite Z.gtb_ltb in Hgt. apply Z.ltb_ge in Hgt.
  pose proof (tick_budget_plain m ltac:(lia) Hn) as Hb.
  assert (Hhi : rs_pending_cnt m + Z.max 0 (tick_budget m - 0) <= INT_MAX)
    by lia.
  pose proof (resync_loop_pending fuel env (tick_budget m) 0 m
                ltac:(lia) Hhi) as Hloop.
  unfold trace_of, dev_of in Hloop.
  destruct (negb (conn_eqb _ _)); simpl;
    destruct (resync_loop fuel env (tick_budget m) 0 m) as [[x m1] t1];
    cbn [fst snd] in *; destruct Hloop as (Hcnt & Hinc & Hdec);
    (destruct x as [[r| |]|]; simpl;
     [| |destruct (bm_bits env <=? bm_resync_fo m1); simpl|];
     rewrite ?app_nil_r; tally; repeat split; lia).
Qed.

Lemma ov_tick_pending env cancel m :
  0 <= rs_pending_cnt m -> tick_number m <= INT_MAX ->
  pending_balanced m (w_make_ov_request env cancel m).
Proof.
  intros Hp Hn. unfold pending_balanced, w_make_ov_request.
  destruct cancel; [no_events|].
  run_scan.
  destruct (conn_ltb _ _); simpl; [no_events|].
  destruct (rs_pending_cnt m >? tick_number m) eqn:Hgt; simpl;
    [no_events|].
  rewrite Z.gtb_ltb in Hgt. apply Z.ltb_ge in Hgt.
  pose proof (tick_budget_plain m ltac:(lia) Hn) as Hb.
  assert (Hhi : rs_pending_cnt m + Z.of_nat (Z.to_nat (tick_budget m))
                <= INT_MAX) by lia.
  pose proof (ov_loop_pending (Z.to_nat (tick_budget m)) env (ov_position m) m
                ltac:(lia) Hhi) as Hloop.
  unfold trace_of, dev_of in Hloop.
  destruct (ov_loop _ env (ov_position m) m) as [[[x sector] m1] t1].
  cbn [fst snd] in *. destruct Hloop as (Hcnt & Hinc & Hdec).
  destruct x as [r| |]; simpl; rewrite ?app_nil_r; tally; repeat split; lia.
Qed.

(** *** The clamp to the capacity *)









(** *** The budget of a tick *)

(** C5 (as amended).  The requests a resync or verify tick issues number at
    most the budget: [SLEEP_TIME * rate / ((BM_BLOCK_SIZE/1024) * HZ)] less
    the requests pending.  The budget is looked at by a tick that is not
    cancelled, finds the connection at least [Connected] and, for the
    resync tick, gets the local disk.  Such a tick with a negative budget
    issues nothing and only re-arms the timer.  So does such a tick with a
    budget of zero, with one exception: the resync tick that finds its
    cursor at the end of the bitmap goes inactive and does not re-arm the
    timer.  The ticks that do not come to the budget issue nothing and do
    not re-arm the timer, whatever the budget: a cancelled tick returns 1
    at once, a tick below [Connected] logs an error and returns 0, and a
    resync tick without the local disk goes inactive.  The verify tick
    always returns; the resync tick returns once the fuel covers the budget
    and the bits left to scan. *)
Theorem C5_tick_budget fuel env cancel m :
  let rs := w_make_resync_request (S fuel) env cancel m in
  let ov := w_make_ov_request env cancel m in
  (Z.of_nat (length (requests (trace_of rs))) <= Z.max 0 (tick_budget m) /\
   Z.of_nat (length (requests (trace_of ov))) <= Z.max 0 (tick_budget m)) /\
  (0 <= rs_pending_cnt m <= tick_number m -> tick_number m <= INT_MAX ->
     tick_budget m = tick_number m - rs_pending_cnt m) /\
  (find_next_sound env -> 0 <= BM_BLOCK_SIZE_B ->
   (resync_fuel env m <= S fuel)%nat ->
     result_of rs <> None) /\
  (cancel = false -> conn_ltb (conn (state m)) Connected = false ->
   tick_number m < rs_pending_cnt m ->
     (scan_inc_local_ok env = true ->
        requests (trace_of rs) = [] /\ mod_timers (trace_of rs) = 1 /\
        dev_of rs = m /\ result_of rs = Some 1) /\
     (requests (trace_of ov) = [] /\ mod_timers (trace_of ov) = 1 /\
      dev_of ov = m /\ result_of ov = 1)) /\
  (cancel = false -> conn_ltb (conn (state m)) Connected = false ->
   rs_pending_cnt m = tick_number m ->
     tick_budget m = 0 /\
     (scan_inc_local_ok env = true ->
        requests (trace_of rs) = [] /\ result_of rs = Some 1 /\
        (bm_resync_fo m < bm_bits env ->
           mod_timers (trace_of rs) = 1 /\ dev_of rs = m) /\
        (bm_bits env <= bm_resync_fo m ->
           mod_timers (trace_of rs) = 0 /\
           dev_of rs = set_resync_work_cb cb_w_resync_inactive m)) /\
     (requests (trace_of ov) = [] /\ mod_timers (trace_of ov) = 1 /\
      dev_of ov = m /\ result_of ov = 1)) /\
  (cancel = true ->
     rs = (Some 1, m, []) /\ ov = (1, m, [])) /\
  (cancel = false -> conn_ltb (conn (state m)) Connected = true ->
     (requests (trace_of rs) = [] /\ mod_timers (trace_of rs) = 0 /\
      dev_of rs = m /\ result_of rs = Some 0) /\
     (requests (trace_of ov) = [] /\ mod_timers (trace_of ov) = 0 /\
      dev_of ov = m /\ result_of ov = 0)) /\
  (cancel = false -> conn_ltb (conn (state m)) Connected = false ->
   scan_inc_local_ok env = false ->
     requests (trace_of rs) = [] /\ mod_timers (trace_of rs) = 0 /\
     dev_of rs = set_resync_work_cb cb_w_resync_inactive m /\
     result_of rs = Some 1).
Proof.
  intros rs ov. subst rs ov.
  split; [split; [apply resync_tick_requests | apply ov_tick_requests]|].
  split; [apply tick_budget_plain|].
  split; [apply resync_tick_returns|].
  split; [|split; [|split; [|split]]].
  - intros -> Hconn Hneg.
    assert (Hgt : (rs_pending_cnt m >? tick_number m) = true)
      by (rewrite Z.gtb_ltb; now apply Z.ltb_lt).
    split.
    + intros Hloc. unfold w_make_resync_request. run_scan.
      rewrite Hconn, Hloc, Hgt. simpl.
      destruct (negb (conn_eqb _ _)); simpl; repeat split; reflexivity.
    + unfold w_make_ov_request. run_scan. rewrite Hconn, Hgt. simpl.
      repeat split; reflexivity.
  - intros -> Hconn Heq.
    assert (Hgt : (rs_pending_cnt m >? tick_number m) = false)
      by (rewrite Z.gtb_ltb; apply Z.ltb_ge; lia).
    assert (Hb : tick_budget m = 0)
      by (unfold tick_budget; rewrite Heq, Z.sub_diag; reflexivity).
    split; [exact Hb|]. split.
    + intros Hloc. unfold w_make_resync_request. run_scan.
      rewrite Hconn, Hloc, Hgt, Hb. simpl.
      destruct (negb (conn_eqb _ _)); simpl;
        (destruct (bm_bits env <=? bm_resync_fo m) eqn:Hfo; simpl;
         [apply Z.leb_le in Hfo | apply Z.leb_gt in Hfo];
         repeat split; intros; try reflexivity; lia).
    + unfold w_make_ov_request. run_scan. rewrite Hconn, Hgt, Hb. simpl.
      rewrite set_ov_position_same. repeat split; reflexivity.
  - intros ->. split; reflexivity.
  - intros -> Hconn. split.
    + unfold w_make_resync_request. run_scan. rewrite Hconn. simpl.
      repeat split; reflexivity.
    + unfold w_make_ov_request. run_scan. rewrite Hconn. simpl.
      repeat split; reflexivity.
  - intros -> Hconn Hloc. unfold w_make_resync_request. run_scan.
    rewrite Hconn, Hloc. simpl.
    destruct (negb (conn_eqb _ _)); simpl; repeat split; reflexivity.
Qed.

(** *** A bitmap given as a list *)

Lemma find_from_sound l pos bit :
  find_from l pos = Some bit -> pos <= bit < pos + Z.of_nat (length l).
Proof.
  revert pos. induction l as [|b l IH]; intros pos; simpl; [discriminate|].
  destruct b.
  - intros E; injection E as <-. lia.
  - intros E. apply IH in E. lia.
Qed.

Lemma list_find_next_sound bits fo bit :
  list_find_next bits fo = Some bit ->
  fo <= bit /\ 0 <= bit < Z.of_nat (length bits).
Proof.
  unfold list_find_next. destruct (fo <? 0) eqn:Hfo; [discriminate|].
  apply Z.ltb_ge in Hfo. intros E. apply find_from_sound in E.
  rewrite length_skipn in E. lia.
Qed.

End Facts.

Lemma env_small_sound bad : find_next_sound (env_small bad).
Proof. intros fo bit E. apply list_find_next_sound in E. exact E. Qed.




(** The specification's wording fails on a resync tick whose budget is zero
    and whose cursor is at the end of the bitmap: the tick does not re-arm
    the timer, it sets the resync work inactive. *)
Lemma C5_zero_budget_goes_inactive :
  let out := w_make_resync_request 1 (env_small []) false
               mdev_sync_target_waiting in
  tick_budget mdev_sync_target_waiting = 0 /\
  result_of out = Some 1 /\
  mod_timers (trace_of out) = 0 /\
  resync_work_cb mdev_sync_target_waiting = cb_w_make_resync_request /\
  resync_work_cb (dev_of out) = cb_w_resync_inactive.
Proof. vm_compute. repeat split; reflexivity. Qed.

End ScanTick.

(** ** The counter of pending resync acknowledgments *)

Module PendingCounter.
Section Facts.
Context `{KernelConfig}.

Ltac run_reply :=
  unfold pending_uncompensated, pending_after_send,
    w_e_end_csum_rs_req, w_e_end_rsdata_req, w_e_send_csum,
    w_e_end_ov_req, cancelled, keep_or_free, drbd_send_block, drbd_send_ack,
    drbd_send_drequest_csum, inc_rs_pending, dec_rs_pending, dec_unacked,
    when, bind, get, modify, emit, ret, dev_of, trace_of, result_of; simpl.

Ltac split_ifs :=
  repeat (match goal with
          | |- context [if ?b then _ else _] => destruct b eqn:?
          | |- context [match ?o with Some _ => _ | None => _ end] =>
              destruct o eqn:?
          end; simpl).

Ltac tally :=
  unfold sends_ok, sends_failed, incs, decs, count; simpl.

Ltac settle m :=
  rewrite ?(wrap_int_small (rs_pending_cnt m + 1)) by (unfold INT_MAX; lia);
  tally; repeat split; lia.

Lemma w_e_send_csum_pending env e cancel m :
  - 2147483648 <= rs_pending_cnt m < INT_MAX ->
  pending_uncompensated m (w_e_send_csum env e cancel m).
Proof.
  intros Hcnt. unfold INT_MAX in Hcnt. run_reply.
  destruct cancel; simpl; [settle m|].
  destruct (send_ok env); split_ifs; settle m.
Qed.

Lemma w_e_end_rsdata_req_pending env e cancel m :
  - 2147483648 <= rs_pending_cnt m < INT_MAX ->
  pending_uncompensated m (w_e_end_rsdata_req env e cancel m).
Proof.
  intros Hcnt. unfold INT_MAX in Hcnt. run_reply.
  destruct cancel; simpl; [settle m|].
  destruct (send_ok env); split_ifs; settle m.
Qed.

Lemma w_e_end_csum_rs_req_pending env e cancel m :
  - 2147483648 <= rs_pending_cnt m < INT_MAX ->
  pending_uncompensated m (w_e_end_csum_rs_req env e cancel m).
Proof.
  intros Hcnt. unfold INT_MAX in Hcnt. run_reply.
  destruct cancel; simpl; [settle m|].
  destruct (send_ok env); split_ifs; settle m.
Qed.

Lemma w_e_end_ov_req_pending env e cancel m :
  - 2147483648 <= rs_pending_cnt m < INT_MAX ->
  pending_after_send m (w_e_end_ov_req env e cancel m).
Proof.
  intros Hcnt. unfold INT_MAX in Hcnt. run_reply.
  destruct cancel; simpl; [settle m|].
  destruct (send_ok env); split_ifs; settle m.
Qed.

(** C8 (as amended).  What the worker does to [rs_pending_cnt], on a
    counter that is not negative.  The two scan ticks raise it once before
    each request and lower it once right after a request that failed to go
    out, so over a tick it grows by the number of requests sent.  The verify
    reply raises it once after the digest has gone out.  The checksum
    request and the two resync replies raise it once before the send and do
    not lower it when the send fails.  Nowhere is it lowered otherwise, so
    it never falls below its value at the start. *)
Theorem C8_pending_counter fuel senv renv e cancel m :
  0 <= rs_pending_cnt m < INT_MAX ->
  tick_number m <= INT_MAX ->
  (pending_balanced m (w_make_resync_request fuel senv cancel m) /\
   pending_balanced m (w_make_ov_request senv cancel m) /\
   pending_after_send m (w_e_end_ov_req renv e cancel m) /\
   pending_uncompensated m (w_e_send_csum renv e cancel m) /\
   pending_uncompensated m (w_e_end_rsdata_req renv e cancel m) /\
   pending_uncompensated m (w_e_end_csum_rs_req renv e cancel m)) /\
  (0 <= rs_pending_cnt m
     <= rs_pending_cnt (dev_of (w_make_resync_request fuel senv cancel m)) /\
   rs_pending_cnt m
     <= rs_pending_cnt (dev_of (w_make_ov_request senv cancel m)) /\
   rs_pending_cnt m
     <= rs_pending_cnt (dev_of (w_e_end_ov_req renv e cancel m)) /\
   rs_pending_cnt m
     <= rs_pending_cnt (dev_of (w_e_send_csum renv e cancel m)) /\
   rs_pending_cnt m
     <= rs_pending_cnt (dev_of (w_e_end_rsdata_req renv e cancel m)) /\
   rs_pending_cnt m
     <= rs_pending_cnt (dev_of (w_e_end_csum_rs_req renv e cancel m))).
Proof.
  intros Hcnt Hnum.
  pose proof (ScanTick.resync_tick_pending fuel senv cancel m
                (proj1 Hcnt) Hnum) as Hrs.
  pose proof (ScanTick.ov_tick_pending senv cancel m (proj1 Hcnt) Hnum) as Hov.
  pose proof (w_e_end_ov_req_pending renv e cancel m ltac:(lia)) as Hovr.
  pose proof (w_e_send_csum_pending renv e cancel m ltac:(lia)) as Hcs.
  pose proof (w_e_end_rsdata_req_pending renv e cancel m ltac:(lia)) as Hrd.
  pose proof (w_e_end_csum_rs_req_pending renv e cancel m ltac:(lia)) as Hcr.
  split.
  { exact (conj Hrs (conj Hov (conj Hovr (conj Hcs (conj Hrd Hcr))))). }
  pose proof (fun p t => ScanTick.count_nonneg p t) as Hpos.
  destruct Hrs as (Hrs & _), Hov as (Hov & _), Hovr as (Hovr & _),
    Hcs as (Hcs & _), Hrd as (Hrd & _), Hcr as (Hcr & _).
  rewrite Hrs, Hov, Hovr, Hcs, Hrd, Hcr.
  unfold sends_ok, incs.
  repeat match goal with
         | |- context [count ?p ?t] =>
             let c := fresh "c" in
             pose proof (Hpos p t);
             set (c := count p t) in *; clearbody c
         end.
  lia.
Qed.

End Facts.

(** The specification's wording fails where the checksum request cannot be
    sent: the counter has been raised, the send fails, and nothing lowers
    it again. *)
Lemma C8_send_failure_uncompensated :
  let out := w_e_send_csum env_link_down ee_csum_read false mdev_csum_target in
  rs_pending_cnt mdev_csum_target = 0 /\
  sends_failed (trace_of out) = 1 /\ sends_ok (trace_of out) = 0 /\
  incs (trace_of out) = 1 /\ decs (trace_of out) = 0 /\
  rs_pending_cnt (dev_of out) = 1 /\
  ~ pending_balanced mdev_csum_target out.
Proof.
  intros out. repeat split; try reflexivity.
  intros (Hcnt & _). vm_compute in Hcnt. discriminate Hcnt.
Qed.

(** A tick on the small device with the link failing at sector 24: one
    request sent, one failed and made up for. *)
Lemma C8_pending_counter_witness :
  let out := w_make_resync_request 50 (env_small [24]) false mdev_sync_target in
  0 <= rs_pending_cnt mdev_sync_target < INT_MAX /\
  tick_number mdev_sync_target <= INT_MAX /\
  pending_balanced mdev_sync_target out /\
  rs_pending_cnt (dev_of out) = 1.
Proof.
  intros out.
  assert (Hcnt : 0 <= rs_pending_cnt mdev_sync_target < INT_MAX)
    by (vm_compute; split; [discriminate | reflexivity]).
  assert (Hnum : tick_number mdev_sync_target <= INT_MAX)
    by (vm_compute; discriminate).
  split; [exact Hcnt|]. split; [exact Hnum|].
  split.
  - exact (proj1 (proj1 (C8_pending_counter 50 (env_small [24]) env_link_down
                           ee_csum_read false mdev_sync_target Hcnt Hnum))).
  - vm_compute. reflexivity.
Defined.

End PendingCounter.

(** ** Resync order between devices *)

Module SyncAfter.
Section Facts.

(** *** Lookups *)

Lemma minor_to_mdev_nat devs i : minor_to_mdev devs (Z.of_nat i) = dev_at devs i.
Proof.
  unfold minor_to_mdev. rewrite Nat2Z.id.
  destruct (Z.of_nat i <? Z.of_nat (length devs)) eqn:Hlt.
  - assert ((0 <=? Z.of_nat i) = true) as -> by (apply Z.leb_le; lia).
    reflexivity.
  - rewrite andb_false_r. apply Z.ltb_ge in Hlt.
    unfold dev_at. rewrite lookup_ge_None_2; [reflexivity|lia].
Qed.

Lemma minor_to_mdev_Some devs minor odev :
  minor_to_mdev devs minor = Some odev ->
  0 <= minor /\ dev_at devs (Z.to_nat minor) = Some odev.
Proof.
  unfold minor_to_mdev.
  destruct (0 <=? minor) eqn:H0; simpl; [|discriminate].
  apply Z.leb_le in H0.
  destruct (minor <? _); [|discriminate]. intros E. split; assumption.
Qed.

Lemma dev_at_insert devs i odev :
  (i < length devs)%nat -> dev_at (<[i := Some odev]> devs) i = Some odev.
Proof.
  intros Hi. unfold dev_at. now rewrite list_lookup_insert_eq.
Qed.

Lemma dev_at_insert_ne devs i j o :
  i <> j -> dev_at (<[i := o]> devs) j = dev_at devs j.
Proof.
  intros Hne. unfold dev_at. now rewrite list_lookup_insert_ne.
Qed.

Lemma dev_at_length devs i odev :
  dev_at devs i = Some odev -> (i < length devs)%nat.
Proof.
  unfold dev_at. destruct (devs !! i) eqn:E; [|discriminate].
  intros _. apply lookup_lt_Some in E. exact E.
Qed.

Lemma insert_same devs i odev :
  dev_at devs i = Some odev -> <[i := Some odev]> devs = devs.
Proof.
  unfold dev_at. destruct (devs !! i) as [[x|]|] eqn:E; try discriminate.
  intros [= ->]. now apply list_insert_id.
Qed.

(** *** The walk along the chain *)

Lemma may_sync_now_step fuel devs odev :
  _drbd_may_sync_now (S fuel) devs odev =
    match prerequisite devs odev with
    | None => Some true
    | Some p =>
        if holds_back p then Some false else _drbd_may_sync_now fuel devs p
    end.
Proof.
  simpl. unfold prerequisite.
  destruct (after (sync_conf odev) =? -1); [reflexivity|].
  destruct (minor_to_mdev devs _); reflexivity.
Qed.

Lemma on_chain_inv devs odev q :
  on_chain devs odev q ->
  exists p, prerequisite devs odev = Some p /\ (q = p \/ on_chain devs p q).
Proof.
  intros Hc. destruct Hc as [odev p Hp | odev p q Hp Hq].
  - exists p. split; [exact Hp | now left].
  - exists p. split; [exact Hp | now right].
Qed.

(** C2 (as amended).  Where the chain of prerequisites of a device ends (at
    a device without prerequisite or at a minor that is not in use),
    [_drbd_may_sync_now] returns, and it returns true if and only if no
    device on the chain -- the prerequisite, its prerequisite, and so on --
    is in a resync state ([SyncSource] .. [PausedSyncT]) or has one of its
    three pause flags set. *)
Theorem C2_may_sync_now_chain fuel devs odev :
  chain_ends fuel devs odev = true ->
  exists b, _drbd_may_sync_now fuel devs odev = Some b /\
    (b = true <-> forall p, on_chain devs odev p -> holds_back p = false).
Proof.
  revert odev. induction fuel as [|fuel IH]; intros odev Hends;
    [discriminate|].
  rewrite may_sync_now_step. simpl in Hends.
  destruct (prerequisite devs odev) as [p|] eqn:Hp.
  - destruct (holds_back p) eqn:Hhold.
    + exists false. split; [reflexivity|]. split; [discriminate|].
      intros Hall. rewrite (Hall p (chain_first devs odev p Hp)) in Hhold.
      discriminate.
    + destruct (IH p Hends) as (b & Hb & Hiff).
      exists b. split; [exact Hb|]. rewrite Hiff. split.
      * intros Hall q Hq. apply on_chain_inv in Hq as (p' & Hp' & Hq).
        rewrite Hp in Hp'. injection Hp' as <-.
        destruct Hq as [->|Hq]; [exact Hhold | now apply Hall].
      * intros Hall q Hq. apply Hall. eapply chain_next; eassumption.
  - exists true. split; [reflexivity|]. split; [|reflexivity].
    intros _ q Hq. apply on_chain_inv in Hq as (p' & Hp' & _).
    rewrite Hp in Hp'. discriminate.
Qed.

(** *** Tables that differ in dependency pause flags only *)

Lemma with_aftr_isp_same odev :
  with_aftr_isp (aftr_isp (state odev)) odev = odev.
Proof. destruct odev as [s]. destruct s. reflexivity. Qed.

Lemma frame_with_aftr_isp v odev : frame (with_aftr_isp v odev) = frame odev.
Proof. reflexivity. Qed.

Lemma frame_eq_fields x y :
  frame x = frame y ->
  sync_conf x = sync_conf y /\
  conn (state x) = conn (state y) /\ disk (state x) = disk (state y) /\
  peer_isp (state x) = peer_isp (state y) /\
  user_isp (state x) = user_isp (state y) /\
  y = with_aftr_isp (aftr_isp (state y)) x.
Proof.
  destruct x as [sx]. destruct sx. destruct y as [sy]. destruct sy.
  unfold frame, with_aftr_isp. simpl. intros E. injection E as; subst.
  repeat split; reflexivity.
Qed.

Lemma frame_eq_unconfigured x y :
  frame x = frame y -> unconfigured x = unconfigured y.
Proof.
  intros E. apply frame_eq_fields in E as (_ & Hc & Hd & _).
  unfold unconfigured. now rewrite Hc, Hd.
Qed.

Lemma frame_eq_holds_back_flag x y :
  frame x = frame y -> aftr_isp (state x) = aftr_isp (state y) -> x = y.
Proof.
  intros E Hf. apply frame_eq_fields in E as (_ & _ & _ & _ & _ & ->).
  rewrite <- Hf. symmetry. apply with_aftr_isp_same.
Qed.

Lemma same_frame_refl devs : same_frame devs devs.
Proof. reflexivity. Qed.

Lemma same_frame_trans a b c : same_frame a b -> same_frame b c -> same_frame a c.
Proof. unfold same_frame. congruence. Qed.

Lemma same_frame_sym a b : same_frame a b -> same_frame b a.
Proof. unfold same_frame. congruence. Qed.

Lemma same_frame_length devs devs' :
  same_frame devs devs' -> length devs = length devs'.
Proof.
  unfold same_frame. intros E.
  rewrite <- (length_fmap frame_opt devs), E. apply length_fmap.
Qed.

Lemma same_frame_dev_at devs devs' i :
  same_frame devs devs' ->
  match dev_at devs i, dev_at devs' i with
  | Some x, Some y => frame x = frame y
  | None, None => True
  | _, _ => False
  end.
Proof.
  unfold same_frame, dev_at. intros E.
  assert (Hi : (frame_opt <$> devs) !! i = (frame_opt <$> devs') !! i)
    by now rewrite E.
  rewrite !list_lookup_fmap in Hi.
  destruct (devs !! i) as [[x|]|], (devs' !! i) as [[y|]|];
    simpl in Hi; try discriminate; try exact I.
  simpl. congruence.
Qed.

Lemma same_frame_insert devs i x v :
  dev_at devs i = Some x ->
  same_frame devs (<[i := Some (with_aftr_isp v x)]> devs).
Proof.
  unfold same_frame, dev_at. intros Hx.
  destruct (devs !! i) as [[x'|]|] eqn:E; try discriminate.
  injection Hx as ->.
  rewrite list_fmap_insert. simpl. rewrite frame_with_aftr_isp.
  symmetry. apply list_insert_id. rewrite list_lookup_fmap, E. reflexivity.
Qed.

Lemma same_frame_minor devs devs' minor :
  same_frame devs devs' ->
  match minor_to_mdev devs minor, minor_to_mdev devs' minor with
  | Some x, Some y => frame x = frame y
  | None, None => True
  | _, _ => False
  end.
Proof.
  intros Hsame. unfold minor_to_mdev.
  rewrite <- (same_frame_length _ _ Hsame).
  destruct (_ && _); [|exact I].
  now apply same_frame_dev_at.
Qed.

Lemma same_frame_prerequisite devs devs' x y :
  same_frame devs devs' -> frame x = frame y ->
  match prerequisite devs x, prerequisite devs' y with
  | Some p, Some q => frame p = frame q
  | None, None => True
  | _, _ => False
  end.
Proof.
  intros Hsame Hxy. unfold prerequisite.
  apply frame_eq_fields in Hxy as (<- & _).
  destruct (_ =? -1); [exact I|].
  now apply same_frame_minor.
Qed.

Lemma chain_ends_frame n devs devs' x y :
  same_frame devs devs' -> frame x = frame y ->
  chain_ends n devs x = chain_ends n devs' y.
Proof.
  intros Hsame. revert x y. induction n as [|n IH]; intros x y Hxy; simpl;
    [reflexivity|].
  pose proof (same_frame_prerequisite devs devs' x y Hsame Hxy) as Hp.
  destruct (prerequisite devs x), (prerequisite devs' y);
    try contradiction; [|reflexivity].
  now apply IH.
Qed.

Lemma chain_ends_mono n n' devs x :
  (n <= n')%nat -> chain_ends n devs x = true -> chain_ends n' devs x = true.
Proof.
  revert n' x. induction n as [|n IH]; intros n' x Hle; [discriminate|].
  destruct n' as [|n']; [lia|]. simpl.
  destruct (prerequisite devs x); [|reflexivity].
  apply IH. lia.
Qed.

Lemma may_sync_now_total fuel devs x :
  chain_ends fuel devs x = true ->
  exists b, _drbd_may_sync_now fuel devs x = Some b.
Proof.
  revert x. induction fuel as [|fuel IH]; intros x Hends; [discriminate|].
  rewrite may_sync_now_step. simpl in Hends.
  destruct (prerequisite devs x) as [p|]; [|now exists true].
  destruct (holds_back p); [now exists false|]. now apply IH.
Qed.

Lemma acyclic_spec devs :
  acyclic devs = true <->
  forall i x, dev_at devs i = Some x ->
    chain_ends (length devs) devs x = true.
Proof.
  unfold acyclic. rewrite forallb_forall. split.
  - intros Hall i x Hx. unfold dev_at in Hx.
    destruct (devs !! i) as [[x'|]|] eqn:E; try discriminate.
    injection Hx as ->.
    apply (Hall (Some x)). apply list_elem_of_In.
    eapply list_elem_of_lookup_2. exact E.
  - intros Hall [x|] Hin; [|reflexivity].
    apply list_elem_of_In, list_elem_of_lookup_1 in Hin as [i Hi].
    apply (Hall i). unfold dev_at. now rewrite Hi.
Qed.

Lemma acyclic_frame devs devs' :
  same_frame devs devs' -> acyclic devs = true -> acyclic devs' = true.
Proof.
  intros Hsame Hac. apply acyclic_spec. intros i y Hy.
  pose proof (same_frame_dev_at devs devs' i Hsame) as Hi. rewrite Hy in Hi.
  destruct (dev_at devs i) as [x|] eqn:Hx; [|contradiction].
  rewrite <- (same_frame_length _ _ Hsame).
  rewrite <- (chain_ends_frame _ devs devs' x y Hsame Hi).
  eapply acyclic_spec; eassumption.
Qed.

(** *** Eligibility looks at the chain only *)

Lemma low_eq_refl n devs : low_eq n devs devs.
Proof. split; [apply same_frame_refl | auto]. Qed.

Lemma low_eq_trans n a b c : low_eq n a b -> low_eq n b c -> low_eq n a c.
Proof.
  intros [Hab Lab] [Hbc Lbc]. split; [eapply same_frame_trans; eassumption|].
  intros i x Hx Hends. apply Lbc; [now apply Lab|].
  rewrite <- (chain_ends_frame n a b x x Hab eq_refl). exact Hends.
Qed.

Lemma low_eq_prerequisite n devs devs' x y p :
  low_eq n devs devs' -> frame x = frame y ->
  prerequisite devs x = Some p -> chain_ends n devs p = true ->
  prerequisite devs' y = Some p.
Proof.
  intros [Hsame Hlow] Hxy Hp Hends. unfold prerequisite in *.
  apply frame_eq_fields in Hxy as (<- & _).
  destruct (after (sync_conf x) =? -1); [discriminate|].
  apply minor_to_mdev_Some in Hp as [H0 Hp].
  unfold minor_to_mdev.
  assert (Hlen : (Z.to_nat (after (sync_conf x)) < length devs')%nat).
  { rewrite <- (same_frame_length _ _ Hsame). eapply dev_at_length, Hp. }
  assert (((0 <=? after (sync_conf x))
           && (after (sync_conf x) <? Z.of_nat (length devs'))) = true) as ->.
  { apply andb_true_iff. split; [apply Z.leb_le | apply Z.ltb_lt]; lia. }
  now apply Hlow.
Qed.

Lemma may_sync_now_low_eq fuel n devs devs' x y :
  low_eq n devs devs' -> frame x = frame y ->
  chain_ends (S n) devs x = true ->
  _drbd_may_sync_now fuel devs' y = _drbd_may_sync_now fuel devs x.
Proof.
  intros Hlow. revert x y. induction fuel as [|fuel IH]; intros x y Hxy Hends;
    [reflexivity|].
  rewrite !may_sync_now_step. simpl in Hends.
  destruct (prerequisite devs x) as [p|] eqn:Hp.
  - rewrite (low_eq_prerequisite n devs devs' x y p Hlow Hxy Hp Hends).
    destruct (holds_back p); [reflexivity|].
    apply IH; [reflexivity|]. eapply chain_ends_mono; [|exact Hends]. lia.
  - pose proof (same_frame_prerequisite devs devs' x y (proj1 Hlow) Hxy) as Hq.
    rewrite Hp in Hq. destruct (prerequisite devs' y); [contradiction|].
    reflexivity.
Qed.

(** *** One visit *)

Lemma pause_visit_eq fuel i devs rv :
  pause_visit fuel i (devs, rv) =
    match dev_at devs i with
    | None => Some (devs, rv)
    | Some x =>
        if unconfigured x then Some (devs, rv)
        else
          match _drbd_may_sync_now fuel devs x with
          | None => None
          | Some true => Some (devs, rv)
          | Some false =>
              Some (<[i := Some (with_aftr_isp true x)]> devs,
                    rv || negb (aftr_isp (state x)))
          end
    end.
Proof.
  unfold pause_visit. rewrite minor_to_mdev_nat.
  destruct (dev_at devs i) as [x|]; [|reflexivity].
  destruct (unconfigured x); [reflexivity|].
  destruct (_drbd_may_sync_now fuel devs x) as [[|]|]; try reflexivity.
  unfold __drbd_set_state_aftr_isp. now destruct (aftr_isp (state x)).
Qed.

Lemma resume_visit_eq fuel i devs rv :
  resume_visit fuel i (devs, rv) =
    match dev_at devs i with
    | None => Some (devs, rv)
    | Some x =>
        if unconfigured x then Some (devs, rv)
        else if aftr_isp (state x) then
          match _drbd_may_sync_now fuel devs x with
          | None => None
          | Some false => Some (devs, rv)
          | Some true =>
              Some (<[i := Some (with_aftr_isp false x)]> devs, true)
          end
        else Some (devs, rv)
    end.
Proof.
  unfold resume_visit. rewrite minor_to_mdev_nat.
  destruct (dev_at devs i) as [x|]; [|reflexivity].
  destruct (unconfigured x); [reflexivity|].
  destruct (aftr_isp (state x)) eqn:Hf; [|reflexivity].
  destruct (_drbd_may_sync_now fuel devs x) as [[|]|]; try reflexivity.
  unfold __drbd_set_state_aftr_isp. rewrite Hf. simpl.
  now rewrite orb_true_r.
Qed.

Lemma pause_visit_tame fuel : tame fuel (pause_visit fuel).
Proof.
  intros i devs rv devs' rv'. rewrite pause_visit_eq.
  destruct (dev_at devs i) as [x|] eqn:Hx.
  2: { intros [= <- <-]. now left. }
  destruct (unconfigured x) eqn:Hun.
  { intros [= <- <-]. now left. }
  destruct (_drbd_may_sync_now fuel devs x) as [[|]|] eqn:Hmay;
    [intros [= <- <-]; now left | | discriminate].
  intros [= <- <-]. destruct (aftr_isp (state x)) eqn:Hf.
  - left. rewrite orb_false_r. split; [|reflexivity].
    rewrite <- Hf, with_aftr_isp_same. now apply insert_same.
  - right. exists x, false. rewrite orb_true_r. repeat split; assumption.
Qed.

Lemma resume_visit_tame fuel : tame fuel (resume_visit fuel).
Proof.
  intros i devs rv devs' rv'. rewrite resume_visit_eq.
  destruct (dev_at devs i) as [x|] eqn:Hx.
  2: { intros [= <- <-]. now left. }
  destruct (unconfigured x) eqn:Hun.
  { intros [= <- <-]. now left. }
  destruct (aftr_isp (state x)) eqn:Hf.
  2: { intros [= <- <-]. now left. }
  destruct (_drbd_may_sync_now fuel devs x) as [[|]|] eqn:Hmay;
    [| intros [= <- <-]; now left | discriminate].
  intros [= <- <-]. right. exists x, true. repeat split; assumption.
Qed.

Section Tame.

Variable fuel : nat.
Variable visit : nat -> list (option drbd_conf) * bool ->
                 option (list (option drbd_conf) * bool).
Hypothesis visit_tame : tame fuel visit.

Lemma visit_frame i devs rv devs' rv' :
  visit i (devs, rv) = Some (devs', rv') ->
  same_frame devs devs' /\
  (forall j, j <> i -> dev_at devs' j = dev_at devs j) /\
  (rv' = false -> rv = false /\ devs' = devs).
Proof.
  intros Hv. apply visit_tame in Hv
    as [[-> ->] | (x & b & Hx & _ & _ & _ & -> & ->)].
  - split; [apply same_frame_refl|]. split; [reflexivity|]. auto.
  - split; [now apply same_frame_insert|]. split.
    + intros j Hj. apply dev_at_insert_ne. congruence.
    + discriminate.
Qed.

(** A visit leaves alone the devices whose flag agrees already. *)
Lemma visit_low n i devs rv devs' rv' :
  stable fuel n devs ->
  visit i (devs, rv) = Some (devs', rv') ->
  low_eq n devs devs'.
Proof.
  intros Hst Hv. pose proof (visit_frame _ _ _ _ _ Hv) as (Hsame & Hother & _).
  split; [exact Hsame|]. intros j y Hy Hends.
  destruct (Nat.eq_dec j i) as [->|Hne]; [|now rewrite Hother].
  apply visit_tame in Hv as [[-> ->] | (x & b & Hx & Hun & Hmay & Hf & -> & _)];
    [exact Hy|].
  rewrite Hx in Hy. injection Hy as ->.
  specialize (Hst i y Hx Hun Hends). unfold flag_agrees in Hst.
  rewrite Hmay in Hst. injection Hst as Hb. rewrite Hf in Hb.
  destruct b; discriminate.
Qed.

Lemma stable_low_eq n devs devs' :
  low_eq n devs devs' -> stable fuel n devs -> stable fuel n devs'.
Proof.
  intros Hlow Hst i y Hy Hun Hends.
  pose proof (same_frame_dev_at devs devs' i (proj1 Hlow)) as Hi.
  rewrite Hy in Hi. destruct (dev_at devs i) as [x|] eqn:Hx; [|contradiction].
  assert (Hends' : chain_ends n devs x = true)
    by now rewrite (chain_ends_frame n devs devs' x y (proj1 Hlow) Hi).
  pose proof (proj2 Hlow i x Hx Hends') as Hy'. rewrite Hy in Hy'.
  injection Hy' as ->.
  unfold flag_agrees.
  rewrite (may_sync_now_low_eq fuel n devs devs' x x Hlow eq_refl).
  - now apply (Hst i).
  - eapply chain_ends_mono; [|exact Hends']. lia.
Qed.

Lemma pass_low n minors devs rv devs' rv' :
  stable fuel n devs ->
  for_minors visit minors (devs, rv) = Some (devs', rv') ->
  low_eq n devs devs' /\ stable fuel n devs'.
Proof.
  revert devs rv. induction minors as [|i minors IH]; intros devs rv Hst; simpl.
  - intros [= <- <-]. split; [apply low_eq_refl | exact Hst].
  - destruct (visit i (devs, rv)) as [[devs1 rv1]|] eqn:Hv; [|discriminate].
    intros Hrest.
    pose proof (visit_low n _ _ _ _ _ Hst Hv) as Hlow1.
    pose proof (stable_low_eq n _ _ Hlow1 Hst) as Hst1.
    destruct (IH devs1 rv1 Hst1 Hrest) as [Hlow2 Hst2].
    split; [eapply low_eq_trans; eassumption | exact Hst2].
Qed.

(** A pass that reports no change has changed nothing, and each of its
    visits would do the same on the table as it is. *)
Lemma pass_unchanged minors devs rv devs' :
  for_minors visit minors (devs, rv) = Some (devs', false) ->
  rv = false /\ devs' = devs /\
  forall i, In i minors -> visit i (devs, false) = Some (devs, false).
Proof.
  revert devs rv. induction minors as [|i minors IH]; intros devs rv; simpl.
  - intros [= <- <-]. repeat split. intros i [].
  - destruct (visit i (devs, rv)) as [[devs1 rv1]|] eqn:Hv; [|discriminate].
    intros Hrest. destruct (IH devs1 rv1 Hrest) as (-> & -> & Hall).
    destruct (visit_frame _ _ _ _ _ Hv) as (_ & _ & Hsame).
    destruct (Hsame eq_refl) as [-> ->].
    repeat split. intros j [<-|Hj]; [exact Hv | now apply Hall].
Qed.

Lemma pass_frame minors devs rv devs' rv' :
  for_minors visit minors (devs, rv) = Some (devs', rv') ->
  same_frame devs devs'.
Proof.
  revert devs rv. induction minors as [|i minors IH]; intros devs rv; simpl.
  - intros [= <- <-]. apply same_frame_refl.
  - destruct (visit i (devs, rv)) as [[devs1 rv1]|] eqn:Hv; [|discriminate].
    intros Hrest. eapply same_frame_trans.
    + exact (proj1 (visit_frame _ _ _ _ _ Hv)).
    + eapply IH, Hrest.
Qed.

(** A visit leaves alone the devices that are not configured. *)
Lemma visit_keeps_unconfigured i devs rv devs' rv' :
  visit i (devs, rv) = Some (devs', rv') ->
  forall j x, dev_at devs j = Some x -> unconfigured x = true ->
    dev_at devs' j = Some x.
Proof.
  intros Hv j x Hx Hun. apply visit_tame in Hv
    as [[-> ->] | (y & b & Hy & Hyun & _ & _ & -> & ->)]; [exact Hx|].
  destruct (Nat.eq_dec i j) as [->|Hne].
  - rewrite Hx in Hy. injection Hy as ->. congruence.
  - rewrite dev_at_insert_ne by exact Hne. exact Hx.
Qed.

Lemma pass_keeps_unconfigured minors devs rv devs' rv' :
  for_minors visit minors (devs, rv) = Some (devs', rv') ->
  forall j x, dev_at devs j = Some x -> unconfigured x = true ->
    dev_at devs' j = Some x.
Proof.
  revert devs rv. induction minors as [|i minors IH]; intros devs rv; simpl.
  - intros [= <- <-] j x Hx _. exact Hx.
  - destruct (visit i (devs, rv)) as [[devs1 rv1]|] eqn:Hv; [|discriminate].
    intros Hrest j x Hx Hun. apply (IH _ _ Hrest); [|exact Hun].
    eapply visit_keeps_unconfigured; eassumption.
Qed.

End Tame.

(** *** One turn of the loop settles one more level *)

Section Levels.

Variable fuel n : nat.
Hypothesis fuel_covers : (S n <= fuel)%nat.

Lemma may_sync_now_step_low devs devs' i x x' :
  low_eq n devs devs' ->
  dev_at devs i = Some x -> dev_at devs' i = Some x' ->
  chain_ends (S n) devs' x' = true ->
  chain_ends (S n) devs x = true /\
  _drbd_may_sync_now fuel devs' x' = _drbd_may_sync_now fuel devs x.
Proof.
  intros Hlow Hx Hx' Hends.
  pose proof (same_frame_dev_at devs devs' i (proj1 Hlow)) as Hf.
  rewrite Hx, Hx' in Hf.
  assert (Hends0 : chain_ends (S n) devs x = true)
    by now rewrite (chain_ends_frame (S n) devs devs' x x' (proj1 Hlow) Hf).
  split; [exact Hends0|]. now apply may_sync_now_low_eq with (n := n).
Qed.

Lemma pause_step devs rv j devs1 rv1 :
  stable fuel n devs ->
  pause_visit fuel j (devs, rv) = Some (devs1, rv1) ->
  forall i, i = j \/ paused_if_held fuel (S n) devs i ->
    paused_if_held fuel (S n) devs1 i.
Proof.
  intros Hst Hv.
  pose proof (visit_low fuel _ (pause_visit_tame fuel) n _ _ _ _ _ Hst Hv)
    as Hlow.
  pose proof (visit_frame fuel _ (pause_visit_tame fuel) _ _ _ _ _ Hv)
    as (_ & Hother & _).
  rewrite pause_visit_eq in Hv.
  intros i Hi y Hy Hun Hends Hmay.
  destruct (Nat.eq_dec i j) as [->|Hne].
  - destruct (dev_at devs j) as [x|] eqn:Hx.
    2: { injection Hv as <- <-. rewrite Hx in Hy. discriminate. }
    destruct (unconfigured x) eqn:Hux.
    { injection Hv as <- <-. rewrite Hx in Hy. injection Hy as <-. congruence. }
    destruct (_drbd_may_sync_now fuel devs x) as [[|]|] eqn:Hmx;
      try discriminate.
    + injection Hv as <- <-. rewrite Hx in Hy. injection Hy as <-. congruence.
    + injection Hv as <- <-.
      rewrite dev_at_insert in Hy by (eapply dev_at_length, Hx).
      injection Hy as <-. reflexivity.
  - destruct Hi as [->|Hi]; [contradiction|].
    rewrite (Hother i Hne) in Hy.
    pose proof Hy as Hy1. rewrite <- (Hother i Hne) in Hy1.
    destruct (may_sync_now_step_low devs devs1 i y y Hlow Hy Hy1 Hends)
      as [Hends0 Hsame].
    apply (Hi y Hy Hun Hends0). now rewrite <- Hsame.
Qed.

Lemma pause_pass_holds minors devs rv devs' rv' :
  stable fuel n devs ->
  for_minors (pause_visit fuel) minors (devs, rv) = Some (devs', rv') ->
  forall i, In i minors \/ paused_if_held fuel (S n) devs i ->
    paused_if_held fuel (S n) devs' i.
Proof.
  revert devs rv. induction minors as [|j minors IH]; intros devs rv Hst;
    cbn [for_minors].
  - intros [= <- <-] i [[]|Hi]. exact Hi.
  - destruct (pause_visit fuel j (devs, rv)) as [[devs1 rv1]|] eqn:Hv;
      [|discriminate].
    intros Hrest i Hi.
    pose proof (visit_low fuel _ (pause_visit_tame fuel) n _ _ _ _ _ Hst Hv)
      as Hlow.
    pose proof (stable_low_eq fuel n _ _ Hlow Hst) as Hst1.
    pose proof (pause_step devs rv j devs1 rv1 Hst Hv) as Hstep.
    apply (IH devs1 rv1 Hst1 Hrest).
    destruct Hi as [[<-|Hi]|Hi].
    + right. apply Hstep. now left.
    + now left.
    + right. apply Hstep. now right.
Qed.

Lemma resume_step devs rv j devs1 rv1 :
  stable fuel n devs ->
  resume_visit fuel j (devs, rv) = Some (devs1, rv1) ->
  (forall i, paused_if_held fuel (S n) devs i ->
     paused_if_held fuel (S n) devs1 i) /\
  (forall i, (i = j /\ paused_if_held fuel (S n) devs j)
             \/ settled fuel (S n) devs i ->
     settled fuel (S n) devs1 i).
Proof.
  intros Hst Hv.
  pose proof (visit_low fuel _ (resume_visit_tame fuel) n _ _ _ _ _ Hst Hv)
    as Hlow.
  pose proof (visit_frame fuel _ (resume_visit_tame fuel) _ _ _ _ _ Hv)
    as (_ & Hother & _).
  rewrite resume_visit_eq in Hv.
  split.
  - intros i Hi y Hy Hun Hends Hmay.
    destruct (Nat.eq_dec i j) as [->|Hne].
    + destruct (dev_at devs j) as [x|] eqn:Hx.
      2: { injection Hv as <- <-. rewrite Hx in Hy. discriminate. }
      destruct (may_sync_now_step_low devs devs1 j x y Hlow Hx Hy Hends)
        as [Hends0 Hsame].
      destruct (unconfigured x) eqn:Hux.
      { injection Hv as <- <-. rewrite Hx in Hy. injection Hy as <-.
        congruence. }
      destruct (aftr_isp (state x)) eqn:Hfx.
      2: { injection Hv as <- <-. rewrite Hx in Hy. injection Hy as <-.
           apply (Hi x Hx Hun Hends Hmay). }
      destruct (_drbd_may_sync_now fuel devs x) as [[|]|] eqn:Hmx;
        try discriminate.
      * rewrite Hmay in Hsame. discriminate.
      * injection Hv as <- <-. rewrite Hx in Hy. injection Hy as <-.
        exact Hfx.
    + rewrite (Hother i Hne) in Hy.
      pose proof Hy as Hy1. rewrite <- (Hother i Hne) in Hy1.
      destruct (may_sync_now_step_low devs devs1 i y y Hlow Hy Hy1 Hends)
        as [Hends0 Hsame].
      apply (Hi y Hy Hun Hends0). now rewrite <- Hsame.
  - intros i Hi y Hy Hun Hends. unfold flag_agrees.
    destruct (Nat.eq_dec i j) as [->|Hne].
    + destruct (dev_at devs j) as [x|] eqn:Hx.
      2: { injection Hv as <- <-. rewrite Hx in Hy. discriminate. }
      destruct (may_sync_now_step_low devs devs1 j x y Hlow Hx Hy Hends)
        as [Hends0 Hsame].
      rewrite Hsame.
      assert (Hframe : frame x = frame y).
      { pose proof (same_frame_dev_at devs devs1 j (proj1 Hlow)) as Hf.
        now rewrite Hx, Hy in Hf. }
      assert (Hux : unconfigured x = false)
        by now rewrite (frame_eq_unconfigured x y Hframe).
      rewrite Hux in Hv.
      destruct Hi as [[_ Hheld]|Hset].
      2: { pose proof (Hset x Hx Hux Hends0) as Hag. unfold flag_agrees in Hag.
           rewrite Hag in Hv. rewrite Hag.
           destruct (aftr_isp (state x)) eqn:Hfx; simpl in Hv;
             injection Hv as <- <-; rewrite Hx in Hy; injection Hy as <-;
             now rewrite Hfx. }
      destruct (may_sync_now_total fuel devs x) as [b Hb].
      { eapply chain_ends_mono; [exact fuel_covers | exact Hends0]. }
      rewrite Hb in Hv. rewrite Hb.
      destruct (aftr_isp (state x)) eqn:Hfx.
      * destruct b.
        -- injection Hv as <- <-.
           rewrite dev_at_insert in Hy by (eapply dev_at_length, Hx).
           injection Hy as <-. reflexivity.
        -- injection Hv as <- <-. rewrite Hx in Hy. injection Hy as <-.
           now rewrite Hfx.
      * injection Hv as <- <-. rewrite Hx in Hy. injection Hy as <-.
        rewrite Hfx. destruct b; [reflexivity|].
        rewrite (Hheld x Hx Hux Hends0 Hb) in Hfx. discriminate.
    + destruct Hi as [[-> _]|Hset]; [contradiction|].
      rewrite (Hother i Hne) in Hy.
      pose proof Hy as Hy1. rewrite <- (Hother i Hne) in Hy1.
      destruct (may_sync_now_step_low devs devs1 i y y Hlow Hy Hy1 Hends)
        as [Hends0 Hsame].
      rewrite Hsame. apply (Hset y Hy Hun Hends0).
Qed.

Lemma resume_pass_settles minors devs rv devs' rv' :
  stable fuel n devs ->
  (forall i, paused_if_held fuel (S n) devs i) ->
  for_minors (resume_visit fuel) minors (devs, rv) = Some (devs', rv') ->
  forall i, In i minors \/ settled fuel (S n) devs i ->
    settled fuel (S n) devs' i.
Proof.
  revert devs rv. induction minors as [|j minors IH]; intros devs rv Hst Hheld;
    cbn [for_minors].
  - intros [= <- <-] i [[]|Hi]. exact Hi.
  - destruct (resume_visit fuel j (devs, rv)) as [[devs1 rv1]|] eqn:Hv;
      [|discriminate].
    intros Hrest i Hi.
    pose proof (visit_low fuel _ (resume_visit_tame fuel) n _ _ _ _ _ Hst Hv)
      as Hlow.
    pose proof (stable_low_eq fuel n _ _ Hlow Hst) as Hst1.
    destruct (resume_step devs rv j devs1 rv1 Hst Hv) as [Hkeep Hstep].
    apply (IH devs1 rv1 Hst1 (fun k => Hkeep k (Hheld k)) Hrest).
    destruct Hi as [[<-|Hi]|Hi].
    + right. apply Hstep. left. split; [reflexivity | apply Hheld].
    + now left.
    + right. apply Hstep. now right.
Qed.

(** A pause pass and a resume pass on a table settled up to level [n]
    leave it settled up to level [n + 1]. *)
Lemma turn_settles_next devs devs1 rv1 devs2 rv2 :
  stable fuel n devs ->
  _drbd_pause_after fuel devs = Some (devs1, rv1) ->
  _drbd_resume_next fuel devs1 = Some (devs2, rv2) ->
  stable fuel (S n) devs2.
Proof.
  unfold _drbd_pause_after, _drbd_resume_next. intros Hst Hp Hr.
  destruct (pass_low fuel _ (pause_visit_tame fuel) n _ _ _ _ _ Hst Hp)
    as [_ Hst1].
  assert (Hheld : forall i, paused_if_held fuel (S n) devs1 i).
  { intros i. destruct (Nat.lt_ge_cases i (length devs)) as [Hi|Hi].
    - apply (pause_pass_holds _ _ _ _ _ Hst Hp). left.
      apply in_seq. lia.
    - intros y Hy. apply dev_at_length in Hy.
      rewrite <- (same_frame_length _ _
                    (pass_frame fuel _ (pause_visit_tame fuel) _ _ _ _ _ Hp))
        in Hy. lia. }
  intros i y Hy Hun Hends.
  refine (resume_pass_settles _ _ _ _ _ Hst1 Hheld Hr i _ y Hy Hun Hends).
  left. apply in_seq. apply dev_at_length in Hy.
  rewrite <- (same_frame_length _ _
                (pass_frame fuel _ (resume_visit_tame fuel) _ _ _ _ _ Hr))
    in Hy. lia.
Qed.

End Levels.

(** *** The passes return *)

Lemma may_sync_now_acyclic fuel devs i x :
  acyclic devs = true -> (length devs <= fuel)%nat ->
  dev_at devs i = Some x ->
  exists b, _drbd_may_sync_now fuel devs x = Some b.
Proof.
  intros Hac Hfuel Hx. apply may_sync_now_total.
  eapply chain_ends_mono; [exact Hfuel|].
  eapply acyclic_spec; eassumption.
Qed.

Lemma pause_visit_total fuel i devs rv :
  acyclic devs = true -> (length devs <= fuel)%nat ->
  exists st, pause_visit fuel i (devs, rv) = Some st.
Proof.
  intros Hac Hfuel. rewrite pause_visit_eq.
  destruct (dev_at devs i) as [x|] eqn:Hx; [|eauto].
  destruct (unconfigured x); [eauto|].
  destruct (may_sync_now_acyclic fuel devs i x Hac Hfuel Hx) as [[|] ->]; eauto.
Qed.

Lemma resume_visit_total fuel i devs rv :
  acyclic devs = true -> (length devs <= fuel)%nat ->
  exists st, resume_visit fuel i (devs, rv) = Some st.
Proof.
  intros Hac Hfuel. rewrite resume_visit_eq.
  destruct (dev_at devs i) as [x|] eqn:Hx; [|eauto].
  destruct (unconfigured x); [eauto|].
  destruct (aftr_isp (state x)); [|eauto].
  destruct (may_sync_now_acyclic fuel devs i x Hac Hfuel Hx) as [[|] ->]; eauto.
Qed.

Section Passes.

Variable fuel : nat.
Variable visit : nat -> list (option drbd_conf) * bool ->
                 option (list (option drbd_conf) * bool).
Hypothesis visit_tame : tame fuel visit.
Hypothesis visit_total : forall i devs rv,
  acyclic devs = true -> (length devs <= fuel)%nat ->
  exists st, visit i (devs, rv) = Some st.

Lemma pass_total minors devs rv :
  acyclic devs = true -> (length devs <= fuel)%nat ->
  exists devs' rv', for_minors visit minors (devs, rv) = Some (devs', rv').
Proof.
  revert devs rv. induction minors as [|i minors IH]; intros devs rv Hac Hfuel;
    cbn [for_minors]; [eauto|].
  destruct (visit_total i devs rv Hac Hfuel) as [[devs1 rv1] Hv]. rewrite Hv.
  pose proof (proj1 (visit_frame fuel visit visit_tame _ _ _ _ _ Hv)) as Hsame.
  apply IH.
  - eapply acyclic_frame; eassumption.
  - now rewrite <- (same_frame_length _ _ Hsame).
Qed.

(** On a table whose flags all agree a pass changes nothing. *)
Lemma pass_on_settled minors devs rv devs' rv' :
  (forall i x, dev_at devs i = Some x -> unconfigured x = false ->
     flag_agrees fuel devs x) ->
  for_minors visit minors (devs, rv) = Some (devs', rv') ->
  devs' = devs /\ rv' = rv.
Proof.
  intros Hag. revert rv. induction minors as [|i minors IH]; intros rv;
    cbn [for_minors].
  - intros [= <- <-]. split; reflexivity.
  - destruct (visit i (devs, rv)) as [[devs1 rv1]|] eqn:Hv; [|discriminate].
    apply visit_tame in Hv
      as [[-> ->] | (x & b & Hx & Hun & Hmay & Hf & _)]; [apply IH|].
    specialize (Hag i x Hx Hun). unfold flag_agrees in Hag.
    rewrite Hmay, Hf in Hag. destruct b; discriminate.
Qed.

End Passes.

Lemma settled_of_stable fuel n devs :
  acyclic devs = true -> (length devs <= n)%nat -> stable fuel n devs ->
  forall i x, dev_at devs i = Some x -> unconfigured x = false ->
    flag_agrees fuel devs x.
Proof.
  intros Hac Hn Hst i x Hx Hun. apply (Hst i x Hx Hun).
  eapply chain_ends_mono; [exact Hn|]. eapply acyclic_spec; eassumption.
Qed.

(** A turn of the loop that reports no change leaves a table whose flags
    all agree. *)
Lemma unchanged_turn_agrees fuel devs devs1 devs2 :
  acyclic devs = true -> (length devs <= fuel)%nat ->
  _drbd_pause_after fuel devs = Some (devs1, false) ->
  _drbd_resume_next fuel devs1 = Some (devs2, false) ->
  devs2 = devs /\
  forall i x, dev_at devs i = Some x -> unconfigured x = false ->
    flag_agrees fuel devs x.
Proof.
  unfold _drbd_pause_after, _drbd_resume_next. intros Hac Hfuel Hp Hr.
  apply (pass_unchanged fuel _ (pause_visit_tame fuel)) in Hp
    as (_ & -> & Hpv).
  apply (pass_unchanged fuel _ (resume_visit_tame fuel)) in Hr
    as (_ & -> & Hrv).
  split; [reflexivity|]. intros i x Hx Hun. unfold flag_agrees.
  assert (Hin : In i (seq 0 (length devs)))
    by (apply in_seq; apply dev_at_length in Hx; lia).
  specialize (Hpv i Hin). specialize (Hrv i Hin).
  rewrite pause_visit_eq, Hx, Hun in Hpv.
  rewrite resume_visit_eq, Hx, Hun in Hrv.
  destruct (may_sync_now_acyclic fuel devs i x Hac Hfuel Hx) as [b Hb].
  rewrite Hb in *.
  destruct b, (aftr_isp (state x)); simpl in *; try reflexivity;
    try discriminate.
Qed.

(** *** The loop ends *)

Lemma alter_sa_loop_settles turns n devs :
  acyclic devs = true ->
  stable (length devs) n devs ->
  (length devs <= n + turns)%nat ->
  exists devs',
    alter_sa_loop (S turns) (length devs) devs = Some devs' /\
    same_frame devs devs' /\
    forall i x, dev_at devs' i = Some x -> unconfigured x = false ->
      flag_agrees (length devs) devs' x.
Proof.
  revert n devs. induction turns as [|turns IH]; intros n devs Hac Hst Hturns.
  - assert (Hag := settled_of_stable _ n devs Hac ltac:(lia) Hst).
    cbn [alter_sa_loop].
    destruct (pass_total _ _ (pause_visit_tame _) (pause_visit_total _)
                (seq 0 (length devs)) devs false Hac (Nat.le_refl _))
      as (devs1 & rv1 & Hp).
    unfold _drbd_pause_after. rewrite Hp.
    destruct (pass_on_settled _ _ (pause_visit_tame _) _ _ _ _ _ Hag Hp)
      as [-> ->].
    destruct (pass_total _ _ (resume_visit_tame _) (resume_visit_total _)
                (seq 0 (length devs)) devs false Hac (Nat.le_refl _))
      as (devs2 & rv2 & Hr).
    unfold _drbd_resume_next. rewrite Hr.
    destruct (pass_on_settled _ _ (resume_visit_tame _) _ _ _ _ _ Hag Hr)
      as [-> ->].
    simpl. exists devs. split; [reflexivity|].
    split; [apply same_frame_refl | exact Hag].
  - cbn [alter_sa_loop].
    destruct (pass_total _ _ (pause_visit_tame _) (pause_visit_total _)
                (seq 0 (length devs)) devs false Hac (Nat.le_refl _))
      as (devs1 & rv1 & Hp).
    pose proof (pass_frame _ _ (pause_visit_tame _) _ _ _ _ _ Hp) as Hsame1.
    pose proof (acyclic_frame _ _ Hsame1 Hac) as Hac1.
    pose proof (same_frame_length _ _ Hsame1) as Hlen1.
    assert (Hr : exists devs2 rv2,
               _drbd_resume_next (length devs) devs1 = Some (devs2, rv2)).
    { unfold _drbd_resume_next. rewrite <- Hlen1.
      apply (pass_total _ _ (resume_visit_tame _) (resume_visit_total _));
        [exact Hac1 | lia]. }
    destruct Hr as (devs2 & rv2 & Hr).
    fold (_drbd_pause_after (length devs) devs) in Hp.
    rewrite Hp, Hr.
    assert (Hsame2 : same_frame devs1 devs2)
      by (eapply (pass_frame _ _ (resume_visit_tame _)); exact Hr).
    pose proof (same_frame_trans _ _ _ Hsame1 Hsame2) as Hsame.
    destruct (rv1 || rv2) eqn:Hch.
    + destruct (Nat.le_gt_cases (length devs) n) as [Hn|Hn].
      * exfalso.
        assert (Hag := settled_of_stable _ n devs Hac Hn Hst).
        destruct (pass_on_settled _ _ (pause_visit_tame _) _ _ _ _ _ Hag Hp)
          as [-> ->].
        unfold _drbd_resume_next in Hr.
        destruct (pass_on_settled _ _ (resume_visit_tame _) _ _ _ _ _ Hag Hr)
          as [-> ->].
        discriminate.
      * pose proof (turn_settles_next (length devs) n Hn
                      devs devs1 rv1 devs2 rv2 Hst Hp Hr) as Hst2.
        pose proof (acyclic_frame _ _ Hsame Hac) as Hac2.
        pose proof (same_frame_length _ _ Hsame) as Hlen.
        rewrite Hlen in Hst2.
        destruct (IH (S n) devs2 Hac2 Hst2 ltac:(lia))
          as (devs' & Hloop & Hsame' & Hag).
        rewrite <- Hlen in Hloop, Hag.
        exists devs'. split; [exact Hloop|].
        split; [eapply same_frame_trans; eassumption | exact Hag].
    + apply orb_false_iff in Hch as [-> ->].
      destruct (unchanged_turn_agrees _ devs devs1 devs2 Hac (Nat.le_refl _)
                  Hp Hr) as [-> Hag].
      exists devs. split; [reflexivity|].
      split; [apply same_frame_refl | exact Hag].
Qed.

(** The loop leaves alone the devices that are not configured. *)
Lemma alter_sa_keeps_unconfigured turns fuel : forall devs devs',
  alter_sa_loop turns fuel devs = Some devs' ->
  forall j x, dev_at devs j = Some x -> unconfigured x = true ->
    dev_at devs' j = Some x.
Proof.
  induction turns as [|turns IH]; intros devs devs'; [discriminate|].
  cbn [alter_sa_loop].
  destruct (_drbd_pause_after fuel devs) as [[devs1 rv1]|] eqn:Hp;
    [|discriminate].
  destruct (_drbd_resume_next fuel devs1) as [[devs2 rv2]|] eqn:Hr;
    [|discriminate].
  intros Hloop j x Hx Hun.
  assert (Hx1 : dev_at devs1 j = Some x).
  { eapply (pass_keeps_unconfigured fuel _ (pause_visit_tame fuel));
      eassumption. }
  assert (Hx2 : dev_at devs2 j = Some x).
  { eapply (pass_keeps_unconfigured fuel _ (resume_visit_tame fuel));
      eassumption. }
  destruct (rv1 || rv2).
  - eapply IH; eassumption.
  - injection Hloop as <-. exact Hx2.
Qed.

Lemma stable_zero fuel devs : stable fuel 0 devs.
Proof. intros i x _ _ Hends. discriminate Hends. Qed.

(** C3 (as amended).  With no cycle of prerequisites left once [after] has
    been set, the loop of [drbd_alter_sa] ends within one turn more than
    there are minors, every walk along a chain ends, and in the table it
    leaves only dependency pause flags have changed and the flag of every
    configured device (not both [StandAlone] and [Diskless]) agrees with
    [_drbd_may_sync_now]: the device is paused if and only if it may not
    sync now.  A device that is not configured (both [StandAlone] and
    [Diskless]) is passed over: it is in the table as it was, its flag
    included. *)
Theorem C3_alter_sa_settles devs minor na :
  let devs0 := alter (fmap (set_after na)) minor devs in
  acyclic devs0 = true ->
  exists devs',
    drbd_alter_sa (S (length devs)) (length devs) devs minor na = Some devs' /\
    same_frame devs0 devs' /\
    (forall i odev, dev_at devs' i = Some odev -> unconfigured odev = false ->
       _drbd_may_sync_now (length devs) devs' odev
         = Some (negb (aftr_isp (state odev))) /\
       (aftr_isp (state odev) = true <->
        _drbd_may_sync_now (length devs) devs' odev = Some false)) /\
    (forall i odev, dev_at devs0 i = Some odev -> unconfigured odev = true ->
       dev_at devs' i = Some odev).
Proof.
  intros devs0 Hac. unfold drbd_alter_sa. fold devs0.
  assert (Hlen : length devs0 = length devs) by apply length_alter.
  rewrite <- Hlen.
  destruct (alter_sa_loop_settles (length devs0) 0 devs0 Hac
              (stable_zero _ _) ltac:(lia)) as (devs' & Hloop & Hsame & Hag).
  exists devs'. split; [exact Hloop|]. split; [exact Hsame|]. split.
  - intros i odev Hx Hun. specialize (Hag i odev Hx Hun).
    unfold flag_agrees in Hag. split; [exact Hag|].
    rewrite Hag. destruct (aftr_isp (state odev)); simpl; split;
      intros E; try reflexivity; discriminate E.
  - intros i odev Hx Hun.
    eapply alter_sa_keeps_unconfigured; eassumption.
Qed.

End Facts.

(** The specification's rule looks at the prerequisite only; the code walks
    on.  Minor 0 resyncs after minor 1, which is idle, but minor 1 resyncs
    after minor 2, which is a resync source at work. *)
Lemma C2_chain_is_followed :
  _drbd_may_sync_now 3 devs_chain (dev_after 1 Connected) = Some false /\
  may_sync_now_as_specified devs_chain (dev_after 1 Connected) = true.
Proof. split; reflexivity. Qed.

(** On the same table the walk from minor 1 ends and says no. *)
Lemma C2_may_sync_now_witness :
  chain_ends 3 devs_chain (dev_after 2 Connected) = true /\
  exists b, _drbd_may_sync_now 3 devs_chain (dev_after 2 Connected) = Some b /\
    (b = true <->
     forall p, on_chain devs_chain (dev_after 2 Connected) p ->
       holds_back p = false).
Proof.
  split; [reflexivity|].
  exact (C2_may_sync_now_chain 3 devs_chain (dev_after 2 Connected) eq_refl).
Defined.

(** The specification's wording fails on a device that is not configured:
    the passes skip it.  Minor 1 is set to resync after minor 0, a resync
    source at work; minor 1 may not sync now, yet its flag stays clear. *)
Lemma C3_unconfigured_is_skipped :
  acyclic (alter (fmap (set_after 0)) 1%nat devs_unconfigured) = true /\
  exists devs',
    drbd_alter_sa 3 2 devs_unconfigured 1 0 = Some devs' /\
    dev_at devs' 1 = Some (set_after 0 dev_unconfigured) /\
    aftr_isp (state (set_after 0 dev_unconfigured)) = false /\
    _drbd_may_sync_now 2 devs' (set_after 0 dev_unconfigured) = Some false /\
    ~ all_flags_agree 2 devs'.
Proof.
  split; [reflexivity|].
  eexists. split; [vm_compute; reflexivity|].
  split; [reflexivity|]. split; [reflexivity|]. split; [reflexivity|].
  intros Hall.
  specialize (Hall 1%nat (set_after 0 dev_unconfigured) eq_refl).
  vm_compute in Hall. discriminate Hall.
Qed.

(** Five minors, one of them not in use: minor 4 is set to resync after
    minor 2, whose pause flag is stale; the loop ends. *)
Lemma C3_alter_sa_witness :
  acyclic (alter (fmap (set_after 2)) 4%nat devs_stale) = true /\
  exists devs',
    drbd_alter_sa 6 5 devs_stale 4 2 = Some devs' /\
    forall i odev, dev_at devs' i = Some odev -> unconfigured odev = false ->
      _drbd_may_sync_now 5 devs' odev = Some (negb (aftr_isp (state odev))).
Proof.
  split; [reflexivity|].
  destruct (C3_alter_sa_settles devs_stale 4%nat 2 eq_refl)
    as (devs' & Hrun & _ & Hag & _).
  exists devs'. split; [exact Hrun|].
  intros i odev Hx Hun. exact (proj1 (Hag i odev Hx Hun)).
Defined.

End SyncAfter.
(** ** The worker: draining the queue, timers and completions *)

Module WorkerDrain.
Section Drain.

Variable run_cb : drbd_work -> bool -> M Z.

Lemma calls_app t1 t2 : calls (t1 ++ t2) = calls t1 ++ calls t2.
Proof.
  induction t1 as [|ev t1 IH]; simpl; [reflexivity|].
  destruct (call_of ev); simpl; now rewrite IH.
Qed.

Lemma drain_nil fuel m :
  work_q m = [] -> drbd_worker_drain run_cb fuel m = (true, m, []).
Proof.
  intros E. destruct fuel; simpl; unfold bind, get, ret; simpl;
    rewrite E; reflexivity.
Qed.

Lemma drain_cons fuel m w q :
  work_q m = w :: q ->
  drbd_worker_drain run_cb (S fuel) m =
    let '(_, m1, t1) := run_cb w true (set_work_q q m) in
    let '(r, m2, t2) := drbd_worker_drain run_cb fuel m1 in
    (r, m2, Ev_call_cb w true :: t1 ++ t2).
Proof.
  intros E. simpl. unfold bind, get, modify, emit, ret. simpl. rewrite E.
  simpl.
  destruct (run_cb w true (set_work_q q m)) as [[r1 m1] t1].
  destruct (drbd_worker_drain run_cb fuel m1) as [[r2 m2] t2].
  reflexivity.
Qed.

(** X1.  When the worker stops, it calls what is left on its queue in queue
    order, every item once and every one with [cancel = 1], and leaves the
    queue empty; this for callbacks that leave the queue alone and call no
    callback themselves. *)
Theorem drain_cancels_all_in_order fuel m :
  (forall w c m0, work_q (dev_of (run_cb w c m0)) = work_q m0) ->
  (forall w c m0, calls (trace_of (run_cb w c m0)) = []) ->
  (length (work_q m) <= fuel)%nat ->
  let out := drbd_worker_drain run_cb fuel m in
  result_of out = true /\
  work_q (dev_of out) = [] /\
  calls (trace_of out) = map (fun w => (w, true)) (work_q m).
Proof.
  intros Hq Hc. revert m.
  induction fuel as [|fuel IH]; intros m Hlen.
  - destruct (work_q m) as [|w q] eqn:E; [|simpl in Hlen; lia].
    cbv zeta. rewrite (drain_nil _ m E). auto.
  - destruct (work_q m) as [|w q] eqn:E.
    + cbv zeta. rewrite (drain_nil _ m E). auto.
    + simpl in Hlen. cbv zeta. rewrite (drain_cons _ m w q E).
      pose proof (Hq w true (set_work_q q m)) as Hq1.
      pose proof (Hc w true (set_work_q q m)) as Hc1.
      unfold result_of, dev_of, trace_of in *.
      destruct (run_cb w true (set_work_q q m)) as [[r m1] t1] eqn:Er.
      simpl in Hq1, Hc1.
      assert (Hm1 : work_q m1 = q).
      { rewrite Hq1. now destruct m. }
      specialize (IH m1). rewrite Hm1 in IH.
      specialize (IH ltac:(lia)). simpl in IH.
      destruct (drbd_worker_drain run_cb fuel m1) as [[r2 m2] t2].
      simpl in *. destruct IH as (H1 & H2 & H3).
      repeat split; [exact H1|exact H2|].
      rewrite calls_app, Hc1, H3. reflexivity.
Qed.

End Drain.

Lemma drain_cancels_witness :
  let out := drbd_worker_drain quiet_cb 3 mdev_queued in
  result_of out = true /\
  work_q (dev_of out) = [] /\
  calls (trace_of out) = map (fun w => (w, true)) (work_q mdev_queued).
Proof.
  apply (drain_cancels_all_in_order quiet_cb 3 mdev_queued).
  - intros w c m0. reflexivity.
  - intros w c m0. reflexivity.
  - simpl. lia.
Defined.

End WorkerDrain.

(** ** The resync timer *)

Module ResyncTimer.
Section Timer.
Context `{KernelConfig}.

Lemma queued_ticks_app m w :
  queued_ticks (set_work_q (work_q m ++ [w]) m) =
    (queued_ticks m + (if is_resync_work w then 1 else 0))%nat.
Proof.
  unfold queued_ticks. destruct m; simpl.
  rewrite List.filter_app, length_app. simpl.
  destruct (is_resync_work w); reflexivity.
Qed.

Lemma existsb_queued m :
  existsb is_resync_work (work_q m) = negb (Nat.eqb (queued_ticks m) 0).
Proof.
  unfold queued_ticks. induction (work_q m) as [|w q IH]; simpl;
    [reflexivity|].
  destruct (is_resync_work w); simpl; [reflexivity|exact IH].
Qed.

Lemma work_q_set_cb c m : work_q (set_resync_work_cb c m) = work_q m.
Proof. now destruct m. Qed.

Lemma queued_ticks_set_cb c m :
  queued_ticks (set_resync_work_cb c m) = queued_ticks m.
Proof. now destruct m. Qed.

Lemma timer_stopped m :
  test_bit STOP_SYNC_TIMER (flags m) = true ->
  dev_of (resync_timer_fn m) =
    set_resync_work_cb cb_w_resync_inactive
      (set_flags (Z.clearbit (flags m) STOP_SYNC_TIMER) m).
Proof.
  intros Hstop. unfold test_bit in Hstop.
  unfold resync_timer_fn, set_inactive, drbd_queue_work, test_bit,
    bind, get, modify, ret, dev_of. simpl. rewrite Hstop. simpl.
  rewrite ?andb_false_r. reflexivity.
Qed.

Lemma timer_running m :
  test_bit STOP_SYNC_TIMER (flags m) = false ->
  let cb := if conn_eqb (conn (state m)) VerifyS then cb_w_make_ov_request
            else cb_w_make_resync_request in
  dev_of (resync_timer_fn m) =
    if existsb is_resync_work (work_q m)
    then set_resync_work_cb cb m
    else set_work_q (work_q m ++ [Work_resync]) (set_resync_work_cb cb m).
Proof.
  intros Hrun. unfold test_bit in Hrun.
  unfold resync_timer_fn, set_inactive, drbd_queue_work, test_bit,
    bind, get, modify, ret, dev_of. simpl. rewrite Hrun. simpl.
  rewrite ?andb_true_r.
  destruct (existsb is_resync_work (work_q m)); simpl;
    rewrite ?work_q_set_cb; reflexivity.
Qed.

Lemma timer_queue_count m :
  queued_ticks (dev_of (resync_timer_fn m)) =
    (if test_bit STOP_SYNC_TIMER (flags m) then queued_ticks m
     else Nat.max 1 (queued_ticks m)).
Proof.
  destruct (test_bit STOP_SYNC_TIMER (flags m)) eqn:Ebit.
  - rewrite (timer_stopped m Ebit). now destruct m.
  - rewrite (timer_running m Ebit). rewrite existsb_queued.
    destruct (queued_ticks m) eqn:El; simpl.
    + rewrite <- (work_q_set_cb
        (if conn_eqb (conn (state m)) VerifyS then cb_w_make_ov_request
         else cb_w_make_resync_request) m) at 1.
      rewrite queued_ticks_app, queued_ticks_set_cb, El. reflexivity.
    + rewrite queued_ticks_set_cb. exact El.
Qed.

Lemma timer_clears_stop m :
  test_bit STOP_SYNC_TIMER (flags (dev_of (resync_timer_fn m))) = false.
Proof.
  destruct (test_bit STOP_SYNC_TIMER (flags m)) eqn:Ebit.
  - rewrite (timer_stopped m Ebit). destruct m; simpl. apply Z.clearbit_eq.
  - rewrite (timer_running m Ebit).
    destruct (existsb _ _); destruct m; exact Ebit.
Qed.

(** X2.  The timer never queues the tick a second time: a firing that finds the
    stop flag set queues nothing, any other firing queues the tick exactly
    when it is not queued yet.  Either way the stop flag is clear
    afterwards. *)
Theorem timer_never_queues_twice m :
  let m' := dev_of (resync_timer_fn m) in
  queued_ticks m' =
    (if test_bit STOP_SYNC_TIMER (flags m) then queued_ticks m
     else Nat.max 1 (queued_ticks m)) /\
  test_bit STOP_SYNC_TIMER (flags m') = false.
Proof.
  split; [apply timer_queue_count|apply timer_clears_stop].
Qed.

(** X3.  Stopping the timer holds for one firing only: the firing that finds
    the stop flag set consumes it, leaves the queue alone and parks the
    callback on [w_resync_inactive]; the next firing queues the tick again
    with a working callback. *)
Theorem timer_stop_is_one_shot m :
  test_bit STOP_SYNC_TIMER (flags m) = true ->
  let m1 := dev_of (resync_timer_fn m) in
  let m2 := dev_of (resync_timer_fn m1) in
  work_q m1 = work_q m /\
  resync_work_cb m1 = cb_w_resync_inactive /\
  queued_ticks m2 = Nat.max 1 (queued_ticks m) /\
  resync_work_cb m2 =
    (if conn_eqb (conn (state m)) VerifyS then cb_w_make_ov_request
     else cb_w_make_resync_request).
Proof.
  intros Hstop m1 m2.
  pose proof (timer_stopped m Hstop) as H1. fold m1 in H1.
  assert (Hq1 : work_q m1 = work_q m) by (rewrite H1; now destruct m).
  assert (Hs1 : state m1 = state m) by (rewrite H1; now destruct m).
  assert (Hc1 : resync_work_cb m1 = cb_w_resync_inactive)
    by (rewrite H1; now destruct m).
  pose proof (timer_clears_stop m) as Hf1. fold m1 in Hf1.
  split; [exact Hq1|]. split; [exact Hc1|].
  pose proof (timer_queue_count m1) as Hn.
  fold m2 in Hn. rewrite Hf1 in Hn.
  split.
  - rewrite Hn. unfold queued_ticks. now rewrite Hq1.
  - subst m2. rewrite (timer_running m1 Hf1). rewrite Hs1.
    destruct (existsb is_resync_work (work_q m1)); now destruct m1.
Qed.

End Timer.

Lemma timer_stop_witness :
  test_bit STOP_SYNC_TIMER (flags mdev_timer_stopped) = true /\
  queued_ticks
    (dev_of (resync_timer_fn (dev_of (resync_timer_fn mdev_timer_stopped))))
    = 1%nat.
Proof.
  assert (Hstop : test_bit STOP_SYNC_TIMER (flags mdev_timer_stopped) = true)
    by (vm_compute; reflexivity).
  split; [exact Hstop|].
  destruct (timer_stop_is_one_shot mdev_timer_stopped Hstop)
    as (_ & _ & Hn & _).
  rewrite Hn. vm_compute. reflexivity.
Defined.

End ResyncTimer.

(** ** Completion handlers *)

Module Completion.
Section Handlers.
Context `{KernelConfig}.

Lemma list_del_ee_fresh e l :
  (forall x, In x l -> e_addr x <> e_addr e) -> list_del_ee e l = l.
Proof.
  intros Hfresh. unfold list_del_ee.
  induction l as [|x l IH]; simpl; [reflexivity|].
  assert (Hx : (e_addr x =? e_addr e) = false)
    by (apply Z.eqb_neq, Hfresh; now left).
  rewrite Hx. simpl. f_equal. apply IH. intros y Hy. apply Hfresh.
  now right.
Qed.

(** X4.  A bio that comes back without an error code but not up to date has
    failed: each of the three completion handlers treats it exactly as it
    treats the error [-EIO].  [drbd_endio_pri] reports [completed_ok] only
    for a bio that is up to date and has no error. *)
Theorem silent_failure_is_an_error e is_write m :
  bio_uptodate e = false ->
  drbd_endio_read_sec e 0 m = drbd_endio_read_sec e (- EIO) m /\
  drbd_endio_write_sec e 0 m = drbd_endio_write_sec e (- EIO) m /\
  drbd_endio_pri is_write false 0 = drbd_endio_pri is_write false (- EIO) /\
  (forall uptodate error,
     fst (drbd_endio_pri is_write uptodate error) = completed_ok <->
     error = 0 /\ uptodate = true).
Proof.
  intros Hup. repeat split.
  - unfold drbd_endio_read_sec. now rewrite Hup.
  - unfold drbd_endio_write_sec. now rewrite Hup.
  - unfold drbd_endio_pri in H0. simpl in H0.
    destruct (error =? 0) eqn:E; [apply Z.eqb_eq in E; exact E|].
    simpl in H0. rewrite E in H0. simpl in H0.
    destruct is_write; discriminate.
  - unfold drbd_endio_pri in H0. simpl in H0.
    destruct (error =? 0) eqn:E.
    + destruct uptodate; [reflexivity|]. simpl in H0.
      destruct is_write; discriminate.
    + simpl in H0. rewrite E in H0. simpl in H0.
      destruct is_write; discriminate.
  - intros [-> ->]. reflexivity.
Qed.

Lemma read_for_csum_submits env sector size addr m :
  csum_inc_local_ok env sector = true ->
  csum_fault_active env sector = false ->
  csum_alloc_ee env sector = Some addr ->
  let e0 := mk_ee addr cb_w_e_send_csum sector size ID_MAGIC_BEEF 0
              [] false false in
  read_for_csum env sector size m =
    (1,
     set_read_cnt (wrap_uint (read_cnt m + Z.shiftr size 9))
       (set_read_ee (e0 :: read_ee m) m),
     [Ev_inc_local; Ev_generic_make_request e0]).
Proof.
  intros Hinc Hfault Halloc. unfold read_for_csum.
  rewrite Hinc, Hfault, Halloc.
  unfold bind, modify, emit, ret. simpl. now destruct m.
Qed.

Lemma endio_read_sec_runs e error m :
  let err := if (error =? 0) && negb (bio_uptodate e) then - EIO else error in
  let m1 := list_del e
              (set_read_cnt (wrap_uint (read_cnt m + Z.shiftr (e_size e) 9))
                 m) in
  drbd_endio_read_sec e error m =
    (tt, set_work_q (work_q m1 ++ [Work_ee e]) m1,
     (if list_empty (read_ee m1) then [Ev_wake_up_ee_wait] else []) ++
     (if negb (err =? 0) then [Ev_chk_io_error] else []) ++ [Ev_dec_local]).
Proof.
  unfold drbd_endio_read_sec, drbd_chk_io_error, drbd_queue_work, when,
    bind, get, modify, emit, ret.
  simpl.
  destruct (list_empty _); destruct (negb (_ =? 0)); reflexivity.
Qed.

(** X5.  A checksum read from submission to completion.  [read_for_csum] puts a
    fresh entry on [read_ee] and submits it; when the disk is done,
    [drbd_endio_read_sec] takes it off again and queues it on the worker.
    After both, [read_ee] is as before, the queue has grown by the entry,
    the one local reference taken has been put back, the waiters on
    [ee_wait] are woken exactly when [read_ee] is empty, and the sectors of
    the read have been added to [read_cnt] twice, once by each function. *)
Theorem csum_read_round_trip env sector size addr e error m :
  csum_inc_local_ok env sector = true ->
  csum_fault_active env sector = false ->
  csum_alloc_ee env sector = Some addr ->
  (forall x, In x (read_ee m) -> e_addr x <> addr) ->
  e_addr e = addr ->
  e_size e = size ->
  let submitted := read_for_csum env sector size m in
  let completed := drbd_endio_read_sec e error (dev_of submitted) in
  let m2 := dev_of completed in
  let t := trace_of submitted ++ trace_of completed in
  result_of submitted = 1 /\
  on_list e (read_ee (dev_of submitted)) = true /\
  read_ee m2 = read_ee m /\
  work_q m2 = work_q m ++ [Work_ee e] /\
  read_cnt m2 =
    wrap_uint (wrap_uint (read_cnt m + Z.shiftr size 9) + Z.shiftr size 9) /\
  count (fun ev => match ev with Ev_inc_local => true | _ => false end) t = 1 /\
  count (fun ev => match ev with Ev_dec_local => true | _ => false end) t = 1 /\
  (In Ev_wake_up_ee_wait t <-> read_ee m = []).
Proof.
  intros Hinc Hfault Halloc Hfresh Haddr Hsize.
  cbv zeta.
  rewrite (read_for_csum_submits env sector size addr m Hinc Hfault Halloc).
  unfold result_of, dev_of, trace_of. cbn [fst snd].
  rewrite endio_read_sec_runs. cbn [fst snd].
  assert (Hdel : list_del_ee e (read_ee m) = read_ee m).
  { apply list_del_ee_fresh. intros x Hx. rewrite Haddr. now apply Hfresh. }
  simpl. rewrite Hsize, Haddr, Z.eqb_refl. simpl. rewrite Hdel.
  split; [reflexivity|]. split; [reflexivity|]. split; [reflexivity|].
  split; [reflexivity|]. split; [reflexivity|].
  destruct (read_ee m) as [|x l]; simpl;
    destruct (negb (_ =? 0)); simpl;
    (split; [reflexivity|]); (split; [reflexivity|]);
    split; intros Hw; try reflexivity; try discriminate;
    repeat (destruct Hw as [Hw|Hw]; try discriminate); tauto.
Qed.

End Handlers.

Lemma silent_failure_witness :
  drbd_endio_read_sec ee_silent_read 0 mdev_idle =
    drbd_endio_read_sec ee_silent_read (- EIO) mdev_idle.
Proof.
  apply (silent_failure_is_an_error ee_silent_read false mdev_idle).
  reflexivity.
Defined.

Lemma csum_read_round_trip_witness :
  read_cnt
    (dev_of (drbd_endio_read_sec ee_csum_read 0
       (dev_of (read_for_csum (env_small []) 16 4096 mdev_csum_target))))
  = 16.
Proof.
  assert (Hrun := csum_read_round_trip (env_small []) 16 4096 1016
    ee_csum_read 0 mdev_csum_target).
  cbv zeta in Hrun.
  destruct Hrun as (_ & _ & _ & _ & Hcnt & _).
  - vm_compute. reflexivity.
  - vm_compute. reflexivity.
  - vm_compute. reflexivity.
  - intros x Hx. vm_compute in Hx. destruct Hx.
  - reflexivity.
  - reflexivity.
  - rewrite Hcnt. vm_compute. reflexivity.
Defined.

End Completion.
(** ** The reply callbacks *)

Module Replies.
Section Facts.
Context `{KernelConfig}.

Ltac run_reply :=
  unfold reply_contract, digests_agree,
    w_e_end_data_req, w_e_end_csum_rs_req, w_e_end_rsdata_req,
    w_e_end_ov_req, cancelled, keep_or_free, drbd_send_block, drbd_send_ack,
    drbd_send_drequest_csum, inc_rs_pending, dec_rs_pending, dec_unacked,
    when, bind, get, modify, emit, ret, dev_of, trace_of, result_of,
    count; simpl.

Ltac split_ifs :=
  repeat (match goal with
          | |- context [if ?b then _ else _] => destruct b eqn:?
          | |- context [match ?o with Some _ => _ | None => _ end] =>
              destruct o eqn:?
          end; simpl).

Ltac settle :=
  rewrite ?length_app; simpl;
  repeat split; try reflexivity; try lia; try discriminate.

Lemma data_req_contract env e cancel m :
  reply_contract 1 cancel m (w_e_end_data_req env e cancel m).
Proof.
  run_reply. destruct cancel; simpl; [settle|].
  destruct (send_ok env); split_ifs; settle.
Qed.

Lemma rsdata_req_contract env e cancel m :
  reply_contract 1 cancel m (w_e_end_rsdata_req env e cancel m).
Proof.
  run_reply. destruct cancel; simpl; [settle|].
  destruct (send_ok env); split_ifs; settle.
Qed.

Lemma csum_rs_req_contract env e cancel m :
  reply_contract 1 cancel m (w_e_end_csum_rs_req env e cancel m).
Proof.
  run_reply. destruct cancel; simpl; [settle|].
  destruct (send_ok env); split_ifs; settle.
Qed.

Lemma ov_req_contract env e cancel m :
  ov_req_oopses e cancel m = false ->
  reply_contract (Some 1) cancel m (w_e_end_ov_req env e cancel m).
Proof.
  unfold ov_req_oopses. intros Hno. run_reply.
  destruct cancel; simpl; [settle|].
  destruct (bio_uptodate e); simpl; [|settle].
  destruct (verify_tfm m) as [tfm|]; simpl; [|discriminate Hno].
  destruct (send_ok env); split_ifs; settle.
Qed.

Lemma ov_req_oops env e cancel m :
  ov_req_oopses e cancel m = true ->
  w_e_end_ov_req env e cancel m = (None, m, [Ev_oops]).
Proof.
  unfold ov_req_oopses. intros Hoops.
  apply andb_true_iff in Hoops as [Hoops Htfm].
  apply andb_true_iff in Hoops as [Hc Hup].
  apply negb_true_iff in Hc. subst cancel.
  unfold w_e_end_ov_req, bind, get, emit, ret. rewrite Hup. simpl.
  destruct (verify_tfm m); [discriminate Htfm|]. reflexivity.
Qed.

(** X6.  The callbacks that answer a request of the peer dispose of their
    entry exactly once, by freeing it or by keeping it on [net_ee], and
    take the request off [unacked_cnt] exactly once; a cancelled call
    returns 1, puts nothing on the link and leaves [net_ee] alone.  This
    holds on every path of [w_e_end_data_req], [w_e_end_rsdata_req] and
    [w_e_end_csum_rs_req], and on every path of [w_e_end_ov_req] but one:
    called with a good read and no [verify_tfm], [w_e_end_ov_req]
    dereferences the NULL transform, and the call ends in the oops with
    the entry not freed and [unacked_cnt] as it was. *)
Theorem reply_disposes_of_entry_once env e cancel m :
  reply_contract 1 cancel m (w_e_end_data_req env e cancel m) /\
  reply_contract 1 cancel m (w_e_end_rsdata_req env e cancel m) /\
  reply_contract 1 cancel m (w_e_end_csum_rs_req env e cancel m) /\
  (ov_req_oopses e cancel m = false ->
     reply_contract (Some 1) cancel m (w_e_end_ov_req env e cancel m)) /\
  (ov_req_oopses e cancel m = true ->
     w_e_end_ov_req env e cancel m = (None, m, [Ev_oops])).
Proof.
  exact (conj (data_req_contract env e cancel m)
        (conj (rsdata_req_contract env e cancel m)
        (conj (csum_rs_req_contract env e cancel m)
        (conj (ov_req_contract env e cancel m)
              (ov_req_oops env e cancel m))))).
Qed.

(** X7.  What the two data replies put on the link.  A call that is not
    cancelled sends the block when the local read was good and the
    negative acknowledgment when it was not, one packet and no more; the
    resync reply sends nothing to a peer without a disk.  Only a good read
    ever sends a block. *)
Theorem data_replies_answer_once env e cancel m :
  List.filter is_network_send (trace_of (w_e_end_data_req env e cancel m)) =
    (if cancel then []
     else if bio_uptodate e then [Ev_send_block DataReply e (send_ok env)]
     else [Ev_send_ack NegDReply e (send_ok env)]) /\
  List.filter is_network_send (trace_of (w_e_end_rsdata_req env e cancel m)) =
    (if cancel then []
     else if bio_uptodate e then
       if disk_leb Inconsistent (pdsk (state m))
       then [Ev_send_block RSDataReply e (send_ok env)]
       else []
     else [Ev_send_ack NegRSDReply e (send_ok env)]).
Proof.
  run_reply. destruct cancel; simpl; [auto|].
  split.
  - destruct (send_ok env); split_ifs; reflexivity.
  - destruct (send_ok env); split_ifs; reflexivity.
Qed.

(** X8.  What the receiver of a checksum request puts on the link and when it
    sets the range in sync.  It sets the range in sync exactly when it was
    not cancelled, its read was good and the digest it computed equals the
    peer's.  When the digest differs or could not be computed (no
    transform, no memory) it sends the whole block; when the read failed it
    sends the negative acknowledgment.  Unless cancelled it sends one
    packet. *)
Theorem csum_reply_packets env e cancel m :
  let t := trace_of (w_e_end_csum_rs_req env e cancel m) in
  existsb is_set_in_sync t =
    negb cancel && bio_uptodate e && digests_agree env e m /\
  List.filter is_network_send t =
    (if cancel then []
     else if bio_uptodate e then
       if digests_agree env e m
       then [Ev_send_ack RSIsInSync e (send_ok env)]
       else [Ev_send_block RSDataReply (set_e_block_id ID_SYNCER e)
               (send_ok env)]
     else [Ev_send_ack NegRSDReply e (send_ok env)]).
Proof.
  run_reply. destruct cancel; simpl; [auto|].
  destruct (bio_uptodate e); simpl.
  - destruct (csums_tfm m) as [tfm|]; simpl.
    + destruct (kmalloc_ok env); simpl.
      * destruct (memcmp_eq _ _ _); simpl;
          destruct (send_ok env); split_ifs; auto.
      * destruct (send_ok env); split_ifs; auto.
    + destruct (send_ok env); split_ifs; auto.
  - destruct (send_ok env); split_ifs; auto.
Qed.

End Facts.
End Replies.
(** ** Reads of the application that go to the peer *)

Module ReadRetry.
Section Facts.
Context `{KernelConfig}.

Ltac run_req :=
  unfold w_read_retry_remote, w_send_read_req, drbd_send_drequest,
    drbd_force_state, when, bind, get, modify, emit, ret,
    dev_of, trace_of, result_of; simpl.

(** X9.  A read that failed locally is retried on the peer only when the call
    is not cancelled, the connection is up and the peer's disk is better
    than [Inconsistent]; otherwise the request is cancelled and nothing is
    sent.  When the read request does not go out, the request is failed,
    the callback returns 0 and the connection is forced to
    [NetworkFailure]; the connection state changes in no other case. *)
Theorem read_retry_needs_a_peer link_ok req cancel m :
  let out := w_read_retry_remote link_ok req cancel m in
  let lost := cancel || conn_ltb (conn (state m)) Connected
              || disk_leb (pdsk (state m)) Inconsistent in
  List.filter is_network_send (trace_of out) =
    (if lost then []
     else [Ev_send_drequest DataRequest (req_sector req) (req_size req)
             (ID_PEER (req_addr req)) link_ok]) /\
  result_of out =
    (if lost then (1, send_canceled)
     else if link_ok then (1, handed_over_to_network)
     else (0, send_failed)) /\
  dev_of out =
    (if lost || link_ok then m else with_conn NetworkFailure m).
Proof.
  run_req.
  destruct cancel; simpl; [auto|].
  destruct (conn_ltb (conn (state m)) Connected) eqn:Ec; simpl; [auto|].
  destruct (disk_leb (pdsk (state m)) Inconsistent); simpl; [auto|].
  destruct link_ok; simpl; [auto|].
  rewrite Ec. simpl. auto.
Qed.

End Facts.
End ReadRetry.

(** ** Blocks found out of sync by online verify *)

Module OutOfSync.
Section Facts.
Context `{KernelConfig}.

Ltac run_oos :=
  unfold drbd_ov_oos_found, bind, get, modify, emit, ret,
    dev_of, trace_of, result_of; simpl.

Lemma sectors_of_nonneg sector blocks :
  contiguous sector blocks -> 0 <= sectors_of blocks.
Proof.
  revert sector. induction blocks as [|[s size] rest IH]; intros sector Hc;
    simpl in *; [lia|].
  destruct Hc as (_ & Hsize & Hrest).
  specialize (IH _ Hrest).
  assert (0 <= Z.shiftr size 9) by (apply Z.shiftr_nonneg; exact Hsize).
  lia.
Qed.

Lemma found_all_grows blocks : forall last sector m,
  contiguous sector blocks ->
  0 <= ov_last_oos_start last -> 0 <= ov_last_oos_size last ->
  ov_last_oos_start last + ov_last_oos_size last = sector ->
  sector + sectors_of blocks < 18446744073709551616 ->
  result_of (ov_oos_found_all last blocks m) =
    mk_ov_oos (ov_last_oos_start last)
      (ov_last_oos_size last + sectors_of blocks).
Proof.
  induction blocks as [|[s size] rest IH]; intros last sector m Hc H0 H1 He Hmax.
  - simpl. unfold ret, result_of. simpl. rewrite Z.add_0_r. now destruct last.
  - simpl in Hc. destruct Hc as (-> & Hsize & Hrest).
    pose proof (sectors_of_nonneg _ _ Hrest) as Hnn.
    assert (Hs9 : 0 <= Z.shiftr size 9) by (apply Z.shiftr_nonneg; exact Hsize).
    simpl in Hmax.
    simpl. unfold bind at 1.
    unfold drbd_ov_oos_found at 1. unfold bind, modify, ret. simpl.
    rewrite He.
    rewrite (wrap_ulong_small sector) by lia.
    rewrite Z.eqb_refl.
    rewrite (wrap_ulong_small (ov_last_oos_size last + Z.shiftr size 9))
      by lia.
    match goal with
    | |- context [ov_oos_found_all ?l rest ?m'] =>
        specialize (IH l (sector + Z.shiftr size 9) m' Hrest)
    end.
    simpl in IH. unfold result_of in *.
    destruct (ov_oos_found_all _ rest _) as [[r m2] t2]. simpl in *.
    rewrite IH by lia. f_equal. lia.
Qed.

(** X10.  Out-of-sync blocks that follow each other are recorded as one range.
    After the report of a block the recorded range ends where the block
    ends.  A run of contiguous blocks that does not continue the recorded
    range replaces it by the range from the first sector of the run over
    all its sectors; a run that continues the recorded range extends it by
    its sectors.  Every report sets [WRITE_BM_AFTER_RESYNC]. *)
Theorem oos_reports_merge last s size rest m :
  contiguous s ((s, size) :: rest) ->
  0 <= s ->
  0 <= ov_last_oos_start last -> 0 <= ov_last_oos_size last ->
  ov_last_oos_start last + ov_last_oos_size last < 18446744073709551616 ->
  ov_last_oos_size last + s + sectors_of ((s, size) :: rest)
    < 18446744073709551616 ->
  0 <= WRITE_BM_AFTER_RESYNC ->
  let out := ov_oos_found_all last ((s, size) :: rest) m in
  let continues := ov_last_oos_start last + ov_last_oos_size last =? s in
  result_of out =
    (if continues
     then mk_ov_oos (ov_last_oos_start last)
            (ov_last_oos_size last + sectors_of ((s, size) :: rest))
     else mk_ov_oos s (sectors_of ((s, size) :: rest))) /\
  ov_last_oos_start (result_of out) + ov_last_oos_size (result_of out) =
    s + sectors_of ((s, size) :: rest) /\
  test_bit WRITE_BM_AFTER_RESYNC (flags (dev_of out)) = true.
Proof.
  intros Hc Hs H0 H1 Hle Hmax Hbit out continues.
  assert (Hres : result_of out =
    (if continues
     then mk_ov_oos (ov_last_oos_start last)
            (ov_last_oos_size last + sectors_of ((s, size) :: rest))
     else mk_ov_oos s (sectors_of ((s, size) :: rest)))).
  { subst out continues.
    destruct (ov_last_oos_start last + ov_last_oos_size last =? s) eqn:Ec.
    - apply Z.eqb_eq in Ec.
      apply (found_all_grows _ last s m Hc H0 H1 Ec). lia.
    - simpl in Hc. destruct Hc as (_ & Hsize & Hrest).
      pose proof (sectors_of_nonneg _ _ Hrest) as Hnn.
      assert (Hs9 : 0 <= Z.shiftr size 9)
        by (apply Z.shiftr_nonneg; exact Hsize).
      simpl in Hmax.
      simpl. unfold bind at 1.
      unfold drbd_ov_oos_found at 1. unfold bind, modify, ret. simpl.
      rewrite (wrap_ulong_small (ov_last_oos_start last + ov_last_oos_size last))
        by lia.
      rewrite Ec.
      rewrite (wrap_ulong_small (Z.shiftr size 9)) by lia.
      match goal with
      | |- context [ov_oos_found_all ?l rest ?m'] =>
          pose proof (found_all_grows rest l (s + Z.shiftr size 9) m' Hrest)
            as IH
      end.
      simpl in IH. unfold result_of in *.
      destruct (ov_oos_found_all _ rest _) as [[r m2] t2]. simpl in *.
      rewrite IH by lia. reflexivity. }
  split; [exact Hres|]. split.
  - rewrite Hres. subst continues.
    destruct (_ =? s) eqn:Ec; simpl; [apply Z.eqb_eq in Ec|]; lia.
  - subst out. clear Hres. clear continues Hmax Hle H0 H1 Hc.
    assert (Hkeep : forall blocks l m0,
      test_bit WRITE_BM_AFTER_RESYNC (flags m0) = true ->
      test_bit WRITE_BM_AFTER_RESYNC
        (flags (dev_of (ov_oos_found_all l blocks m0))) = true).
    { induction blocks as [|[s1 z1] bl IH]; intros l m0 Hm0;
        [exact Hm0|].
      simpl. unfold bind at 1.
      unfold drbd_ov_oos_found at 1. unfold bind, modify, ret. simpl.
      match goal with
      | |- context [ov_oos_found_all ?l' bl ?m'] =>
          specialize (IH l' m')
      end.
      unfold dev_of in *.
      destruct (ov_oos_found_all _ bl _) as [[r m2] t2]. simpl in *.
      apply IH. unfold test_bit. destruct m0; simpl.
      apply Z.setbit_eq. exact Hbit. }
    simpl. unfold bind at 1.
    unfold drbd_ov_oos_found at 1. unfold bind, modify, ret. simpl.
    match goal with
    | |- context [ov_oos_found_all ?l' rest ?m'] =>
        specialize (Hkeep rest l' m')
    end.
    unfold dev_of in *.
    destruct (ov_oos_found_all _ rest _) as [[r m2] t2]. simpl in *.
    apply Hkeep. unfold test_bit. destruct m; simpl.
    apply Z.setbit_eq. exact Hbit.
Qed.

End Facts.

Lemma oos_reports_merge_witness :
  result_of
    (ov_oos_found_all (mk_ov_oos 0 0) [(64, 4096); (72, 4096); (80, 4096)]
       mdev_verify)
  = mk_ov_oos 64 24.
Proof.
  assert (Hrun := oos_reports_merge (mk_ov_oos 0 0) 64 4096
                    [(72, 4096); (80, 4096)] mdev_verify).
  cbv zeta in Hrun.
  destruct Hrun as (Hres & _).
  - cbn. repeat split; solve [reflexivity | lia].
  - lia.
  - cbn. lia.
  - cbn. lia.
  - vm_compute. reflexivity.
  - vm_compute. reflexivity.
  - vm_compute. discriminate.
  - rewrite Hres. reflexivity.
Defined.

End OutOfSync.
(** ** The end of a run, continued *)

Module FinishPaths.
Section Facts.
Context `{KernelConfig} `{MetaData}.

Ltac run_finish :=
  unfold drbd_resync_finished, finish_locked, _drbd_set_state,
    drbd_queue_work, when, bind, get, modify, emit, ret,
    dev_of, trace_of, result_of; simpl.

Ltac split_ifs :=
  repeat (match goal with
          | |- context [if ?b then _ else _] => destruct b eqn:?
          | |- context [match ?o with Some _ => _ | None => _ end] =>
              destruct o eqn:?
          end; simpl).

Lemma filter_khelper_app t1 t2 :
  List.filter is_khelper (t1 ++ t2) =
    List.filter is_khelper t1 ++ List.filter is_khelper t2.
Proof. apply List.filter_app. Qed.

Lemma finish_locked_keeps env os dt dbdt m :
  let out := finish_locked env os dt dbdt m in
  flags (dev_of out) = flags m /\
  work_q (dev_of out) = work_q m /\
  List.filter is_queue_bitmap_io (trace_of out) = [] /\
  List.filter is_bm_recount (trace_of out) = [] /\
  List.filter is_khelper (trace_of out) = [] /\
  result_of out =
    (if is_verify (conn os) then
       if negb (bm_total_weight env =? 0) then Some "out-of-sync"%string
       else None
     else if is_sync_target (conn os)
     then Some "after-resync-target"%string
     else None).
Proof.
  unfold finish_locked, _drbd_set_state, when, bind, get, modify, emit, ret,
    dev_of, trace_of, result_of; simpl.
  destruct (is_verify (conn os)); simpl;
    [destruct (negb (bm_total_weight env =? 0)); simpl|
     destruct (is_sync_target (conn os)); simpl];
    split_ifs; repeat split; reflexivity.
Qed.

Lemma filter_cons_false (p : event -> bool) ev t :
  p ev = false -> List.filter p (ev :: t) = List.filter p t.
Proof. intros Hp. simpl. now rewrite Hp. Qed.

Ltac run_outer FL Hk :=
  unfold drbd_resync_finished;
  set (FL := finish_locked _) in *; clearbody FL;
  unfold count, test_bit, state_changes, drbd_queue_work, when, bind, get,
    modify, emit, ret, dev_of, trace_of, result_of in *.

Ltac locked FL Hk :=
  match goal with
  | |- context [FL ?os ?dt ?dbdt ?m'] =>
      specialize (Hk os dt dbdt m');
      destruct (FL os dt dbdt m') as [[c m1] t1];
      simpl in Hk;
      destruct Hk as (Hflags & Hwq & Hbm & Hrc & Hkh & Hres)
  end.

(** X11.  The helper program a finishing call runs.  A call that is deferred,
    that does not get the local disk or that finds the connection state at
    or below [Connected] runs none.  Otherwise a verify run calls
    "out-of-sync" when the bitmap has bits set and nothing when it has
    none; a resync calls "after-resync-target" on the target and nothing on
    the source.  The helper is called once, after everything else. *)
Theorem helper_follows_the_run env m :
  let t := trace_of (drbd_resync_finished env m) in
  List.filter is_khelper t =
    match helper_called env m with
    | Some cmd => [Ev_khelper cmd]
    | None => []
    end /\
  (forall cmd, helper_called env m = Some cmd ->
     last t = Some (Ev_khelper cmd)).
Proof.
  unfold helper_called, finish_deferred.
  pose proof (finish_locked_keeps env) as Hk. cbv zeta in Hk.
  run_outer FL Hk.
  destruct (rs_del_all_busy env), (kmalloc_w_ok env); simpl;
    try (split; [reflexivity|intros cmd; discriminate]);
    (destruct (inc_local_ok env); simpl;
     [destruct (conn_leb (conn (state m)) Connected); simpl;
      [|locked FL Hk; simpl; rewrite Hflags, <- Hres]|]).
  all: destruct (Z.testbit (flags m) WRITE_BM_AFTER_RESYNC); simpl.
  all: try (destruct c; simpl).
  all: rewrite ?List.filter_app, ?Hkh; simpl.
  all: rewrite ?List.filter_app, ?Hkh; simpl.
  all: split; [reflexivity|intros cmd Hc; try discriminate].
  all: inversion Hc; subst.
  all: rewrite ?last_app, ?last_cons; simpl; rewrite ?last_app; reflexivity.
Qed.

(** X12.  When the resync LRU is busy and the work item for another try cannot
    be allocated, the call goes on as if the LRU had been free: it returns
    the same value and leaves the same device, and its trace is that of the
    free case after the attempt to wait and the warning. *)
Theorem failed_allocation_finishes_anyway env m :
  rs_del_all_busy env = true ->
  kmalloc_w_ok env = false ->
  let free := mk_finish_env false (kmalloc_w_ok env) (jiffies env)
                (inc_local_ok env) (bm_total_weight env) in
  let out := drbd_resync_finished env m in
  let ref := drbd_resync_finished free m in
  result_of out = result_of ref /\
  dev_of out = dev_of ref /\
  trace_of out =
    [Ev_kick_lo; Ev_schedule_timeout;
     Ev_ERR "Warn failed to drbd_rs_del_all() and to kmalloc(w)."]
    ++ trace_of ref.
Proof.
  intros Hbusy Hk. cbv zeta.
  unfold drbd_resync_finished, finish_locked.
  cbn [jiffies inc_local_ok bm_total_weight rs_del_all_busy kmalloc_w_ok].
  rewrite Hbusy, Hk.
  match goal with
  | |- context [bind (ret false) ?k] => set (K := k)
  end.
  clearbody K.
  unfold bind, emit, ret, result_of, dev_of, trace_of. cbn beta iota.
  destruct (K false m) as [[r m1] t1]. simpl. auto.
Qed.

Lemma finish_tail env m :
  finish_deferred env = false ->
  let out := drbd_resync_finished env m in
  result_of out = 1 /\
  work_q (dev_of out) = work_q m /\
  rs_total (dev_of out) = 0 /\ rs_failed (dev_of out) = 0 /\
  rs_paused (dev_of out) = 0 /\
  flags (dev_of out) =
    (if test_bit WRITE_BM_AFTER_RESYNC (flags m)
     then Z.clearbit (flags m) WRITE_BM_AFTER_RESYNC else flags m) /\
  count is_queue_bitmap_io (trace_of out) =
    Z.b2z (test_bit WRITE_BM_AFTER_RESYNC (flags m)) /\
  count is_bm_recount (trace_of out) = 1.
Proof.
  unfold finish_deferred. intros Hdef.
  pose proof (finish_locked_keeps env) as Hk. cbv zeta in Hk.
  run_outer FL Hk.
  destruct (rs_del_all_busy env), (kmalloc_w_ok env); try discriminate;
    simpl;
    destruct (inc_local_ok env); simpl;
    try (destruct (conn_leb (conn (state m)) Connected); simpl);
    try (locked FL Hk; simpl; rewrite Hflags).
  all: destruct (Z.testbit (flags m) WRITE_BM_AFTER_RESYNC); simpl.
  all: try (destruct c; simpl).
  all: rewrite ?List.filter_app, ?Hbm, ?Hrc; simpl.
  all: rewrite ?List.filter_app, ?Hbm, ?Hrc; simpl.
  all: repeat split; try reflexivity; try assumption; congruence.
Qed.

Lemma finish_no_run env m :
  finish_deferred env = false ->
  inc_local_ok env = false \/ conn_leb (conn (state m)) Connected = true ->
  let out := drbd_resync_finished env m in
  state (dev_of out) = state m /\
  md_uuid (dev_of out) = md_uuid m /\
  p_uuid (dev_of out) = p_uuid m /\
  state_changes (trace_of out) = 0%nat.
Proof.
  unfold finish_deferred, state_changes. intros Hdef Hno. run_finish.
  destruct (rs_del_all_busy env), (kmalloc_w_ok env); try discriminate;
    simpl;
    (destruct (inc_local_ok env); simpl;
     [destruct Hno as [Hno|Hno]; [discriminate|]; rewrite Hno; simpl|]);
    split_ifs; simpl; repeat split; reflexivity.
Qed.

Lemma finish_deferred_run env m :
  finish_deferred env = true ->
  drbd_resync_finished env m =
    (1, set_work_q (work_q m ++ [Work_item cb_w_resync_finished]) m,
     [Ev_kick_lo; Ev_schedule_timeout]).
Proof.
  unfold finish_deferred. intros Hdef.
  apply andb_true_iff in Hdef as [Hb Hk].
  unfold drbd_resync_finished, drbd_queue_work, bind, modify, emit, ret.
  rewrite Hb, Hk. reflexivity.
Qed.

(** X13.  The accounting of a run is closed by every call that is not deferred,
    also by one that finds no local disk or the run over already: such a
    call leaves the state and the UUIDs alone and installs no state, yet
    like any other it zeroes [rs_total], [rs_failed] and [rs_paused],
    recounts the bitmap once, leaves the queue alone and returns 1.  A
    deferred call only queues itself for another try. *)
Theorem finish_closes_the_accounts env m :
  let out := drbd_resync_finished env m in
  (finish_deferred env = true ->
     out = (1, set_work_q (work_q m ++ [Work_item cb_w_resync_finished]) m,
            [Ev_kick_lo; Ev_schedule_timeout])) /\
  (finish_deferred env = false ->
     result_of out = 1 /\
     work_q (dev_of out) = work_q m /\
     rs_total (dev_of out) = 0 /\ rs_failed (dev_of out) = 0 /\
     rs_paused (dev_of out) = 0 /\
     count is_bm_recount (trace_of out) = 1) /\
  (finish_deferred env = false ->
   inc_local_ok env = false \/ conn_leb (conn (state m)) Connected = true ->
     state (dev_of out) = state m /\
     md_uuid (dev_of out) = md_uuid m /\
     p_uuid (dev_of out) = p_uuid m /\
     state_changes (trace_of out) = 0%nat).
Proof.
  cbv zeta. split; [apply finish_deferred_run|]. split.
  - intros Hdef.
    destruct (finish_tail env m Hdef) as (H1 & H2 & H3 & H4 & H5 & _ & _ & H8).
    auto 10.
  - apply finish_no_run.
Qed.

(** X14.  The whole bitmap is written out at the end of a run exactly when
    [WRITE_BM_AFTER_RESYNC] is set: a call that is not deferred queues the
    write once when it finds the flag and not at all otherwise, clears the
    flag and touches no other flag. *)
Theorem bitmap_written_when_flagged env m :
  finish_deferred env = false ->
  let out := drbd_resync_finished env m in
  count is_queue_bitmap_io (trace_of out) =
    Z.b2z (test_bit WRITE_BM_AFTER_RESYNC (flags m)) /\
  test_bit WRITE_BM_AFTER_RESYNC (flags (dev_of out)) = false /\
  (forall b, b <> WRITE_BM_AFTER_RESYNC ->
     test_bit b (flags (dev_of out)) = test_bit b (flags m)).
Proof.
  intros Hdef.
  destruct (finish_tail env m Hdef) as (_ & _ & _ & _ & _ & Hf & Hq & _).
  cbv zeta. split; [exact Hq|]. rewrite Hf.
  destruct (test_bit WRITE_BM_AFTER_RESYNC (flags m)) eqn:Hbit; split.
  - apply Z.clearbit_eq.
  - intros b Hb. unfold test_bit. apply Z.clearbit_neq. congruence.
  - exact Hbit.
  - reflexivity.
Qed.

(** X15.  A block that online verify reports out of sync makes the call that
    ends the run write the whole bitmap, once. *)
Theorem oos_report_forces_bitmap_write env last sector size m :
  0 <= WRITE_BM_AFTER_RESYNC ->
  finish_deferred env = false ->
  let m1 := dev_of (drbd_ov_oos_found last sector size m) in
  count is_queue_bitmap_io (trace_of (drbd_resync_finished env m1)) = 1.
Proof.
  intros Hbit Hdef m1.
  destruct (finish_tail env m1 Hdef) as (_ & _ & _ & _ & _ & _ & Hq & _).
  rewrite Hq.
  assert (Hset : test_bit WRITE_BM_AFTER_RESYNC (flags m1) = true).
  { subst m1. unfold drbd_ov_oos_found, bind, modify, ret, dev_of, test_bit.
    simpl. destruct m; simpl. apply Z.setbit_eq. exact Hbit. }
  rewrite Hset. reflexivity.
Qed.

End Facts.

Lemma bitmap_written_witness :
  count is_queue_bitmap_io
    (trace_of (drbd_resync_finished env_quiet mdev_target_done)) = 0.
Proof.
  destruct (bitmap_written_when_flagged env_quiet mdev_target_done)
    as (Hq & _).
  - reflexivity.
  - rewrite Hq. vm_compute. reflexivity.
Defined.

Lemma oos_report_witness :
  count is_queue_bitmap_io
    (trace_of (drbd_resync_finished env_three_oos
       (dev_of (drbd_ov_oos_found (mk_ov_oos 0 0) 64 4096 mdev_verify_done))))
  = 1.
Proof.
  apply (oos_report_forces_bitmap_write env_three_oos (mk_ov_oos 0 0) 64 4096
           mdev_verify_done).
  - vm_compute. discriminate.
  - reflexivity.
Defined.

Lemma failed_allocation_witness :
  dev_of (drbd_resync_finished (mk_finish_env true false 1000 true 0)
            mdev_target_done)
  = dev_of (drbd_resync_finished (mk_finish_env false false 1000 true 0)
              mdev_target_done).
Proof.
  apply (failed_allocation_finishes_anyway
           (mk_finish_env true false 1000 true 0) mdev_target_done);
    reflexivity.
Defined.

End FinishPaths.
(** ** The scan ticks, continued *)

Module ScanOrder.
Section Facts.
Context `{KernelConfig}.

Ltac run_scan :=
  unfold resync_turn, ov_turn, read_for_csum, resync_requeue, set_inactive,
    drbd_send_drequest, drbd_send_ov_request, inc_rs_pending, dec_rs_pending,
    when, bind, get, modify, emit, ret, dev_of, trace_of, result_of; simpl.

Ltac split_ifs :=
  repeat (match goal with
          | |- context [if ?b then _ else _] => destruct b eqn:?
          | |- context [match ?o with Some _ => _ | None => _ end] =>
              destruct o as [[[? ?] ?]|] eqn:? || destruct o eqn:?
          end; simpl).

(** *** A failed send ends the tick *)

Lemma send_results_app t1 t2 :
  send_results (t1 ++ t2) = send_results t1 ++ send_results t2.
Proof.
  induction t1 as [|ev t1 IH]; simpl; [reflexivity|].
  destruct (pending_send ev); simpl; now rewrite IH.
Qed.

Lemma resync_turn_sends env i m :
  let out := resync_turn env i m in
  send_results (trace_of out) = [] \/
  (send_results (trace_of out) = [true] /\
   exists i', result_of out = Turn_next i') \/
  (send_results (trace_of out) = [false] /\
   result_of out = Turn_exit (Exit_return 0)).
Proof.
  run_scan.
  destruct (bm_find_next env (bm_resync_fo m)) as [bit|]; simpl; [|auto].
  destruct (send_request_ok env (BM_BIT_TO_SECT bit)) eqn:Hsend;
    split_ifs; eauto.
Qed.

Lemma resync_loop_sends fuel env number i m :
  let out := resync_loop fuel env number i m in
  stops_at_failure (send_results (trace_of out)) = true /\
  (In false (send_results (trace_of out)) ->
   result_of out = Some (Exit_return 0)).
Proof.
  revert i m. induction fuel as [|fuel IH]; intros i m; simpl.
  - unfold ret, trace_of, result_of. simpl. split; [reflexivity|intros []].
  - destruct (i <? number); simpl.
    2: { unfold ret, trace_of, result_of. simpl.
         split; [reflexivity|intros []]. }
    pose proof (resync_turn_sends env i m) as Hturn.
    unfold bind. unfold trace_of, result_of in *.
    destruct (resync_turn env i m) as [[r m1] t1]. simpl in *.
    destruct r as [x|i'|]; simpl.
    + rewrite app_nil_r.
      destruct Hturn as [-> | [[-> [i' E]] | [-> E]]]; simpl.
      * split; [reflexivity|intros []].
      * discriminate E.
      * injection E as ->. split; [reflexivity|]. reflexivity.
    + specialize (IH i' m1).
      destruct (resync_loop fuel env number i' m1) as [[r2 m2] t2].
      simpl in *. rewrite send_results_app.
      destruct Hturn as [-> | [[-> _] | [-> E]]]; simpl.
      * exact IH.
      * destruct IH as [IH1 IH2]. split; [exact IH1|].
        intros [E|Hin]; [discriminate E|now apply IH2].
      * discriminate E.
    + rewrite app_nil_r.
      destruct Hturn as [-> | [[-> [i' E]] | [-> E]]]; simpl.
      * split; [reflexivity|intros []].
      * discriminate E.
      * discriminate E.
Qed.

Lemma ov_turn_sends env sector m :
  let out := ov_turn env sector m in
  send_results (trace_of out) = [] \/
  (send_results (trace_of out) = [true] /\
   fst (result_of out) <> Some (Exit_return 0)) \/
  (send_results (trace_of out) = [false] /\
   fst (result_of out) = Some (Exit_return 0)).
Proof.
  run_scan.
  destruct (send_request_ok env sector) eqn:Hsend; split_ifs;
    try (now left);
    try (right; left; split; [reflexivity|discriminate]);
    right; right; split; reflexivity.
Qed.

Lemma ov_loop_sends n env sector m :
  let out := ov_loop n env sector m in
  stops_at_failure (send_results (trace_of out)) = true /\
  (In false (send_results (trace_of out)) ->
   fst (result_of out) = Exit_return 0).
Proof.
  revert sector m. induction n as [|n IH]; intros sector m; simpl.
  - unfold ret, trace_of, result_of. simpl. split; [reflexivity|intros []].
  - pose proof (ov_turn_sends env sector m) as Hturn.
    unfold bind. unfold trace_of, result_of in *.
    destruct (ov_turn env sector m) as [[[x sector'] m1] t1]. simpl in *.
    destruct x as [x|]; simpl.
    + rewrite app_nil_r.
      destruct Hturn as [-> | [[-> Hne] | [-> E]]]; simpl.
      * split; [reflexivity|intros []].
      * split; [reflexivity|]. intros [E|[]]. discriminate E.
      * injection E as ->. split; reflexivity.
    + specialize (IH sector' m1).
      destruct (ov_loop n env sector' m1) as [[r2 m2] t2].
      simpl in *. rewrite send_results_app.
      destruct Hturn as [-> | [[-> _] | [-> E]]]; simpl.
      * exact IH.
      * destruct IH as [IH1 IH2]. split; [exact IH1|].
        intros [E|Hin]; [discriminate E|now apply IH2].
      * discriminate E.
Qed.

Lemma resync_tick_sends fuel env cancel m :
  let out := w_make_resync_request fuel env cancel m in
  stops_at_failure (send_results (trace_of out)) = true /\
  (In false (send_results (trace_of out)) -> result_of out = Some 0).
Proof.
  unfold w_make_resync_request.
  destruct cancel;
    [unfold ret, trace_of; simpl; split; [reflexivity|intros []]|].
  run_scan.
  destruct (conn_ltb _ _); simpl; [split; [reflexivity|intros []]|].
  destruct (scan_inc_local_ok env); simpl.
  2: { destruct (negb (conn_eqb _ _)); simpl;
         (split; [reflexivity|intros []]). }
  destruct (rs_pending_cnt m >? tick_number m); cbv beta iota.
  { destruct (negb (conn_eqb _ _)); simpl;
      (split; [reflexivity|intros []]). }
  pose proof (resync_loop_sends fuel env (tick_budget m) 0 m) as Hloop.
  unfold trace_of, result_of in Hloop.
  destruct (negb (conn_eqb _ _)); simpl;
    destruct (resync_loop fuel env (tick_budget m) 0 m) as [[x m1] t1];
    simpl in *;
    (destruct x as [[r| |]|]; simpl;
     [| |destruct (bm_bits env <=? bm_resync_fo m1); simpl|];
     rewrite ?send_results_app; simpl; rewrite ?app_nil_r;
     (split; [exact (proj1 Hloop)|]);
     intros Hin; apply (proj2 Hloop) in Hin; congruence).
Qed.

Lemma ov_tick_sends env cancel m :
  let out := w_make_ov_request env cancel m in
  stops_at_failure (send_results (trace_of out)) = true /\
  (In false (send_results (trace_of out)) -> result_of out = 0).
Proof.
  unfold w_make_ov_request.
  destruct cancel;
    [unfold ret, trace_of; simpl; split; [reflexivity|intros []]|].
  run_scan.
  destruct (conn_ltb _ _); simpl; [split; [reflexivity|intros []]|].
  destruct (rs_pending_cnt m >? tick_number m); cbv beta iota;
    [simpl; split; [reflexivity|intros []]|].
  pose proof (ov_loop_sends (Z.to_nat (tick_budget m)) env (ov_position m) m)
    as Hloop.
  unfold trace_of, result_of in Hloop.
  destruct (ov_loop _ env (ov_position m) m) as [[[x sector] m1] t1].
  simpl in *.
  destruct x as [r| |]; simpl;
    rewrite ?send_results_app; simpl; rewrite ?app_nil_r;
    (split; [exact (proj1 Hloop)|]);
    intros Hin; apply (proj2 Hloop) in Hin; congruence.
Qed.

(** X16.  A request that fails to go out is the last of its tick: in either tick
    the answers of the link are successes followed by at most one failure,
    and a tick with a failure returns 0. *)
Theorem tick_stops_at_first_failed_send fuel env cancel m :
  let rs := w_make_resync_request fuel env cancel m in
  let ov := w_make_ov_request env cancel m in
  stops_at_failure (send_results (trace_of rs)) = true /\
  (In false (send_results (trace_of rs)) -> result_of rs = Some 0) /\
  stops_at_failure (send_results (trace_of ov)) = true /\
  (In false (send_results (trace_of ov)) -> result_of ov = 0).
Proof.
  cbv zeta.
  destruct (resync_tick_sends fuel env cancel m) as [H1 H2].
  destruct (ov_tick_sends env cancel m) as [H3 H4].
  auto.
Qed.

(** *** The merge of adjacent bits *)

Lemma merge_adjacent_covers fuel env sector :
  forall bit size align i bit' size' i',
  merge_adjacent fuel env sector bit size align i = Some (bit', size', i') ->
  bit <= bit' /\
  size' = size + (bit' - bit) * BM_BLOCK_SIZE /\
  i' = i + (bit' - bit) /\
  (forall b, bit < b <= bit' ->
     bm_test_bit env b = 1 /\ Z.land b BM_BLOCKS_PER_BM_EXT_MASK <> 0) /\
  (bit < bit' -> size' <= max_segment_size env).
Proof.
  induction fuel as [|fuel IH]; intros bit size align i bit' size' i';
    simpl; [discriminate|].
  destruct (size + BM_BLOCK_SIZE >? max_segment_size env) eqn:Hmax.
  { intros E; injection E as <- <- <-. repeat split; try lia. }
  destruct (negb (Z.land sector _ =? 0)).
  { intros E; injection E as <- <- <-. repeat split; try lia. }
  destruct (Z.land (bit + 1) BM_BLOCKS_PER_BM_EXT_MASK =? 0) eqn:Hext.
  { intros E; injection E as <- <- <-. repeat split; try lia. }
  destruct (negb (bm_test_bit env (bit + 1) =? 1)) eqn:Hdirty.
  { intros E; injection E as <- <- <-. repeat split; try lia. }
  intros E. apply IH in E as (Hle & Hsize & Hi & Hbits & Hseg).
  apply negb_false_iff, Z.eqb_eq in Hdirty.
  apply Z.eqb_neq in Hext.
  rewrite Z.gtb_ltb in Hmax. apply Z.ltb_ge in Hmax.
  split; [lia|]. split; [lia|]. split; [lia|]. split.
  - intros b Hb. destruct (Z.eq_dec b (bit + 1)) as [->|Hne].
    + split; assumption.
    + apply Hbits. lia.
  - intros _. destruct (Z.eq_dec bit' (bit + 1)) as [->|Hne].
    + lia.
    + apply Hseg. lia.
Qed.


Lemma merged_last_bit_dirty env sector bit i bit' size' i' :
  merged env sector bit i = Some (bit', size', i') ->
  bit <= bit' /\ (bit < bit' -> bm_test_bit env bit' = 1).
Proof.
  unfold merged. destruct (_ >? _).
  - intros E. apply merge_adjacent_covers in E as (H1 & _ & _ & H4 & _).
    split; [exact H1|]. intros Hlt. apply H4. lia.
  - intros E; injection E as <- <- <-. split; lia.
Qed.

(** *** The cursor of the resync scan *)

Lemma sect_to_bit_round_trip bit :
  9 <= BM_BLOCK_SIZE_B -> BM_SECT_TO_BIT (BM_BIT_TO_SECT bit) = bit.
Proof.
  intros HB. unfold BM_SECT_TO_BIT, BM_BIT_TO_SECT.
  rewrite Z.shiftr_shiftl_l by lia.
  now rewrite Z.sub_diag, Z.shiftl_0_r.
Qed.

Lemma resync_turn_cursor env i m :
  find_next_sound env -> test_bit_sound env -> 9 <= BM_BLOCK_SIZE_B ->
  bm_resync_fo m <= bm_bits env ->
  let out := resync_turn env i m in
  bm_resync_fo m <= bm_resync_fo (dev_of out) <= bm_bits env.
Proof.
  intros Hfind Htest HB Hfo. run_scan.
  destruct (bm_find_next env (bm_resync_fo m)) as [bit|] eqn:Hnext; simpl.
  2: { lia. }
  destruct (Hfind _ _ Hnext) as [Hlo Hbit].
  destruct (try_rs_begin_io env _); simpl; [lia|].
  destruct (bm_test_bit env bit =? 0); simpl; [lia|].
  destruct (merged env (BM_BIT_TO_SECT bit) bit i)
    as [[[bit' size'] i1]|] eqn:Hm; simpl; [|lia].
  apply merged_last_bit_dirty in Hm as (Hle & Hdirty).
  assert (Hin : bit' < bm_bits env).
  { destruct (Z.eq_dec bit' bit) as [->|Hne]; [lia|].
    apply (Htest bit'). apply Hdirty. lia. }
  rewrite ?(sect_to_bit_round_trip bit HB).
  split_ifs; rewrite ?(sect_to_bit_round_trip bit HB); lia.
Qed.

Lemma resync_loop_cursor fuel env number i m :
  find_next_sound env -> test_bit_sound env -> 9 <= BM_BLOCK_SIZE_B ->
  bm_resync_fo m <= bm_bits env ->
  let out := resync_loop fuel env number i m in
  bm_resync_fo m <= bm_resync_fo (dev_of out) <= bm_bits env.
Proof.
  intros Hfind Htest HB. revert i m.
  induction fuel as [|fuel IH]; intros i m Hfo; simpl.
  - unfold ret, dev_of. simpl. lia.
  - destruct (i <? number); simpl.
    2: { unfold ret, dev_of. simpl. lia. }
    pose proof (resync_turn_cursor env i m Hfind Htest HB Hfo) as Hturn.
    unfold bind. unfold dev_of in *.
    destruct (resync_turn env i m) as [[r m1] t1]. simpl in *.
    destruct r as [x|i'|]; simpl; try exact Hturn.
    specialize (IH i' m1 ltac:(lia)).
    destruct (resync_loop fuel env number i' m1) as [[r2 m2] t2].
    simpl in *. lia.
Qed.

(** X18.  The cursor of the resync scan never moves back and never leaves the
    bitmap, whatever way the tick ends; this for a bitmap whose search and
    whose bit test answer inside the bitmap. *)
Theorem cursor_never_moves_back fuel env cancel m :
  find_next_sound env -> test_bit_sound env -> 9 <= BM_BLOCK_SIZE_B ->
  bm_resync_fo m <= bm_bits env ->
  let out := w_make_resync_request fuel env cancel m in
  bm_resync_fo m <= bm_resync_fo (dev_of out) <= bm_bits env.
Proof.
  intros Hfind Htest HB Hfo. unfold w_make_resync_request.
  destruct cancel; [unfold ret, dev_of; simpl; lia|].
  run_scan.
  destruct (conn_ltb _ _); simpl; [lia|].
  destruct (scan_inc_local_ok env); simpl.
  2: { destruct (negb (conn_eqb _ _)); simpl; lia. }
  destruct (rs_pending_cnt m >? tick_number m); simpl.
  { destruct (negb (conn_eqb _ _)); simpl; lia. }
  pose proof (resync_loop_cursor fuel env (tick_budget m) 0 m
                Hfind Htest HB Hfo) as Hloop.
  unfold dev_of in Hloop.
  destruct (negb (conn_eqb _ _)); simpl;
    destruct (resync_loop fuel env (tick_budget m) 0 m) as [[x m1] t1];
    simpl in *;
    (destruct x as [[r| |]|]; simpl;
     [| |destruct (bm_bits env <=? bm_resync_fo m1); simpl|];
     exact Hloop).
Qed.

(** X19.  A pass through the loop body that leaves by [goto requeue], because
    the resync extent is busy or no entry could be had for the local read,
    has issued no request and leaves the cursor on the bit it found, so
    that the next tick finds this bit again. *)
Theorem requeue_keeps_the_bit env i m :
  9 <= BM_BLOCK_SIZE_B ->
  let out := resync_turn env i m in
  result_of out = Turn_exit Exit_requeue ->
  exists bit,
    bm_find_next env (bm_resync_fo m) = Some bit /\
    bm_resync_fo (dev_of out) = bit /\
    requests (trace_of out) = [] /\
    send_results (trace_of out) = [] /\
    rs_pending_cnt (dev_of out) = rs_pending_cnt m.
Proof.
  intros HB. run_scan.
  destruct (bm_find_next env (bm_resync_fo m)) as [bit|] eqn:Hnext; simpl;
    [|discriminate].
  intros Hres. exists bit. split; [reflexivity|]. revert Hres.
  split_ifs; intros Hres; try discriminate Hres;
    rewrite ?(sect_to_bit_round_trip bit HB); repeat split; reflexivity.
Qed.

(** *** Resync with and without checksums *)

Lemma resync_turn_mode env i m :
  let out := resync_turn env i m in
  csum_mode (dev_of out) = csum_mode m /\
  if csum_mode m then
    List.filter is_network_send (trace_of out) = [] /\
    rs_pending_cnt (dev_of out) = rs_pending_cnt m /\
    Forall (fun e => e_cb e = cb_w_e_send_csum \/ In e (read_ee m))
      (read_ee (dev_of out))
  else
    List.filter is_local_read (trace_of out) = [] /\
    read_ee (dev_of out) = read_ee m /\
    read_cnt (dev_of out) = read_cnt m.
Proof.
  assert (Hold : forall l : list Tl_epoch_entry,
            Forall (fun e => e_cb e = cb_w_e_send_csum \/ In e l) l).
  { intros l. apply List.Forall_forall. intros e He. now right. }
  unfold csum_mode. run_scan.
  destruct (bm_find_next env (bm_resync_fo m)) as [bit|]; simpl.
  2: { split; [reflexivity|]. destruct (_ && _); auto. }
  destruct (try_rs_begin_io env _); simpl.
  { split; [reflexivity|]. destruct (_ && _); auto. }
  destruct (bm_test_bit env bit =? 0); simpl.
  { split; [reflexivity|]. destruct (_ && _); auto. }
  destruct (merged env (BM_BIT_TO_SECT bit) bit i)
    as [[[bit' size'] i1]|]; simpl.
  2: { split; [reflexivity|]. destruct (_ && _); auto. }
  assert (Hnew : forall (e : Tl_epoch_entry) l,
            e_cb e = cb_w_e_send_csum ->
            Forall (fun e => e_cb e = cb_w_e_send_csum \/ In e l) (e :: l)).
  { intros e l He. constructor; [now left|].
    apply List.Forall_forall. intros e' He'. now right. }
  destruct (size' >? BM_BLOCK_SIZE); simpl;
    (destruct ((89 <=? agreed_pro_version m)
               && match csums_tfm m with Some _ => true | None => false end)
       eqn:Hmode; simpl;
     [ destruct (csum_inc_local_ok env (BM_BIT_TO_SECT bit)); simpl;
       [ destruct (csum_fault_active env (BM_BIT_TO_SECT bit)); simpl;
         [ | destruct (csum_alloc_ee env (BM_BIT_TO_SECT bit)) as [addr|];
             simpl ] | ];
       rewrite ?Hmode;
       (split; [reflexivity|]); (split; [reflexivity|]);
       (split; [reflexivity|]);
       first [apply Hold | apply Hnew; reflexivity]
     | destruct (send_request_ok env (BM_BIT_TO_SECT bit)); simpl;
       rewrite ?Hmode; auto ]).
Qed.

Lemma resync_loop_mode fuel env number : forall i m,
  let out := resync_loop fuel env number i m in
  if csum_mode m then
    List.filter is_network_send (trace_of out) = [] /\
    rs_pending_cnt (dev_of out) = rs_pending_cnt m /\
    Forall (fun e => e_cb e = cb_w_e_send_csum \/ In e (read_ee m))
      (read_ee (dev_of out))
  else
    List.filter is_local_read (trace_of out) = [] /\
    read_ee (dev_of out) = read_ee m /\
    read_cnt (dev_of out) = read_cnt m.
Proof.
  assert (Hold : forall l : list Tl_epoch_entry,
            Forall (fun e => e_cb e = cb_w_e_send_csum \/ In e l) l).
  { intros l. apply List.Forall_forall. intros e He. now right. }
  induction fuel as [|fuel IH]; intros i m; simpl.
  - unfold ret, trace_of, dev_of. simpl. destruct (csum_mode m); auto.
  - destruct (i <? number); simpl.
    2: { unfold ret, trace_of, dev_of. simpl. destruct (csum_mode m); auto. }
    pose proof (resync_turn_mode env i m) as [Hkeep Hturn].
    unfold bind. unfold trace_of, dev_of in *.
    destruct (resync_turn env i m) as [[r m1] t1]. simpl in *.
    destruct r as [x|i'|]; simpl; rewrite ?app_nil_r; try exact Hturn.
    specialize (IH i' m1). rewrite Hkeep in IH.
    destruct (resync_loop fuel env number i' m1) as [[r2 m2] t2].
    simpl in *.
    destruct (csum_mode m); rewrite List.filter_app.
    + destruct Hturn as (Ht & Hp & Hee). destruct IH as (IHt & IHp & IHee).
      rewrite Ht, IHt. split; [reflexivity|]. split; [congruence|].
      rewrite List.Forall_forall in *. intros e He.
      destruct (IHee e He) as [Hcb|Hin]; [now left|]. now apply Hee.
    + destruct Hturn as (Ht & Hee & Hc). destruct IH as (IHt & IHee & IHc).
      rewrite Ht, IHt. repeat split; congruence.
Qed.

(** X20.  A resync tick works in one of two ways and does not mix them.  With
    checksums (protocol 89 and a checksum transform) it puts nothing on the
    link and leaves [rs_pending_cnt] alone: all it does is start local
    reads, whose entries it puts on [read_ee] with [w_e_send_csum] as
    callback.  Without checksums it starts no local read and leaves
    [read_ee] and [read_cnt] alone. *)
Theorem resync_tick_reads_or_requests fuel env cancel m :
  let out := w_make_resync_request fuel env cancel m in
  if csum_mode m then
    List.filter is_network_send (trace_of out) = [] /\
    rs_pending_cnt (dev_of out) = rs_pending_cnt m /\
    Forall (fun e => e_cb e = cb_w_e_send_csum \/ In e (read_ee m))
      (read_ee (dev_of out))
  else
    List.filter is_local_read (trace_of out) = [] /\
    read_ee (dev_of out) = read_ee m /\
    read_cnt (dev_of out) = read_cnt m.
Proof.
  assert (Hold : forall l : list Tl_epoch_entry,
            Forall (fun e => e_cb e = cb_w_e_send_csum \/ In e l) l).
  { intros l. apply List.Forall_forall. intros e He. now right. }
  unfold w_make_resync_request.
  destruct cancel;
    [unfold ret, trace_of, dev_of; simpl; destruct (csum_mode m); auto|].
  run_scan.
  destruct (conn_ltb _ _); simpl; [destruct (csum_mode m); auto|].
  destruct (scan_inc_local_ok env); simpl.
  2: { destruct (negb (conn_eqb _ _)); simpl; destruct (csum_mode m); auto. }
  destruct (rs_pending_cnt m >? tick_number m); cbv beta iota.
  { destruct (negb (conn_eqb _ _)); simpl; destruct (csum_mode m); auto. }
  pose proof (resync_loop_mode fuel env (tick_budget m) 0 m) as Hloop.
  unfold trace_of, dev_of in Hloop.
  destruct (negb (conn_eqb _ _)); simpl;
    destruct (resync_loop fuel env (tick_budget m) 0 m) as [[x m1] t1];
    simpl in *;
    (destruct x as [[r| |]|]; simpl;
     [| |destruct (bm_bits env <=? bm_resync_fo m1); simpl|];
     destruct (csum_mode m);
     rewrite ?List.filter_app; simpl; rewrite ?app_nil_r;
     exact Hloop).
Qed.

(** *** The order of the verify requests *)

Lemma BM_SECT_PER_BIT_nonneg : 0 <= BM_SECT_PER_BIT.
Proof.
  unfold BM_SECT_PER_BIT, BM_BLOCK_SIZE. apply Z.shiftr_nonneg.
  apply Z.shiftl_nonneg. lia.
Qed.

Lemma mod_timers_nil : mod_timers [] = 0.
Proof. reflexivity. Qed.

Lemma ov_turn_order env sector m :
  0 <= sector -> sector + BM_SECT_PER_BIT < 18446744073709551616 ->
  let out := ov_turn env sector m in
  let t := trace_of out in
  mod_timers t = 0 /\
  match fst (result_of out) with
  | Some Exit_requeue =>
      requests t = [] /\ ov_position (dev_of out) = sector
  | Some (Exit_return _) =>
      map fst (requests t) = [sector] /\
      ov_position (dev_of out) = ov_position m
  | Some Exit_done => False
  | None =>
      map fst (requests t) = [sector] /\
      ov_position (dev_of out) = ov_position m /\
      snd (result_of out) = sector + BM_SECT_PER_BIT
  end.
Proof.
  intros Hlo Hhi. pose proof BM_SECT_PER_BIT_nonneg as Hnn.
  run_scan. unfold mod_timers, count.
  rewrite (wrap_ulong_small (sector + BM_SECT_PER_BIT)) by lia.
  destruct (send_request_ok env sector); split_ifs; simpl;
    repeat split; reflexivity.
Qed.

Lemma ov_loop_order n env : forall sector m,
  0 <= sector ->
  sector + Z.of_nat n * BM_SECT_PER_BIT < 18446744073709551616 ->
  let out := ov_loop n env sector m in
  let t := trace_of out in
  let k := length (requests t) in
  map fst (requests t) = ov_sectors k sector /\
  mod_timers t = 0 /\
  match fst (result_of out) with
  | Exit_requeue =>
      ov_position (dev_of out) = sector + Z.of_nat k * BM_SECT_PER_BIT
  | Exit_done =>
      ov_position (dev_of out) = ov_position m /\
      snd (result_of out) = sector + Z.of_nat k * BM_SECT_PER_BIT
  | Exit_return _ => ov_position (dev_of out) = ov_position m
  end.
Proof.
  pose proof BM_SECT_PER_BIT_nonneg as Hnn.
  induction n as [|n IH]; intros sector m Hlo Hhi.
  - simpl. unfold ret, trace_of, dev_of, result_of. simpl.
    repeat split; lia.
  - rewrite Nat2Z.inj_succ, Z.mul_succ_l in Hhi.
    assert (Hn0 : 0 <= Z.of_nat n * BM_SECT_PER_BIT) by nia.
    pose proof (ov_turn_order env sector m Hlo ltac:(lia)) as Hturn.
    simpl. unfold bind. unfold trace_of, dev_of, result_of in *.
    destruct (ov_turn env sector m) as [[[x sector'] m1] t1]. simpl in *.
    destruct Hturn as [Ht1 Hturn].
    destruct x as [x|]; simpl.
    + rewrite app_nil_r.
      destruct x as [r| |]; simpl in *.
      * destruct Hturn as [Hreq Hpos].
        assert (Hk : length (requests t1) = 1%nat)
          by (rewrite <- (length_map fst), Hreq; reflexivity).
        rewrite Hk, Hreq. simpl. auto.
      * destruct Hturn as [Hreq Hpos]. rewrite Hreq. simpl.
        repeat split; try assumption. lia.
      * contradiction.
    + destruct Hturn as (Hreq & Hpos & ->).
      assert (Hk : length (requests t1) = 1%nat)
        by (rewrite <- (length_map fst), Hreq; reflexivity).
      assert (Hlo1 : 0 <= sector + BM_SECT_PER_BIT) by lia.
      assert (Hhi1 : sector + BM_SECT_PER_BIT + Z.of_nat n * BM_SECT_PER_BIT
                     < 18446744073709551616) by lia.
      specialize (IH (sector + BM_SECT_PER_BIT) m1 Hlo1 Hhi1).
      destruct (ov_loop n env (sector + BM_SECT_PER_BIT) m1)
        as [[[x2 s2] m2] t2]. simpl in *.
      destruct IH as (IHreq & IHt & IHpos).
      rewrite ScanTick.requests_app, map_app, length_app, Hk, Hreq, IHreq.
      rewrite ScanTick.mod_timers_app, Ht1, IHt.
      split; [reflexivity|]. split; [reflexivity|].
      change (1 + length (requests t2))%nat with (S (length (requests t2))).
      rewrite Nat2Z.inj_succ.
      destruct x2 as [r| |]; simpl in *.
      * congruence.
      * rewrite IHpos. lia.
      * destruct IHpos as [-> ->]. split; [exact Hpos|lia].
Qed.

(** X21.  A verify tick asks for consecutive blocks: its requests start at
    [ov_position] and follow each other at the distance of one block.  The
    position is moved behind the last request only by a tick that re-arms
    the timer; a tick that ends because a request failed to go out or
    because the end of the device is reached leaves [ov_position] where it
    was. *)
Theorem verify_requests_are_consecutive env cancel m :
  0 <= ov_position m ->
  ov_position m + Z.max 0 (tick_budget m) * BM_SECT_PER_BIT
    < 18446744073709551616 ->
  let out := w_make_ov_request env cancel m in
  let t := trace_of out in
  let k := length (requests t) in
  map fst (requests t) = ov_sectors k (ov_position m) /\
  ov_position (dev_of out) =
    (if 0 <? mod_timers t
     then ov_position m + Z.of_nat k * BM_SECT_PER_BIT
     else ov_position m).
Proof.
  intros Hlo Hhi. unfold w_make_ov_request.
  destruct cancel; [unfold ret, trace_of, dev_of; simpl; auto|].
  run_scan.
  destruct (conn_ltb _ _); simpl; [auto|].
  destruct (rs_pending_cnt m >? tick_number m); cbv beta iota.
  { simpl. split; [reflexivity|]. unfold mod_timers, count. simpl. lia. }
  pose proof (ov_loop_order (Z.to_nat (tick_budget m)) env (ov_position m) m
                Hlo) as Hloop.
  assert (Hn : Z.of_nat (Z.to_nat (tick_budget m)) = Z.max 0 (tick_budget m))
    by lia.
  rewrite Hn in Hloop. specialize (Hloop Hhi).
  unfold trace_of, dev_of, result_of in Hloop.
  destruct (ov_loop _ env (ov_position m) m) as [[[x sector] m1] t1].
  simpl in *. destruct Hloop as (Hreq & Ht & Hpos).
  destruct x as [r| |]; simpl.
  - rewrite app_nil_r, Ht. simpl. auto.
  - rewrite ScanTick.requests_app, ScanTick.mod_timers_app, Ht. simpl.
    rewrite app_nil_r. split; [exact Hreq|].
    unfold mod_timers, count. simpl. exact Hpos.
  - rewrite ScanTick.requests_app, ScanTick.mod_timers_app, Ht. simpl.
    rewrite app_nil_r. split; [exact Hreq|].
    unfold mod_timers, count. simpl. exact (proj2 Hpos).
Qed.

End Facts.

Lemma env_small_test_bit_sound bad : test_bit_sound (env_small bad).
Proof.
  intros bit E. simpl in E. unfold list_test_bit in E.
  destruct ((bit <? 0) || (Z.of_nat _ <=? bit)) eqn:Hout; [discriminate|].
  apply orb_false_iff in Hout as [Hlo Hhi].
  apply Z.ltb_ge in Hlo. apply Z.leb_gt in Hhi. simpl in *. lia.
Qed.


Lemma cursor_witness :
  0 <= bm_resync_fo
         (dev_of (w_make_resync_request 50 (env_small []) false
                    mdev_sync_target)) <= 10.
Proof.
  apply (cursor_never_moves_back 50 (env_small []) false mdev_sync_target).
  - apply ScanTick.env_small_sound.
  - apply env_small_test_bit_sound.
  - simpl. lia.
  - simpl. lia.
Defined.

Lemma requeue_witness :
  bm_resync_fo (dev_of (resync_turn env_busy 0 mdev_sync_target)) = 2.
Proof.
  destruct (requeue_keeps_the_bit env_busy 0 mdev_sync_target)
    as (bit & Hfind & Hfo & _).
  - simpl. lia.
  - vm_compute. reflexivity.
  - rewrite Hfo. vm_compute in Hfind. injection Hfind as <-. reflexivity.
Defined.

Lemma verify_requests_witness :
  map fst (requests (trace_of
    (w_make_ov_request (env_small []) false mdev_verify))) = [64; 72].
Proof.
  destruct (verify_requests_are_consecutive (env_small []) false mdev_verify)
    as [Hreq _].
  - vm_compute. discriminate.
  - vm_compute. reflexivity.
  - rewrite Hreq. vm_compute. reflexivity.
Defined.

End ScanOrder.
(** ** Resync order between devices, continued *)

Module SyncOrder.
Section Facts.

(** *** What a pass changes *)






(** *** The table [drbd_alter_sa] leaves *)

Lemma set_after_same na x : after (sync_conf x) = na -> set_after na x = x.
Proof.
  destruct x as [s sc]. destruct sc. simpl. intros <-. reflexivity.
Qed.

Lemma alter_set_after_same devs minor na :
  (forall x, dev_at devs minor = Some x -> after (sync_conf x) = na) ->
  alter (fmap (set_after na)) minor devs = devs.
Proof.
  intros Hna. apply list_eq. intros i.
  destruct (Nat.eq_dec minor i) as [<-|Hne].
  - rewrite list_lookup_alter_eq. unfold dev_at in Hna.
    destruct (devs !! minor) as [[x|]|]; simpl; try reflexivity.
    rewrite set_after_same; [reflexivity|]. now apply Hna.
  - now apply list_lookup_alter_ne.
Qed.

Lemma settled_loop_is_fixed fuel devs :
  acyclic devs = true -> (length devs <= fuel)%nat ->
  (forall i x, dev_at devs i = Some x -> unconfigured x = false ->
     flag_agrees fuel devs x) ->
  alter_sa_loop 1 fuel devs = Some devs.
Proof.
  intros Hac Hfuel Hag. cbn [alter_sa_loop].
  destruct (SyncAfter.pass_total _ _ (SyncAfter.pause_visit_tame _)
              (SyncAfter.pause_visit_total _)
              (seq 0 (length devs)) devs false Hac Hfuel)
    as (devs1 & rv1 & Hp).
  unfold _drbd_pause_after. rewrite Hp.
  destruct (SyncAfter.pass_on_settled _ _ (SyncAfter.pause_visit_tame _)
              _ _ _ _ _ Hag Hp) as [-> ->].
  destruct (SyncAfter.pass_total _ _ (SyncAfter.resume_visit_tame _)
              (SyncAfter.resume_visit_total _)
              (seq 0 (length devs)) devs false Hac Hfuel)
    as (devs2 & rv2 & Hr).
  unfold _drbd_resume_next. rewrite Hr.
  destruct (SyncAfter.pass_on_settled _ _ (SyncAfter.resume_visit_tame _)
              _ _ _ _ _ Hag Hr) as [-> ->].
  reflexivity.
Qed.

Lemma alter_sa_result devs minor na devs' :
  let devs0 := alter (fmap (set_after na)) minor devs in
  acyclic devs0 = true ->
  drbd_alter_sa (S (length devs)) (length devs) devs minor na = Some devs' ->
  same_frame devs0 devs' /\ length devs' = length devs /\
  acyclic devs' = true /\
  forall i x, dev_at devs' i = Some x -> unconfigured x = false ->
    flag_agrees (length devs) devs' x.
Proof.
  intros devs0 Hac. unfold drbd_alter_sa. fold devs0.
  assert (Hlen : length devs0 = length devs) by apply length_alter.
  rewrite <- Hlen.
  destruct (SyncAfter.alter_sa_loop_settles (length devs0) 0 devs0 Hac
              (SyncAfter.stable_zero _ _) ltac:(lia))
    as (devs'' & Hloop & Hsame & Hag).
  rewrite Hloop. intros [= <-].
  split; [exact Hsame|]. split.
  - symmetry. apply SyncAfter.same_frame_length. exact Hsame.
  - split; [eapply SyncAfter.acyclic_frame; eassumption | exact Hag].
Qed.

(** X23.  Setting the prerequisite a device has already changes nothing: on the
    table a call of [drbd_alter_sa] has left, a second call with the same
    minor and the same prerequisite ends after one turn of its loop and
    returns the table as it is. *)
Theorem alter_sa_is_idempotent devs minor na devs' :
  acyclic (alter (fmap (set_after na)) minor devs) = true ->
  drbd_alter_sa (S (length devs)) (length devs) devs minor na = Some devs' ->
  drbd_alter_sa 1 (length devs') devs' minor na = Some devs'.
Proof.
  intros Hac Hrun.
  destruct (alter_sa_result devs minor na devs' Hac Hrun)
    as (Hsame & Hlen & Hac' & Hag).
  unfold drbd_alter_sa.
  rewrite alter_set_after_same.
  - rewrite Hlen. apply settled_loop_is_fixed;
      [exact Hac' | lia | exact Hag].
  - intros x' Hx'.
    pose proof (SyncAfter.same_frame_dev_at _ _ minor Hsame) as Hm.
    rewrite Hx' in Hm.
    destruct (dev_at (alter (fmap (set_after na)) minor devs) minor)
      as [x0|] eqn:Hx0; [|contradiction].
    apply SyncAfter.frame_eq_fields in Hm as (Hsc & _).
    rewrite <- Hsc. unfold dev_at in Hx0.
    rewrite list_lookup_alter_eq in Hx0.
    destruct (devs !! minor) as [[x|]|]; simpl in Hx0; try discriminate.
    injection Hx0 as <-. reflexivity.
Qed.

Lemma may_sync_now_more_fuel n devs : forall n' x b,
  (n <= n')%nat -> _drbd_may_sync_now n devs x = Some b ->
  _drbd_may_sync_now n' devs x = Some b.
Proof.
  induction n as [|n IH]; intros n' x b Hle; [discriminate|].
  destruct n' as [|n']; [lia|].
  rewrite !SyncAfter.may_sync_now_step.
  destruct (prerequisite devs x) as [p|]; [|auto].
  destruct (holds_back p); [auto|]. apply IH. lia.
Qed.

(** X24.  In the table [drbd_alter_sa] leaves, looking at the prerequisite alone
    is enough: for a device whose prerequisite is configured, the walk
    along the whole chain allows the resync exactly when the prerequisite
    itself does not hold back, and a configured device is paused exactly
    when its prerequisite holds back. *)
Theorem settled_chain_rule_is_immediate devs minor na devs' i x p :
  acyclic (alter (fmap (set_after na)) minor devs) = true ->
  drbd_alter_sa (S (length devs)) (length devs) devs minor na = Some devs' ->
  dev_at devs' i = Some x ->
  prerequisite devs' x = Some p ->
  unconfigured p = false ->
  _drbd_may_sync_now (length devs) devs' x
    = Some (may_sync_now_as_specified devs' x) /\
  (unconfigured x = false -> aftr_isp (state x) = holds_back p).
Proof.
  intros Hac Hrun Hx Hp Hun.
  destruct (alter_sa_result devs minor na devs' Hac Hrun)
    as (Hsame & Hlen & Hac' & Hag).
  assert (Hmay : _drbd_may_sync_now (length devs) devs' x
                 = Some (negb (holds_back p))).
  { pose proof (proj1 (SyncAfter.acyclic_spec devs') Hac' i x Hx) as Hends.
    rewrite Hlen in Hends.
    destruct (length devs) as [|L] eqn:HL; [discriminate Hends|].
    rewrite SyncAfter.may_sync_now_step, Hp.
    simpl in Hends. rewrite Hp in Hends.
    destruct (holds_back p) eqn:Hhold; [reflexivity|].
    destruct (SyncAfter.may_sync_now_total L devs' p Hends) as [b Hb].
    rewrite Hb. f_equal.
    pose proof (may_sync_now_more_fuel L devs' (S L) p b ltac:(lia) Hb)
      as Hb'.
    assert (Hpj : exists j, dev_at devs' j = Some p).
    { unfold prerequisite in Hp.
      destruct (after (sync_conf x) =? -1); [discriminate|].
      apply SyncAfter.minor_to_mdev_Some in Hp as [_ Hp]. eauto. }
    destruct Hpj as [j Hj].
    specialize (Hag j p Hj Hun). unfold flag_agrees in Hag.
    rewrite Hb' in Hag. injection Hag as ->.
    unfold holds_back in Hhold.
    apply orb_false_iff in Hhold as [Hhold _].
    apply orb_false_iff in Hhold as [Hhold _].
    apply orb_false_iff in Hhold as [_ ->]. reflexivity. }
  split.
  - rewrite Hmay. unfold may_sync_now_as_specified. now rewrite Hp.
  - intros Hunx. specialize (Hag i x Hx Hunx). unfold flag_agrees in Hag.
    rewrite Hmay in Hag. injection Hag as Hag.
    destruct (aftr_isp (state x)), (holds_back p); simpl in Hag;
      try reflexivity; discriminate.
Qed.

(** *** Cycles *)

Lemma goes_round_next devs x p :
  goes_round devs x -> prerequisite devs x = Some p -> goes_round devs p.
Proof.
  intros Hx Hp y [->|Hy]; apply Hx; right.
  - now apply chain_first.
  - eapply chain_next; eassumption.
Qed.

Lemma walk_goes_round fuel devs : forall odev,
  goes_round devs odev -> _drbd_may_sync_now fuel devs odev = None.
Proof.
  induction fuel as [|fuel IH]; intros odev Hround; [reflexivity|].
  rewrite SyncAfter.may_sync_now_step.
  destruct (Hround odev (or_introl eq_refl)) as (p & Hp & Hhold).
  rewrite Hp, Hhold. apply IH. eapply goes_round_next; eassumption.
Qed.

(** X25.  On a cycle of prerequisites none of which holds back, the walk of
    [_drbd_may_sync_now] never comes to an end: it returns within no number
    of steps. *)
Theorem walk_on_a_cycle_never_ends devs odev :
  goes_round devs odev ->
  forall fuel, _drbd_may_sync_now fuel devs odev = None.
Proof.
  intros Hround fuel. revert odev Hround.
  induction fuel as [|fuel IH]; intros odev Hround; [reflexivity|].
  rewrite SyncAfter.may_sync_now_step.
  destruct (Hround odev (or_introl eq_refl)) as (p & Hp & Hhold).
  rewrite Hp, Hhold. apply IH.
  intros y [->|Hy]; apply Hround; right.
  - now apply chain_first.
  - eapply chain_next; eassumption.
Qed.

Lemma on_chain_snoc devs x z y :
  on_chain devs x z -> prerequisite devs z = Some y -> on_chain devs x y.
Proof.
  intros Hxz Hy. induction Hxz as [a p Hp | a p q Hp _ IH].
  - eapply chain_next; [exact Hp|]. now apply chain_first.
  - eapply chain_next; [exact Hp|]. now apply IH.
Qed.

Lemma on_chain_trans devs x y w :
  on_chain devs x y -> on_chain devs y w -> on_chain devs x w.
Proof.
  intros Hxy Hyw. induction Hxy as [a p Hp | a p q Hp _ IH].
  - eapply chain_next; eassumption.
  - eapply chain_next; [exact Hp|]. now apply IH.
Qed.

Lemma goes_round_member devs x y :
  goes_round devs x -> y = x \/ on_chain devs x y -> goes_round devs y.
Proof.
  intros Hx [->|Hy]; [exact Hx|].
  intros z [->|Hz]; apply Hx; right; [exact Hy|].
  eapply on_chain_trans; eassumption.
Qed.

Lemma round_prerequisite_insert fuel devs j y v b x z :
  goes_round devs x -> z = x \/ on_chain devs x z ->
  dev_at devs j = Some y -> _drbd_may_sync_now fuel devs y = Some b ->
  prerequisite (<[j := Some (with_aftr_isp v y)]> devs) z =
    prerequisite devs z.
Proof.
  intros Hround Hz Hy Hmay. unfold prerequisite.
  destruct (after (sync_conf z) =? -1) eqn:Hna; [reflexivity|].
  unfold minor_to_mdev. rewrite length_insert.
  destruct ((0 <=? after (sync_conf z))
            && (after (sync_conf z) <? Z.of_nat (length devs))) eqn:Hin;
    [|reflexivity].
  destruct (Nat.eq_dec j (Z.to_nat (after (sync_conf z)))) as [Hj|Hj].
  - exfalso.
    assert (Hp : prerequisite devs z = Some y).
    { unfold prerequisite, minor_to_mdev. rewrite Hna, Hin, <- Hj.
      exact Hy. }
    assert (Hchain : on_chain devs x y).
    { destruct Hz as [->|Hz]; [now apply chain_first|].
      eapply on_chain_snoc; eassumption. }
    pose proof (goes_round_member devs x y Hround (or_intror Hchain)) as Hry.
    rewrite (walk_goes_round fuel devs y Hry) in Hmay. discriminate.
  - now apply SyncAfter.dev_at_insert_ne.
Qed.

Lemma goes_round_insert fuel devs j y v b x :
  goes_round devs x ->
  dev_at devs j = Some y -> _drbd_may_sync_now fuel devs y = Some b ->
  goes_round (<[j := Some (with_aftr_isp v y)]> devs) x.
Proof.
  intros Hround Hy Hmay.
  assert (Hback : forall a z,
    on_chain (<[j := Some (with_aftr_isp v y)]> devs) a z ->
    a = x \/ on_chain devs x a -> on_chain devs a z).
  { intros a z Hc. induction Hc as [a p Hp | a p q Hp _ IH]; intros Ha.
    - rewrite (round_prerequisite_insert fuel devs j y v b x a
                 Hround Ha Hy Hmay) in Hp.
      now apply chain_first.
    - rewrite (round_prerequisite_insert fuel devs j y v b x a
                 Hround Ha Hy Hmay) in Hp.
      eapply chain_next; [exact Hp|]. apply IH. right.
      destruct Ha as [->|Ha]; [now apply chain_first|].
      eapply on_chain_snoc; eassumption. }
  intros z Hz.
  assert (Hz' : z = x \/ on_chain devs x z).
  { destruct Hz as [->|Hz]; [now left|]. right.
    apply Hback; [exact Hz | now left]. }
  destruct (Hround z Hz') as (p & Hp & Hhold).
  exists p. split; [|exact Hhold].
  rewrite (round_prerequisite_insert fuel devs j y v b x z
             Hround Hz' Hy Hmay).
  exact Hp.
Qed.

Lemma pause_pass_goes_round fuel minors : forall devs rv i x,
  In i minors -> dev_at devs i = Some x -> unconfigured x = false ->
  goes_round devs x ->
  for_minors (pause_visit fuel) minors (devs, rv) = None.
Proof.
  induction minors as [|j minors IH]; intros devs rv i x Hin Hx Hun Hround;
    [destruct Hin|].
  cbn [for_minors]. rewrite SyncAfter.pause_visit_eq.
  pose proof (walk_goes_round fuel devs x Hround) as Hwalk.
  destruct (Nat.eq_dec j i) as [->|Hne].
  { rewrite Hx, Hun, Hwalk. reflexivity. }
  assert (Hrest : In i minors) by (destruct Hin; [contradiction|assumption]).
  destruct (dev_at devs j) as [y|] eqn:Hy; [|eapply IH; eassumption].
  destruct (unconfigured y); [eapply IH; eassumption|].
  destruct (_drbd_may_sync_now fuel devs y) as [[|]|] eqn:Hmay;
    [eapply IH; eassumption | | reflexivity].
  apply (IH _ _ i x Hrest).
  - rewrite SyncAfter.dev_at_insert_ne by exact Hne. exact Hx.
  - exact Hun.
  - eapply goes_round_insert; eassumption.
Qed.

(** X26.  [drbd_alter_sa] does not return when it leaves a configured device on
    a cycle of prerequisites none of which holds back: whatever number of
    turns and of steps it is given, the first pass comes to a walk that
    goes round.  The code does not look for cycles; it is for the caller
    not to make one. *)
Theorem alter_sa_never_returns_on_a_cycle devs minor na i x :
  let devs0 := alter (fmap (set_after na)) minor devs in
  dev_at devs0 i = Some x -> unconfigured x = false ->
  goes_round devs0 x ->
  forall turns fuel, drbd_alter_sa turns fuel devs minor na = None.
Proof.
  intros devs0 Hx Hun Hround turns fuel. unfold drbd_alter_sa. fold devs0.
  destruct turns as [|turns]; [reflexivity|].
  cbn [alter_sa_loop]. unfold _drbd_pause_after.
  rewrite (pause_pass_goes_round fuel _ devs0 false i x); auto.
  apply in_seq. apply SyncAfter.dev_at_length in Hx. lia.
Qed.

End Facts.

Lemma devs_cycle_goes_round :
  goes_round devs_cycle (dev_after 1 Connected).
Proof.
  assert (Hmem : forall a y, on_chain devs_cycle a y ->
            a = dev_after 1 Connected \/ a = dev_after 0 Connected ->
            y = dev_after 1 Connected \/ y = dev_after 0 Connected).
  { intros a y Hc. induction Hc as [a p Hp | a p q Hp _ IH]; intros Ha.
    - destruct Ha as [-> | ->]; vm_compute in Hp; injection Hp as <-; auto.
    - apply IH.
      destruct Ha as [-> | ->]; vm_compute in Hp; injection Hp as <-; auto. }
  intros z Hz.
  assert (Hz' : z = dev_after 1 Connected \/ z = dev_after 0 Connected).
  { destruct Hz as [->|Hz]; [now left|]. apply (Hmem _ _ Hz). now left. }
  destruct Hz' as [-> | ->].
  - exists (dev_after 0 Connected). split; reflexivity.
  - exists (dev_after 1 Connected). split; reflexivity.
Qed.


Lemma alter_sa_idempotent_witness :
  drbd_alter_sa 1 3 devs_chain_settled 0 1 = Some devs_chain_settled.
Proof.
  apply (alter_sa_is_idempotent devs_chain 0 1 devs_chain_settled);
    vm_compute; reflexivity.
Defined.

Lemma settled_chain_rule_witness :
  _drbd_may_sync_now (length devs_chain) devs_chain_settled
    (with_aftr_isp true (dev_after 1 Connected)) = Some false.
Proof.
  destruct (settled_chain_rule_is_immediate devs_chain 0 1
              devs_chain_settled 0
              (with_aftr_isp true (dev_after 1 Connected))
              (with_aftr_isp true (dev_after 2 Connected)))
    as [Hmay _].
  - vm_compute. reflexivity.
  - vm_compute. reflexivity.
  - vm_compute. reflexivity.
  - vm_compute. reflexivity.
  - vm_compute. reflexivity.
  - rewrite Hmay. vm_compute. reflexivity.
Defined.

Lemma walk_on_a_cycle_witness :
  _drbd_may_sync_now 1000 devs_cycle (dev_after 1 Connected) = None.
Proof.
  apply (walk_on_a_cycle_never_ends devs_cycle (dev_after 1 Connected)).
  apply devs_cycle_goes_round.
Defined.

Lemma alter_sa_cycle_witness :
  drbd_alter_sa 5 5 devs_cycle 0 1 = None.
Proof.
  apply (alter_sa_never_returns_on_a_cycle devs_cycle 0 1 0
           (dev_after 1 Connected)).
  - reflexivity.
  - reflexivity.
  - apply devs_cycle_goes_round.
Defined.

End SyncOrder.
